(** * The clutch scoring engine of [nba_clutch_predictor.py]

    A shallow embedding of [calcular_clutch_score] and
    [obtener_datos_jugadores].  The library calls the two functions are
    made of (pandas column selection and assignment, [dropna], [isin],
    [rank], [sort_values]; scikit-learn's [StandardScaler]; [numpy.dot])
    are modelled by their documented behaviour.

    Numbers: a float64 cell is an [option R]; [None] is NaN (a missing
    value) and [Some x] the real number [x].  Arithmetic is exact: rounding,
    overflow and infinities are outside the model, and so is everything
    that depends on them (the last bits of a mean, the order in which a
    column is summed).  Where rounding decides a property, the scaler is
    modelled a second time on binary64 numbers, in the module [Float64]. *)

From Stdlib Require Import Reals Lra Lia String Permutation Sorted.
From Stdlib Require Floats.
From stdpp Require Import base list sorting.

Open Scope string_scope.
Open Scope list_scope.
Open Scope R_scope.

#[global] Instance R_eq_dec : EqDecision R := Req_dec_T.
#[global] Instance Rlt_decision (x y : R) : Decision (x < y) := Rlt_dec x y.
#[global] Instance Rle_decision (x y : R) : Decision (x <= y) := Rle_dec x y.

(** ** Exceptions *)

Inductive exn :=
| KeyError (key : string)
| ValueError (msg : string)
| TypeError (msg : string)
| RuntimeError (msg : string).

(** [str(e)]: the message; for a [KeyError] the [repr] of its key, which
    is the key between single quotes (for a key without a quote or a
    backslash). *)
Definition exn_str (e : exn) : string :=
  match e with
  | KeyError k => "'" ++ k ++ "'"
  | ValueError m | TypeError m | RuntimeError m => m
  end.

(** ** Columns, frames and arrays *)

(** A one-dimensional float array: the cells of a numeric column. *)
Definition Vector := list (option R).

(** A two-dimensional float array, kept as the list of its columns. *)
Definition Matrix := list Vector.

(** A pandas column (a Series without its index): float64 cells, or objects
    (strings here), each of which can be missing. *)
Inductive column :=
| FloatCol (v : Vector)
| ObjCol (v : list (option string)).

(** A DataFrame: its columns in order, each with its label.  Rows are
    addressed by position; the index labels play no part in the two
    functions modelled (the engine ends with [reset_index(drop=True)]). *)
Definition DataFrame := list (string * column).

Definition col_length (c : column) : nat :=
  match c with FloatCol v => length v | ObjCol v => length v end.

Definition nrows (df : DataFrame) : nat :=
  match df with [] => 0%nat | (_, c) :: _ => col_length c end.

Fixpoint df_lookup (df : DataFrame) (name : string) : option column :=
  match df with
  | [] => None
  | (n, c) :: rest => if String.eqb n name then Some c else df_lookup rest name
  end.

(** [df[names]] with a list of labels: a new frame with these columns, in
    the order asked for; [KeyError] on a label that is not a column.  The
    argument of pandas' exception is a message that lists the missing
    labels; the model keeps the first missing label as the key, so the text
    of this error is not that of the program. *)
Fixpoint df_getitem_list (df : DataFrame) (names : list string)
  : exn + DataFrame :=
  match names with
  | [] => inr []
  | n :: rest =>
      match df_lookup df n with
      | None => inl (KeyError n)
      | Some c =>
          match df_getitem_list df rest with
          | inl e => inl e
          | inr d => inr ((n, c) :: d)
          end
      end
  end.

(** [df[name]] with one label: that column. *)
Definition df_getitem (df : DataFrame) (name : string) : exn + column :=
  match df_lookup df name with
  | None => inl (KeyError name)
  | Some c => inr c
  end.

Fixpoint df_replace (df : DataFrame) (name : string) (c : column)
  : DataFrame :=
  match df with
  | [] => []
  | (n, c0) :: rest =>
      if String.eqb n name then (n, c) :: rest
      else (n, c0) :: df_replace rest name c
  end.

(** [df[name] = values]: the column is replaced where it stands, or added
    after the last one; the values must be as many as the rows. *)
Definition df_setitem (df : DataFrame) (name : string) (c : column)
  : exn + DataFrame :=
  match df with
  | [] => inr [(name, c)]
  | _ =>
      if Nat.eqb (col_length c) (nrows df) then
        match df_lookup df name with
        | Some _ => inr (df_replace df name c)
        | None => inr (df ++ [(name, c)])
        end
      else inl (ValueError "Length of values does not match length of index")
  end.

(** Row selection by position ([DataFrame.take]). *)
Definition take_col (idx : list nat) (c : column) : column :=
  match c with
  | FloatCol v => FloatCol (map (fun i => nth i v None) idx)
  | ObjCol v => ObjCol (map (fun i => nth i v None) idx)
  end.

Definition df_take (idx : list nat) (df : DataFrame) : DataFrame :=
  map (fun nc => (fst nc, take_col idx (snd nc))) df.

(** ** NaN-propagating arithmetic *)

Definition nan_add (a b : option R) : option R :=
  match a, b with Some x, Some y => Some (x + y) | _, _ => None end.

Definition nan_mul (a b : option R) : option R :=
  match a, b with Some x, Some y => Some (x * y) | _, _ => None end.

Definition Rsum (l : list R) : R := fold_right Rplus 0 l.

(** The cells of a column that are not NaN. *)
Definition present (v : Vector) : list R :=
  omap (fun c : option R => c) (v : list (option R)).

(** ** [StandardScaler().fit_transform]

    The scaler accepts NaN: it is left out of the column statistics and
    stays NaN in the output.  The variance is the population variance
    (divisor [n]).  A column whose standard deviation is zero is divided by
    1 instead ([_handle_zeros_in_scale]).  Mean and variance are the exact
    ones; the mean the program computes is rounded ([Float64.mean_]), and
    can differ from the common value of a constant column in the last
    bit. *)

Definition nanmean (v : Vector) : R :=
  Rsum (present v) / INR (length (present v)).

Definition nanvar (v : Vector) : R :=
  let m := nanmean v in
  Rsum (map (fun x => (x - m) * (x - m)) (present v))
  / INR (length (present v)).

Definition handle_zeros_in_scale (s : R) : R :=
  if decide (s = 0) then 1 else s.

Definition scale_of (v : Vector) : R :=
  handle_zeros_in_scale (sqrt (nanvar v)).

Definition transform_cell (mean scale : R) (x : option R) : option R :=
  match x with Some v => Some ((v - mean) / scale) | None => None end.

Definition scale_column (v : Vector) : Vector :=
  map (transform_cell (nanmean v) (scale_of v)) v.

Definition as_float (c : column) : exn + Vector :=
  match c with
  | FloatCol v => inr v
  | ObjCol _ => inl (ValueError "could not convert string to float")
  end.

Fixpoint as_floats (cs : list column) : exn + Matrix :=
  match cs with
  | [] => inr []
  | c :: rest =>
      match as_float c with
      | inl e => inl e
      | inr v =>
          match as_floats rest with
          | inl e => inl e
          | inr A => inr (v :: A)
          end
      end
  end.

Definition n_samples (A : Matrix) : nat :=
  match A with [] => 0%nat | v :: _ => length v end.

(** Input validation of the scaler ([check_array]): conversion to a float
    array, then at least one sample. *)
Definition check_array (X : DataFrame) : exn + Matrix :=
  match as_floats (map snd X) with
  | inl e => inl e
  | inr [] => inl (ValueError "at least one array or dtype is required")
  | inr A =>
      if Nat.eqb (n_samples A) 0
      then inl (ValueError "Found array with 0 sample(s) while a minimum of 1 is required by StandardScaler")
      else inr A
  end.

(** The fitted attributes [mean_] and [scale_]. *)
Definition fit (A : Matrix) : list R * list R :=
  (map nanmean A, map scale_of A).

Definition transform (A : Matrix) : Matrix := map scale_column A.

(** ** [numpy.dot] of a 2-D array with a 1-D list *)

Definition row (i : nat) (A : Matrix) : Vector :=
  map (fun v => nth i v None) A.

Definition dot (a : Vector) (w : list R) : option R :=
  fold_left nan_add (zip_with (fun x y => nan_mul x (Some y)) a w) (Some 0).

Definition np_dot (A : Matrix) (w : list R) : exn + Vector :=
  if Nat.eqb (length A) (length w)
  then inr (map (fun i => dot (row i A) w) (seq 0 (n_samples A)))
  else inl (ValueError "shapes not aligned").

(** ** [Series.rank(ascending=False)]

    The defaults are [method='average'] and [na_option='keep']: the cells
    that are not NaN are put in descending order, positions counted from 1;
    a group of equal values occupies consecutive positions and each member
    gets the average of these positions.  NaN cells get NaN. *)

Definition count_greater (x : R) (vals : list R) : nat :=
  length (filter (fun y => x < y) vals).

Definition count_equal (x : R) (vals : list R) : nat :=
  length (filter (fun y => y = x) vals).

Definition average_rank (x : R) (vals : list R) : R :=
  let g := count_greater x vals in
  let k := count_equal x vals in
  Rsum (map (fun i => INR (g + i)) (seq 1 k)) / INR k.

Definition rank_desc (s : Vector) : Vector :=
  map (fun c => match c with
                | None => None
                | Some x => Some (average_rank x (present s))
                end) s.

(** ** [sort_values(by, ascending=False)]

    pandas' [nargsort]: the NaN positions are set aside; for a descending
    sort the other items are reversed, sorted in ascending order, and the
    result is reversed again; the NaN positions come last
    ([na_position='last']).  The ascending sort is an insertion sort, which
    is what numpy's default kind does on short arrays; on long arrays numpy
    may order equal keys differently. *)

Fixpoint insert_asc (a : R * nat) (l : list (R * nat)) : list (R * nat) :=
  match l with
  | [] => [a]
  | b :: l' =>
      if decide (fst a <= fst b) then a :: b :: l'
      else b :: insert_asc a l'
  end.

Definition argsort (l : list (R * nat)) : list (R * nat) :=
  fold_right insert_asc [] l.

Definition non_nan_item (xi : option R * nat) : option (R * nat) :=
  match fst xi with Some x => Some (x, snd xi) | None => None end.

Definition nan_item (xi : option R * nat) : option nat :=
  match fst xi with Some _ => None | None => Some (snd xi) end.

Definition nargsort_desc (items : Vector) : list nat :=
  let keyed := zip items (seq 0 (length items)) in
  let non_nans := omap non_nan_item keyed in
  let nan_idx := omap nan_item keyed in
  rev (map snd (argsort (rev non_nans))) ++ nan_idx.

(** Sorting by an object column is not modelled. *)
Definition df_sort_values_desc (df : DataFrame) (by_ : string)
  : exn + DataFrame :=
  match df_lookup df by_ with
  | None => inl (KeyError by_)
  | Some (FloatCol v) => inr (df_take (nargsort_desc v) df)
  | Some (ObjCol _) => inl (TypeError "sort by an object column")
  end.

(** Ranking an object column is not modelled. *)
Definition series_rank_desc (c : column) : exn + column :=
  match c with
  | FloatCol v => inr (FloatCol (rank_desc v))
  | ObjCol _ => inl (TypeError "rank of an object column")
  end.

(** ** Boolean-mask row selection, [dropna] and [isin] *)

Definition where_true (mask : list bool) : list nat :=
  omap (fun bi : bool * nat => if fst bi then Some (snd bi) else None)
       (zip mask (seq 0 (length mask))).

(** [df[mask]] *)
Definition df_mask (mask : list bool) (df : DataFrame) : DataFrame :=
  df_take (where_true mask) df.

Definition notna_at (i : nat) (c : column) : bool :=
  match c with
  | FloatCol v => match nth i v None with Some _ => true | None => false end
  | ObjCol v => match nth i v None with Some _ => true | None => false end
  end.

(** [df.dropna()]: the rows without a missing cell. *)
Definition df_dropna (df : DataFrame) : DataFrame :=
  df_mask (map (fun i => forallb (notna_at i) (map snd df))
               (seq 0 (nrows df))) df.

(** [series.isin(values)] for a list of strings. *)
Definition series_isin (c : column) (values : list string) : list bool :=
  match c with
  | ObjCol v =>
      map (fun x => match x with
                    | Some s => existsb (String.eqb s) values
                    | None => false
                    end) v
  | FloatCol v => map (fun _ => false) v
  end.

(** ** The object store

    pandas frames, numpy arrays and the scaler are objects reached through
    references; a column assignment changes a frame in place.  A statement
    of the program is a store transformer that returns a value or raises. *)

Inductive obj :=
| ODataFrame (d : DataFrame)
| OSeries (c : column)
| ONdarray1 (v : Vector)
| ONdarray2 (A : Matrix)
| OScaler (fitted : option (list R * list R)).

Definition ref := nat.
Abbreviation store := (list obj).

Definition M (A : Type) : Type := store -> (exn + A) * store.

Definition ret {A} (a : A) : M A := fun s => (inr a, s).

Definition lift {A} (r : exn + A) : M A := fun s => (r, s).

Definition bind {A B} (m : M A) (k : A -> M B) : M B :=
  fun s =>
    match m s with
    | (inr a, s') => k a s'
    | (inl e, s') => (inl e, s')
    end.

Notation "x <- m ;; k" := (bind m (fun x => k))
  (at level 100, m at next level, right associativity).
Notation "m ;;; k" := (bind m (fun _ => k))
  (at level 100, right associativity).

Definition alloc (o : obj) : M ref :=
  fun s => (inr (length s), s ++ [o]).

Definition load (r : ref) : M obj :=
  fun s =>
    match s !! r with
    | Some o => (inr o, s)
    | None => (inl (RuntimeError "dangling reference"), s)
    end.

(** References come from [alloc]; an update through a reference that is
    not in the store would change nothing. *)
Definition update (r : ref) (o : obj) : M unit :=
  fun s => (inr tt, <[r := o]> s).

Definition load_frame (r : ref) : M DataFrame :=
  o <- load r ;;
  match o with
  | ODataFrame d => ret d
  | _ => lift (inl (TypeError "not a DataFrame"))
  end.

Definition load_array2 (r : ref) : M Matrix :=
  o <- load r ;;
  match o with
  | ONdarray2 A => ret A
  | _ => lift (inl (TypeError "not a 2-D array"))
  end.

(** The values of a 1-D array or of a Series, as a column. *)
Definition load_values (r : ref) : M column :=
  o <- load r ;;
  match o with
  | ONdarray1 v => ret (FloatCol v)
  | OSeries c => ret c
  | _ => lift (inl (TypeError "not array-like"))
  end.

Definition StandardScaler_new : M ref := alloc (OScaler None).

(** [scaler.fit_transform(X)]: the fitted attributes are stored on the
    scaler, the scaled data is a new array ([copy=True]). *)
Definition StandardScaler_fit_transform (scaler X : ref) : M ref :=
  d <- load_frame X ;;
  A <- lift (check_array d) ;;
  (update scaler (OScaler (Some (fit A))) ;;;
   alloc (ONdarray2 (transform A))).

Definition numpy_dot (a : ref) (w : list R) : M ref :=
  A <- load_array2 a ;;
  v <- lift (np_dot A w) ;;
  alloc (ONdarray1 v).

Definition DataFrame_getitem_list (df : ref) (names : list string) : M ref :=
  d <- load_frame df ;;
  d' <- lift (df_getitem_list d names) ;;
  alloc (ODataFrame d').

Definition DataFrame_getitem (df : ref) (name : string) : M ref :=
  d <- load_frame df ;;
  c <- lift (df_getitem d name) ;;
  alloc (OSeries c).

Definition DataFrame_copy (df : ref) : M ref :=
  d <- load_frame df ;;
  alloc (ODataFrame d).

(** [df[name] = values] changes the frame [df] refers to. *)
Definition DataFrame_setitem (df : ref) (name : string) (values : ref)
  : M unit :=
  d <- load_frame df ;;
  c <- load_values values ;;
  d' <- lift (df_setitem d name c) ;;
  update df (ODataFrame d').

Definition Series_rank_desc (s : ref) : M ref :=
  c <- load_values s ;;
  r <- lift (series_rank_desc c) ;;
  alloc (OSeries r).

Definition DataFrame_sort_values_desc (df : ref) (by_ : string) : M ref :=
  d <- load_frame df ;;
  d' <- lift (df_sort_values_desc d by_) ;;
  alloc (ODataFrame d').

(** [reset_index(drop=True)]: a new frame with the same rows, numbered
    from 0. *)
Definition DataFrame_reset_index (df : ref) : M ref :=
  d <- load_frame df ;;
  alloc (ODataFrame d).

(** ** [calcular_clutch_score] *)

(** The [weights] dict, in insertion order. *)
Definition weights : list (string * R) :=
  [("PTS", 0.35); ("FG_PCT", 0.25); ("FT_PCT", 0.15);
   ("AST", 0.15); ("FG3_PCT", 0.10); ("TOV", -0.25)].

Definition calcular_clutch_score (df : ref) : M ref :=
  scaler <- StandardScaler_new ;;
  X <- DataFrame_getitem_list df (map fst weights) ;;
  scaled_data <- StandardScaler_fit_transform scaler X ;;
  clutch_scores <- numpy_dot scaled_data (map snd weights) ;;
  selected <- DataFrame_getitem_list df ["PLAYER_NAME"; "TEAM_ABBREVIATION"] ;;
  df_clutch <- DataFrame_copy selected ;;
  (DataFrame_setitem df_clutch "CLUTCH_SCORE" clutch_scores ;;;
   score_col <- DataFrame_getitem df_clutch "CLUTCH_SCORE" ;;
   ranks <- Series_rank_desc score_col ;;
   (DataFrame_setitem df_clutch "CLUTCH_RANK" ranks ;;;
    sorted <- DataFrame_sort_values_desc df_clutch "CLUTCH_SCORE" ;;
    DataFrame_reset_index sorted)).

(** What a run leaves for its caller: the exception, or the frame behind
    the reference returned. *)
Definition outcome (run : (exn + ref) * store) : exn + DataFrame :=
  match run with
  | (inl e, _) => inl e
  | (inr r, s) =>
      match s !! r with
      | Some (ODataFrame out) => inr out
      | _ => inl (RuntimeError "dangling reference")
      end
  end.

(** The engine as a function of the table it is given: the program is run
    in a store that holds this table only, and the frame it returns is read
    back. *)
Definition calcular_clutch_score_on (df : DataFrame) : exn + DataFrame :=
  outcome (calcular_clutch_score 0%nat [ODataFrame df]).

(** ** [obtener_datos_jugadores] *)

Definition relevant_columns : list string :=
  ["PLAYER_NAME"; "TEAM_ABBREVIATION"; "FG_PCT";
   "FG3_PCT"; "FT_PCT"; "AST"; "TOV"; "PTS"].

(** The body of the [try] block, given what the request for the league's
    player statistics produced: the frame, or the exception it raised. *)
Definition obtener_datos_jugadores_try (response : exn + DataFrame)
    (abreviaturas : list string) : exn + DataFrame :=
  match response with
  | inl e => inl e
  | inr stats =>
      match df_getitem_list stats relevant_columns with
      | inl e => inl e
      | inr selected =>
          let relevant_stats := df_dropna selected in
          match df_getitem relevant_stats "TEAM_ABBREVIATION" with
          | inl e => inl e
          | inr teams =>
              inr (df_mask (series_isin teams abreviaturas) relevant_stats)
          end
      end
  end.

(** The function returns a frame and the messages it shows with
    [st.error]; [pd.DataFrame()] is the frame without columns. *)
Definition obtener_datos_jugadores (response : exn + DataFrame)
    (abreviaturas : list string) : DataFrame * list string :=
  match obtener_datos_jugadores_try response abreviaturas with
  | inr out => (out, [])
  | inl e => ([], ["Error en datos de jugadores: " ++ exn_str e]%string)
  end.

(** ** Tables of records

    A table with the eight columns [obtener_datos_jugadores] selects, seen
    as the list of its rows, and the table the engine returns. *)

Record PlayerStatRecord := {
  name : option string;
  team : option string;
  fg_pct : option R;
  fg3_pct : option R;
  ft_pct : option R;
  ast : option R;
  tov : option R;
  pts : option R
}.

Definition stats_frame (rows : list PlayerStatRecord) : DataFrame :=
  [("PLAYER_NAME", ObjCol (map name rows));
   ("TEAM_ABBREVIATION", ObjCol (map team rows));
   ("FG_PCT", FloatCol (map fg_pct rows));
   ("FG3_PCT", FloatCol (map fg3_pct rows));
   ("FT_PCT", FloatCol (map ft_pct rows));
   ("AST", FloatCol (map ast rows));
   ("TOV", FloatCol (map tov rows));
   ("PTS", FloatCol (map pts rows))].

(** All six statistics are there. *)
Definition complete (r : PlayerStatRecord) : Prop :=
  is_Some (pts r) /\ is_Some (fg_pct r) /\ is_Some (ft_pct r) /\
  is_Some (ast r) /\ is_Some (fg3_pct r) /\ is_Some (tov r).

Record ClutchResult := {
  c_name : option string;
  c_team : option string;
  clutch_score : option R;
  clutch_rank : option R
}.

Definition clutch_frame (rows : list ClutchResult) : DataFrame :=
  [("PLAYER_NAME", ObjCol (map c_name rows));
   ("TEAM_ABBREVIATION", ObjCol (map c_team rows));
   ("CLUTCH_SCORE", FloatCol (map clutch_score rows));
   ("CLUTCH_RANK", FloatCol (map clutch_rank rows))].

(** The same computation on values, without the store: each statement of
    [calcular_clutch_score] applied to the value of its operands. *)
Definition clutch_pipeline (df : DataFrame) : exn + DataFrame :=
  match df_getitem_list df (map fst weights) with
  | inl e => inl e
  | inr X =>
  match check_array X with
  | inl e => inl e
  | inr A =>
  match np_dot (transform A) (map snd weights) with
  | inl e => inl e
  | inr clutch_scores =>
  match df_getitem_list df ["PLAYER_NAME"; "TEAM_ABBREVIATION"] with
  | inl e => inl e
  | inr selected =>
  match df_setitem selected "CLUTCH_SCORE" (FloatCol clutch_scores) with
  | inl e => inl e
  | inr df_clutch1 =>
  match df_getitem df_clutch1 "CLUTCH_SCORE" with
  | inl e => inl e
  | inr score_col =>
  match series_rank_desc score_col with
  | inl e => inl e
  | inr ranks =>
  match df_setitem df_clutch1 "CLUTCH_RANK" ranks with
  | inl e => inl e
  | inr df_clutch2 => df_sort_values_desc df_clutch2 "CLUTCH_SCORE"
  end end end end end end end end.


(** ** The engine on a table of records

    What the statements of the engine compute when the frame is
    [stats_frame rows]: the scaled cell of a record in a column, its
    score, its rank, and the rows of the frame returned. *)

(** The six statistics as the array the scaler is given, column by column
    in the order of the keys of [weights]. *)
Definition stat_matrix (rows : list PlayerStatRecord) : Matrix :=
  [map pts rows; map fg_pct rows; map ft_pct rows; map ast rows;
   map fg3_pct rows; map tov rows].

Definition scaled_cell (col : PlayerStatRecord -> option R)
    (rows : list PlayerStatRecord) (r : PlayerStatRecord) : option R :=
  transform_cell (nanmean (map col rows)) (scale_of (map col rows)) (col r).

Definition score_of (rows : list PlayerStatRecord) (r : PlayerStatRecord)
  : option R :=
  dot [scaled_cell pts rows r; scaled_cell fg_pct rows r;
       scaled_cell ft_pct rows r; scaled_cell ast rows r;
       scaled_cell fg3_pct rows r; scaled_cell tov rows r]
      (map snd weights).

Definition scores (rows : list PlayerStatRecord) : Vector :=
  map (score_of rows) rows.

Definition rank_of (s : Vector) (c : option R) : option R :=
  match c with
  | None => None
  | Some x => Some (average_rank x (present s))
  end.

Definition scored (rows : list PlayerStatRecord) : list ClutchResult :=
  map (fun r => {| c_name := name r; c_team := team r;
                   clutch_score := score_of rows r;
                   clutch_rank := rank_of (scores rows) (score_of rows r) |})
      rows.

Definition no_result : ClutchResult :=
  {| c_name := None; c_team := None;
     clutch_score := None; clutch_rank := None |}.

Definition no_record : PlayerStatRecord :=
  {| name := None; team := None; fg_pct := None; fg3_pct := None;
     ft_pct := None; ast := None; tov := None; pts := None |}.

Definition ranked_table (rows : list PlayerStatRecord) : list ClutchResult :=
  map (fun i => nth i (scored rows) no_result) (nargsort_desc (scores rows)).

(** ** The score as the specification words it

    Mean and population standard deviation of a column, the standardized
    value [z = (value - mean) / std] with [z = 0] for a column whose
    standard deviation is zero, and the weighted sum of the six
    standardized statistics. *)

Definition column_mean (xs : list R) : R := Rsum xs / INR (length xs).

Definition column_std (xs : list R) : R :=
  sqrt (Rsum (map (fun x => (x - column_mean xs) ^ 2) xs) / INR (length xs)).

Definition zscore (xs : list R) (x : R) : R :=
  if decide (column_std xs = 0) then 0
  else (x - column_mean xs) / column_std xs.

Inductive stat := PTS | FG_PCT | FT_PCT | AST | FG3_PCT | TOV.

#[global] Instance stat_eq_dec : EqDecision stat.
Proof. solve_decision. Defined.

Definition all_stats : list stat := [PTS; FG_PCT; FT_PCT; AST; FG3_PCT; TOV].

Definition stat_cell (c : stat) : PlayerStatRecord -> option R :=
  match c with
  | PTS => pts | FG_PCT => fg_pct | FT_PCT => ft_pct
  | AST => ast | FG3_PCT => fg3_pct | TOV => tov
  end.

Definition stat_weight (c : stat) : R :=
  match c with
  | PTS => 0.35 | FG_PCT => 0.25 | FT_PCT => 0.15
  | AST => 0.15 | FG3_PCT => 0.10 | TOV => -0.25
  end.

(** The value of a cell that is not missing. *)
Definition val (o : option R) : R := default 0 o.

Definition stat_values (c : stat) (rows : list PlayerStatRecord) : list R :=
  map (fun r => val (stat_cell c r)) rows.

Definition z (c : stat) (rows : list PlayerStatRecord) (r : PlayerStatRecord)
  : R :=
  zscore (stat_values c rows) (val (stat_cell c r)).

Definition spec_score (rows : list PlayerStatRecord) (r : PlayerStatRecord)
  : R :=
  0.35 * z PTS rows r + 0.25 * z FG_PCT rows r + 0.15 * z FT_PCT rows r
  + 0.15 * z AST rows r + 0.10 * z FG3_PCT rows r - 0.25 * z TOV rows r.

(** The weighted sum without the column [c]. *)
Definition spec_score_without (c : stat) (rows : list PlayerStatRecord)
    (r : PlayerStatRecord) : R :=
  Rsum (map (fun c' => stat_weight c' * z c' rows r)
            (filter (fun c' => c' <> c) all_stats)).

(** Ordering of the keys in the insertion sort. *)
Definition le_key (a b : R * nat) : Prop := fst a <= fst b.

(** The sorted items of [nargsort_desc], in the order of its result. *)
Definition sorted_keys (items : Vector) : list (R * nat) :=
  rev (argsort (rev (omap non_nan_item (zip items (seq 0 (length items)))))).

(** ** Ranking schemes, as the specification words them *)

(** The scores of a table of results. *)
Definition table_scores (out : list ClutchResult) : list R :=
  present (map clutch_score out).

(** Standard competition ranking: the count of records with a strictly
    greater score, plus 1. *)
Definition competition_rank (out : list ClutchResult) (s : R) : R :=
  INR (count_greater s (table_scores out)) + 1.

Definition competition_ranked (out : list ClutchResult) : Prop :=
  Forall (fun o => exists s, clutch_score o = Some s /\
                             clutch_rank o = Some (competition_rank out s))
         out.

(** Average ranking: the records with a strictly greater score come first,
    and a group of [k] equal scores shares the mean of its [k] positions. *)
Definition tie_average_rank (out : list ClutchResult) (s : R) : R :=
  INR (count_greater s (table_scores out))
  + (INR (count_equal s (table_scores out)) + 1) / 2.

(** ** Tables used in the examples *)

Definition player (n t : string) (p fg ft a fg3 tv : R) : PlayerStatRecord :=
  {| name := Some n; team := Some t; fg_pct := Some fg; fg3_pct := Some fg3;
     ft_pct := Some ft; ast := Some a; tov := Some tv; pts := Some p |}.

(** Two players with the same statistics. *)
Definition tied_rows : list PlayerStatRecord :=
  [player "A" "LAL" 20 0.5 0.8 5 0.4 2; player "B" "BOS" 20 0.5 0.8 5 0.4 2].

(** A player without points and a complete one. *)
Definition rows_with_missing : list PlayerStatRecord :=
  [{| name := Some "A"; team := Some "LAL"; fg_pct := Some 0.5;
      fg3_pct := Some 0.4; ft_pct := Some 0.8; ast := Some 5;
      tov := Some 2; pts := None |};
   player "B" "BOS" 20 0.5 0.8 5 0.4 2].

(** What the engine returns for [tied_rows]. *)
Definition tied_result : list ClutchResult :=
  [{| c_name := Some "A"; c_team := Some "LAL";
      clutch_score := Some 0; clutch_rank := Some 1.5 |};
   {| c_name := Some "B"; c_team := Some "BOS";
      clutch_score := Some 0; clutch_rank := Some 1.5 |}].

(** What the engine returns for [rows_with_missing]. *)
Definition result_with_missing : list ClutchResult :=
  [{| c_name := Some "B"; c_team := Some "BOS";
      clutch_score := Some 0; clutch_rank := Some 1 |};
   {| c_name := Some "A"; c_team := Some "LAL";
      clutch_score := None; clutch_rank := None |}].

(** ** The fetcher on a table of records *)

Definition is_some {A} (o : option A) : bool :=
  match o with Some _ => true | None => false end.

(** No cell of the record is missing. *)
Definition all_present (r : PlayerStatRecord) : bool :=
  is_some (name r) && is_some (team r) && is_some (fg_pct r) &&
  is_some (fg3_pct r) && is_some (ft_pct r) && is_some (ast r) &&
  is_some (tov r) && is_some (pts r).

(** The team code of the record is one of those asked for. *)
Definition team_in (abreviaturas : list string) (r : PlayerStatRecord)
  : bool :=
  match team r with
  | Some t => existsb (String.eqb t) abreviaturas
  | None => false
  end.

(** A response of the statistics service: the eight columns the fetcher
    selects and one it does not. *)
Definition league_rows : list PlayerStatRecord :=
  [player "A" "LAL" 20 0.5 0.8 5 0.4 2;
   {| name := Some "C"; team := Some "LAL"; fg_pct := None;
      fg3_pct := Some 0.3; ft_pct := Some 0.7; ast := Some 2;
      tov := Some 1; pts := Some 10 |};
   player "D" "MIA" 15 0.4 0.9 3 0.3 1].

Definition league_response : DataFrame :=
  ("GP", FloatCol [Some 10; Some 9; Some 10]) :: stats_frame league_rows.

(** The three players of the specification's scenario. *)
Definition three_players : list PlayerStatRecord :=
  [player "A" "LAL" 30 0.50 0.80 5 0.35 3;
   player "B" "LAL" 20 0.45 0.90 8 0.40 1;
   player "C" "BOS" 10 0.40 0.70 2 0.30 5].

(** Three players with the same three-point percentage. *)
Definition same_fg3_rows : list PlayerStatRecord :=
  [player "A" "LAL" 30 0.50 0.80 5 0.40 3;
   player "B" "LAL" 20 0.45 0.90 8 0.40 1;
   player "C" "BOS" 10 0.40 0.70 2 0.40 5].

(** What the engine returns for [three_players]. *)
Definition three_players_result : list ClutchResult :=
  [{| c_name := Some "B"; c_team := Some "LAL";
      clutch_score := Some (0.65 * / sqrt (2 / 3)); clutch_rank := Some 1 |};
   {| c_name := Some "A"; c_team := Some "LAL";
      clutch_score := Some (0.60 * / sqrt (2 / 3)); clutch_rank := Some 2 |};
   {| c_name := Some "C"; c_team := Some "BOS";
      clutch_score := Some (-1.25 * / sqrt (2 / 3)); clutch_rank := Some 3 |}].

(** ** The scaler on binary64 numbers

    [StandardScaler().fit_transform] on one column without NaN, with the
    operations of IEEE 754 binary64 in the order the library performs
    them: the sums of [_incremental_mean_and_var] on its first call, the
    test of [_is_constant_feature], and [X -= mean_; X /= scale_]. *)

Module Float64.
Import PrimFloat.
#[local] Open Scope float_scope.

(** [np.sum] down a column: the cells are added one after the other (the
    order of numpy for fewer than eight rows). *)
Definition np_sum (v : list float) : float := fold_left add v 0.

Definition n_samples (v : list float) : float :=
  of_uint63 (Uint63.of_Z (Z.of_nat (length v))).

(** [mean_]: [(last_sum + new_sum) / updated_sample_count], with
    [last_sum = 0] on the first call. *)
Definition mean_ (v : list float) : float := (0 + np_sum v) / n_samples v.

(** [var_]: the sum of the squared deviations from [T = new_sum / n],
    corrected by the square of the sum of the deviations, over [n]. *)
Definition var_ (v : list float) : float :=
  let new_sum := np_sum v in
  let T := new_sum / n_samples v in
  let temp := map (fun x => x - T) v in
  let correction := np_sum temp in
  let new_unnormalized_variance :=
    np_sum (map (fun t => t * t) temp)
    - correction * correction / n_samples v in
  new_unnormalized_variance / n_samples v.

(** [np.finfo(np.float64).eps] *)
Definition eps : float := 0x1p-52.

(** A variance that rounding alone explains counts as zero. *)
Definition is_constant_feature (var mean n : float) : bool :=
  let upper_bound := n * eps * var + (n * mean * eps) * (n * mean * eps) in
  var <=? upper_bound.

(** [scale_]: the standard deviation, or 1 for a constant column. *)
Definition scale_ (v : list float) : float :=
  if is_constant_feature (var_ v) (mean_ v) (n_samples v) then 1
  else sqrt (var_ v).

Definition fit_transform (v : list float) : list float :=
  map (fun x => (x - mean_ v) / scale_ v) v.

(** The term of a scaled cell in the score: the cell times the weight. *)
Definition term (z weight : float) : float := z * weight.

(** The binary64 numbers nearest to 0.4 and to 0.10 (the weight of the
    three-point percentage), and [-2^-54], about [-5.55e-17]. *)
Definition x0_4 : float := 0x1.999999999999ap-2.
Definition w_fg3_pct : float := 0x1.999999999999ap-4.
Definition residue : float := -0x1p-54.

(** The three-point percentages of [same_fg3_rows]. *)
Definition same_fg3 : list float := [x0_4; x0_4; x0_4].

End Float64.

(** ** [obtener_partidos]

    The games of the day come from the scoreboard as the rows of
    ['GameHeader']; the static team table of [nba_api] is reached through
    [teams.find_team_name_by_id], which returns the team or [None]. *)

Record Game := {
  HOME_TEAM_ID : Z;
  VISITOR_TEAM_ID : Z;
  GAME_STATUS_TEXT : string
}.

Record Team := {
  nickname : string;
  abbreviation : string
}.

(** The value stored for a game. *)
Record Partido := {
  home_abbrev : string;
  away_abbrev : string;
  status : string
}.

(** A Python dict with string keys: the items in insertion order.  An
    assignment to a key that is there replaces its value where it stands;
    a new key goes last. *)
Fixpoint dict_set {V} (d : list (string * V)) (k : string) (v : V)
  : list (string * V) :=
  match d with
  | [] => [(k, v)]
  | (k', v') :: rest =>
      if String.eqb k' k then (k', v) :: rest
      else (k', v') :: dict_set rest k v
  end.

(** [d[k]], or [KeyError]. *)
Fixpoint dict_get {V} (d : list (string * V)) (k : string) : option V :=
  match d with
  | [] => None
  | (k', v) :: rest => if String.eqb k' k then Some v else dict_get rest k
  end.

Definition dict_keys {V} (d : list (string * V)) : list string := map fst d.

(** The messages a function shows on the page. *)
Inductive aviso :=
| StWarning (msg : string)
| StError (msg : string).

(** [team[field]] for what [find_team_name_by_id] returned: subscripting
    [None] raises [TypeError]. *)
Definition subscript (t : option Team) (field : Team -> string)
  : exn + string :=
  match t with
  | Some x => inr (field x)
  | None => inl (TypeError "'NoneType' object is not subscriptable")
  end.

Section Partidos.
Context (find_team_name_by_id : Z -> option Team).

(** The body of the [for] loop: the key and the value of one game. *)
Definition partido_de (game : Game) : exn + (string * Partido) :=
  match subscript (find_team_name_by_id (HOME_TEAM_ID game)) nickname with
  | inl e => inl e
  | inr home_team =>
  match subscript (find_team_name_by_id (VISITOR_TEAM_ID game)) nickname with
  | inl e => inl e
  | inr away_team =>
  let key := (home_team ++ " vs " ++ away_team)%string in
  match subscript (find_team_name_by_id (HOME_TEAM_ID game)) abbreviation with
  | inl e => inl e
  | inr h =>
  match subscript (find_team_name_by_id (VISITOR_TEAM_ID game)) abbreviation with
  | inl e => inl e
  | inr a =>
      inr (key, {| home_abbrev := h; away_abbrev := a;
                   status := GAME_STATUS_TEXT game |})
  end end end end.

(** The [for] loop over ['GameHeader']. *)
Fixpoint llenar_partidos (games : list Game) (partidos : list (string * Partido))
  : exn + list (string * Partido) :=
  match games with
  | [] => inr partidos
  | game :: rest =>
      match partido_de game with
      | inl e => inl e
      | inr (key, v) => llenar_partidos rest (dict_set partidos key v)
      end
  end.

(** The function, given what the scoreboard request produced: the rows of
    ['GameHeader'], or the exception raised.  It returns the dict and the
    messages it shows. *)
Definition obtener_partidos (response : exn + list Game)
  : list (string * Partido) * list aviso :=
  match response with
  | inl e => ([], [StError ("Error al obtener partidos: " ++ exn_str e)%string])
  | inr [] => ([], [StWarning "No hay partidos programados para hoy."])
  | inr games =>
      match llenar_partidos games [] with
      | inr partidos => (partidos, [])
      | inl e =>
          ([], [StError ("Error al obtener partidos: " ++ exn_str e)%string])
      end
  end.

End Partidos.

(** Both teams of the game are in the team table. *)
Definition conocido (find_team_name_by_id : Z -> option Team) (game : Game)
  : Prop :=
  is_Some (find_team_name_by_id (HOME_TEAM_ID game)) /\
  is_Some (find_team_name_by_id (VISITOR_TEAM_ID game)).

(** A team table with two teams, and a day with one game. *)
Definition dos_equipos (id : Z) : option Team :=
  if Z.eqb id 1 then Some {| nickname := "Lakers"; abbreviation := "LAL" |}
  else if Z.eqb id 2 then Some {| nickname := "Celtics"; abbreviation := "BOS" |}
  else None.

Definition un_partido : list Game :=
  [{| HOME_TEAM_ID := 1; VISITOR_TEAM_ID := 2;
      GAME_STATUS_TEXT := "7:30 pm ET" |}].

(** ** More of the engine's result *)

(** The ranks of a table of results. *)
Definition table_ranks (out : list ClutchResult) : list R :=
  present (map clutch_rank out).

(** The record [r] with the cell [x] for the statistic [c]. *)
Definition set_stat (c : stat) (x : option R) (r : PlayerStatRecord)
  : PlayerStatRecord :=
  {| name := name r; team := team r;
     fg_pct := match c with FG_PCT => x | _ => fg_pct r end;
     fg3_pct := match c with FG3_PCT => x | _ => fg3_pct r end;
     ft_pct := match c with FT_PCT => x | _ => ft_pct r end;
     ast := match c with AST => x | _ => ast r end;
     tov := match c with TOV => x | _ => tov r end;
     pts := match c with PTS => x | _ => pts r end |}.

(** The statistic [c] in another unit: [a * x + b] for [x]. *)
Definition rescale (c : stat) (a b : R) (r : PlayerStatRecord)
  : PlayerStatRecord :=
  set_stat c (option_map (fun x => a * x + b) (stat_cell c r)) r.

(** ** The page

    The statements of the script outside the three functions, run from top
    to bottom on each visit.  What the page depends on is gathered in an
    environment: what the two requests produce, the static team table, and
    what the select box returns.  The page is the sequence of the Streamlit
    calls made, each with the container it is made in; [st.stop()] and an
    exception that nothing catches end the run. *)

(** [df.empty]: no column, or no row. *)
Definition df_empty (df : DataFrame) : bool := Nat.eqb (nrows df) 0.

(** [df.head(n)]: the first [n] rows. *)
Definition head_col (n : nat) (c : column) : column :=
  match c with
  | FloatCol v => FloatCol (take n v)
  | ObjCol v => ObjCol (take n v)
  end.

Definition df_head (n : nat) (df : DataFrame) : DataFrame :=
  map (fun nc => (fst nc, head_col n (snd nc))) df.

(** [lambda x: 'color: green' if x == 1 else ''] *)
Definition color_del_rank (x : option R) : string :=
  match x with
  | Some r => if decide (r = 1) then "color: green" else ""
  | None => ""
  end.

(** The lambda applied to the cells of a column of a frame ([applymap]
    with [subset]). *)
Definition applymap_rank (df : DataFrame) (col : string) : list string :=
  match df_lookup df col with
  | Some (FloatCol v) => map color_del_rank v
  | _ => []
  end.

Inductive contenedor :=
| Sidebar
| Tab (i : nat)
| Columna (i : nat)
| Expander (label : string).

(** The figure of [px.bar], after [update_layout]. *)
Record BarFigure := {
  bar_data : DataFrame;
  bar_x : string;
  bar_y : string;
  bar_orientation : string;
  bar_color : string;
  bar_labels : list (string * string);
  bar_height : nat;
  bar_showlegend : bool
}.

(** A [Styler]: the frame, the number formats, the bars, and the CSS of
    the cells of the columns styled cell by cell. *)
Record Styler := {
  styler_data : DataFrame;
  styler_format : list (string * string);
  styler_bar : list (list string * string);
  styler_css : list (string * list string)
}.

(** The calls of the Streamlit API the script makes.  [st.columns] takes
    the number of columns or the list of their widths. *)
Inductive llamada :=
| set_page_config (page_title layout : string)
| title (body : string)
| markdown (body : string)
| warning (body : string)
| error (body : string)
| selectbox (label : string) (options : list string)
| stop
| tabs (labels : list string)
| columns (spec : nat + list nat)
| expander (label : string) (expanded : bool)
| plotly_chart (fig : BarFigure) (use_container_width : bool)
| dataframe (data : Styler) (height : nat)
            (use_container_width : option bool) (hide_index : bool)
| exception (e : exn).

Definition evento : Type := list contenedor * llamada.

Record Entorno := {
  scoreboard : exn + list Game;
  find_team : Z -> option Team;
  eleccion : string -> list string -> string;
  player_stats : exn + DataFrame
}.

Definition mostrar_avisos (donde : list contenedor) (avisos : list aviso)
  : list evento :=
  map (fun a => (donde, match a with
                        | StWarning m => warning m
                        | StError m => error m
                        end)) avisos.

Definition mostrar_errores (donde : list contenedor) (errores : list string)
  : list evento :=
  map (fun m => (donde, error m)) errores.

(** Lines 61 to 63. *)
Definition cabecera : list evento :=
  [([], set_page_config "NBA Clutch Predictor" "wide");
   ([], title "🏀 NBA Clutch Player Predictor");
   ([], markdown "### 🔥 Descubre quién brilla en los momentos decisivos")].

(** What the first tab shows before the engine is called, lines 83 to
    86. *)
Definition eventos_antes_del_clutch : list evento :=
  [([Tab 0], columns (inr [2; 1]%nat));
   ([Tab 0; Columna 0], markdown "### 🏅 Top 5 Jugadores Clutch")].

(** What the first tab shows once the engine has returned, lines 88 to
    124. *)
Definition eventos_del_clutch (jugadores top_players : DataFrame)
  : list evento :=
  [([Tab 0; Columna 0],
    plotly_chart
      {| bar_data := top_players;
         bar_x := "CLUTCH_SCORE"; bar_y := "PLAYER_NAME";
         bar_orientation := "h"; bar_color := "CLUTCH_SCORE";
         bar_labels := [("CLUTCH_SCORE", "Puntuación Clutch");
                        ("PLAYER_NAME", "Jugador")];
         bar_height := 400; bar_showlegend := false |}
      true);
   ([Tab 0; Columna 1], markdown "### 📊 Ranking Clutch");
   ([Tab 0; Columna 1],
    dataframe
      {| styler_data := top_players;
         styler_format := [("CLUTCH_SCORE", "{:.2f}")];
         styler_bar := [(["CLUTCH_SCORE"], "#FF4B4B")];
         styler_css :=
           [("CLUTCH_RANK", applymap_rank top_players "CLUTCH_RANK")] |}
      (35 + 35 * nrows top_players) None true);
   ([Tab 0], markdown "---");
   ([Tab 0], markdown "### 📋 Estadísticas Detalladas");
   ([Tab 0],
    dataframe
      {| styler_data := jugadores;
         styler_format := [("FG_PCT", "{:.1%}"); ("FG3_PCT", "{:.1%}");
                           ("FT_PCT", "{:.1%}"); ("PTS", "{:.1f}")];
         styler_bar := [];
         styler_css := [] |}
      (35 + 35 * nrows jugadores) (Some true) true)].

(** The first tab, lines 78 to 124: the events, and the exception that ends
    the run, if any. *)
Definition analisis_del_partido (env : Entorno)
    (partidos : list (string * Partido)) (abreviaturas : list string)
  : list evento * option exn :=
  match partidos with
  | [] => ([], None)
  | _ =>
  let '(jugadores, errores) :=
    obtener_datos_jugadores (player_stats env) abreviaturas in
  if df_empty jugadores then (mostrar_errores [Tab 0] errores, None)
  else
    match calcular_clutch_score_on jugadores with
    | inl e =>
        (mostrar_errores [Tab 0] errores ++ eventos_antes_del_clutch, Some e)
    | inr df_clutch =>
        let top_players := df_head 5 df_clutch in
        (mostrar_errores [Tab 0] errores ++ eventos_antes_del_clutch
         ++ eventos_del_clutch jugadores top_players,
         None)
    end
  end.

(** The second tab, lines 125 to 149. *)
Definition informacion_tecnica : list evento :=
  [([Tab 1], columns (inl 2%nat));
   ([Tab 1; Columna 0], expander "📖 Métrica Clutch" true);
   ([Tab 1; Columna 0; Expander "📖 Métrica Clutch"], markdown "
            **Fórmula del Clutch Score:**
            - 35% Puntos por partido (PTS)
            - 25% Eficacia en tiros de campo (FG%)
            - 15% Eficacia en tiros libres (FT%)
            - 15% Asistencias (AST)
            - 10% Eficacia en triples (3P%)
            - 25% Penalización por pérdidas (TOV)
            ");
   ([Tab 1; Columna 1], expander "📚 Glosario Técnico" true);
   ([Tab 1; Columna 1; Expander "📚 Glosario Técnico"], markdown "
            - **PTS**: Puntos por partido
            - **FG%**: Porcentaje de tiros de campo
            - **3P%**: Porcentaje de triples
            - **FT%**: Porcentaje de tiros libres
            - **AST**: Asistencias
            - **TOV**: Pérdidas de balón
            ")].

(** The script. *)
Definition script (env : Entorno) : list evento :=
  cabecera ++
  let '(partidos, avisos) :=
    obtener_partidos (find_team env) (scoreboard env) in
  mostrar_avisos [Sidebar] avisos ++
  match partidos with
  | [] => [([Sidebar], stop)]
  | _ =>
      let opciones := dict_keys partidos in
      let partido_seleccionado := eleccion env "Selecciona un partido:" opciones in
      ([Sidebar], selectbox "Selecciona un partido:" opciones) ::
      match dict_get partidos partido_seleccionado with
      | None => [([Sidebar], exception (KeyError partido_seleccionado))]
      | Some info =>
          let abreviaturas := [home_abbrev info; away_abbrev info] in
          ([], tabs ["📈 Análisis del Partido"; "📚 Información Técnica"]) ::
          match analisis_del_partido env partidos abreviaturas with
          | (eventos, Some e) => eventos ++ [([Tab 0; Columna 0], exception e)]
          | (eventos, None) =>
              eventos ++ informacion_tecnica ++
              match partidos with
              | [] => [([], error "No hay partidos programados para hoy")]
              | _ => []
              end
          end
      end
  end.

(** No event of a list is the error of the last line of the script. *)
Definition sin_error_final (eventos : list evento) : Prop :=
  Forall (fun ev => snd ev <> error "No hay partidos programados para hoy")
         eventos.

(** A visit on a day with one game, with the statistics of three players:
    the select box returns its first option. *)
Definition primera_opcion (label : string) (opciones : list string) : string :=
  match opciones with
  | o :: _ => o
  | [] => ""
  end.

Definition una_visita : Entorno :=
  {| scoreboard := inr un_partido;
     find_team := dos_equipos;
     eleccion := primera_opcion;
     player_stats := inr (stats_frame three_players) |}.

(** * The program in the store *)

Section StoreRules.
Context (s : store).

Lemma bind_run {A B} (m : M A) (k : A -> M B) :
  bind m k s =
  match m s with
  | (inr a, s') => k a s'
  | (inl e, s') => (inl e, s')
  end.
Proof. reflexivity. Qed.

Lemma load_frame_run r d :
  s !! r = Some (ODataFrame d) -> load_frame r s = (inr d, s).
Proof. intros H. unfold load_frame, bind, load. rewrite H. reflexivity. Qed.

Lemma load_array2_run r A :
  s !! r = Some (ONdarray2 A) -> load_array2 r s = (inr A, s).
Proof. intros H. unfold load_array2, bind, load. rewrite H. reflexivity. Qed.

Lemma load_values_array_run r v :
  s !! r = Some (ONdarray1 v) -> load_values r s = (inr (FloatCol v), s).
Proof. intros H. unfold load_values, bind, load. rewrite H. reflexivity. Qed.

Lemma load_values_series_run r c :
  s !! r = Some (OSeries c) -> load_values r s = (inr c, s).
Proof. intros H. unfold load_values, bind, load. rewrite H. reflexivity. Qed.

Lemma DataFrame_getitem_list_run r d names :
  s !! r = Some (ODataFrame d) ->
  DataFrame_getitem_list r names s =
  match df_getitem_list d names with
  | inl e => (inl e, s)
  | inr d' => (inr (length s), s ++ [ODataFrame d'])
  end.
Proof.
  intros H. unfold DataFrame_getitem_list.
  rewrite bind_run, (load_frame_run _ _ H).
  unfold bind, lift. destruct (df_getitem_list d names); reflexivity.
Qed.

Lemma DataFrame_getitem_run r d name_ :
  s !! r = Some (ODataFrame d) ->
  DataFrame_getitem r name_ s =
  match df_getitem d name_ with
  | inl e => (inl e, s)
  | inr c => (inr (length s), s ++ [OSeries c])
  end.
Proof.
  intros H. unfold DataFrame_getitem.
  rewrite bind_run, (load_frame_run _ _ H).
  unfold bind, lift. destruct (df_getitem d name_); reflexivity.
Qed.

Lemma DataFrame_copy_run r d :
  s !! r = Some (ODataFrame d) ->
  DataFrame_copy r s = (inr (length s), s ++ [ODataFrame d]).
Proof.
  intros H. unfold DataFrame_copy.
  rewrite bind_run, (load_frame_run _ _ H). reflexivity.
Qed.

Lemma DataFrame_reset_index_run r d :
  s !! r = Some (ODataFrame d) ->
  DataFrame_reset_index r s = (inr (length s), s ++ [ODataFrame d]).
Proof.
  intros H. unfold DataFrame_reset_index.
  rewrite bind_run, (load_frame_run _ _ H). reflexivity.
Qed.

Lemma DataFrame_sort_values_desc_run r d by_ :
  s !! r = Some (ODataFrame d) ->
  DataFrame_sort_values_desc r by_ s =
  match df_sort_values_desc d by_ with
  | inl e => (inl e, s)
  | inr d' => (inr (length s), s ++ [ODataFrame d'])
  end.
Proof.
  intros H. unfold DataFrame_sort_values_desc.
  rewrite bind_run, (load_frame_run _ _ H).
  unfold bind, lift. destruct (df_sort_values_desc d by_); reflexivity.
Qed.

Lemma StandardScaler_fit_transform_run scaler r d :
  s !! r = Some (ODataFrame d) ->
  StandardScaler_fit_transform scaler r s =
  match check_array d with
  | inl e => (inl e, s)
  | inr A => (inr (length s),
              (<[scaler := OScaler (Some (fit A))]> s) ++ [ONdarray2 (transform A)])
  end.
Proof.
  intros H. unfold StandardScaler_fit_transform.
  rewrite bind_run, (load_frame_run _ _ H).
  unfold bind, lift, update, alloc. destruct (check_array d); [reflexivity|].
  rewrite length_insert. reflexivity.
Qed.

Lemma numpy_dot_run r A w :
  s !! r = Some (ONdarray2 A) ->
  numpy_dot r w s =
  match np_dot A w with
  | inl e => (inl e, s)
  | inr v => (inr (length s), s ++ [ONdarray1 v])
  end.
Proof.
  intros H. unfold numpy_dot.
  rewrite bind_run, (load_array2_run _ _ H).
  unfold bind, lift. destruct (np_dot A w); reflexivity.
Qed.

Lemma DataFrame_setitem_run r d name_ vr c :
  s !! r = Some (ODataFrame d) ->
  load_values vr s = (inr c, s) ->
  DataFrame_setitem r name_ vr s =
  match df_setitem d name_ c with
  | inl e => (inl e, s)
  | inr d' => (inr tt, <[r := ODataFrame d']> s)
  end.
Proof.
  intros H Hv. unfold DataFrame_setitem.
  rewrite bind_run, (load_frame_run _ _ H).
  rewrite bind_run, Hv.
  unfold bind, lift, update. destruct (df_setitem d name_ c); reflexivity.
Qed.

Lemma Series_rank_desc_run r c :
  load_values r s = (inr c, s) ->
  Series_rank_desc r s =
  match series_rank_desc c with
  | inl e => (inl e, s)
  | inr rk => (inr (length s), s ++ [OSeries rk])
  end.
Proof.
  intros Hv. unfold Series_rank_desc.
  rewrite bind_run, Hv.
  unfold bind, lift. destruct (series_rank_desc c); reflexivity.
Qed.
End StoreRules.

(** Stores that extend a given store [s]: references [length s + k]. *)

Lemma lookup_ext (s : store) L k : (s ++ L) !! (length s + k)%nat = L !! k.
Proof. rewrite lookup_app_r by lia. f_equal. lia. Qed.

Lemma lookup_ext0 (s : store) L : (s ++ L) !! (length s) = L !! 0%nat.
Proof. rewrite <- (lookup_ext s L 0). f_equal. lia. Qed.

Lemma lookup_base (s : store) L r o : s !! r = Some o -> (s ++ L) !! r = Some o.
Proof. apply lookup_app_l_Some. Qed.

Lemma insert_ext (s : store) L k o :
  <[(length s + k)%nat := o]> (s ++ L) = s ++ <[k := o]> L.
Proof. apply insert_app_r. Qed.

Lemma insert_ext0 (s : store) L o :
  <[length s := o]> (s ++ L) = s ++ <[0%nat := o]> L.
Proof. rewrite <- (insert_ext s L 0). f_equal. lia. Qed.

Ltac store_norm :=
  repeat first [ rewrite insert_ext | rewrite insert_ext0
               | rewrite length_insert | rewrite length_app
               | rewrite <- app_assoc ];
  cbn [app length insert list_insert].

Ltac lk :=
  first [ eassumption
        | apply lookup_base; eassumption
        | rewrite lookup_ext; reflexivity
        | rewrite lookup_ext0; reflexivity ].

Ltac stop_here :=
  do 2 eexists; split; [reflexivity | reflexivity].

Lemma calcular_clutch_score_run (s : store) r d :
  s !! r = Some (ODataFrame d) ->
  exists ext res, calcular_clutch_score r s = (res, s ++ ext) /\
                  outcome (res, s ++ ext) = clutch_pipeline d.
Proof.
  intros H. unfold calcular_clutch_score, clutch_pipeline.
  rewrite bind_run. unfold StandardScaler_new, alloc.
  rewrite bind_run, (DataFrame_getitem_list_run _ r d) by lk.
  destruct (df_getitem_list d (map fst weights)) as [e|X]; [stop_here|].
  store_norm.
  rewrite bind_run, (StandardScaler_fit_transform_run _ _ _ X) by lk.
  destruct (check_array X) as [e|A]; [stop_here|].
  store_norm.
  rewrite bind_run, (numpy_dot_run _ _ (transform A)) by lk.
  destruct (np_dot (transform A) (map snd weights)) as [e|scores]; [stop_here|].
  store_norm.
  rewrite bind_run, (DataFrame_getitem_list_run _ r d) by lk.
  destruct (df_getitem_list d _) as [e|sel]; [stop_here|].
  store_norm.
  rewrite bind_run, (DataFrame_copy_run _ _ sel) by lk.
  store_norm.
  rewrite bind_run, (DataFrame_setitem_run _ _ sel _ _ (FloatCol scores));
    [|lk|apply load_values_array_run; lk].
  destruct (df_setitem sel _ _) as [e|d1]; [stop_here|].
  store_norm.
  rewrite bind_run, (DataFrame_getitem_run _ _ d1) by lk.
  destruct (df_getitem d1 _) as [e|sc]; [stop_here|].
  store_norm.
  rewrite bind_run, (Series_rank_desc_run _ _ sc) by (apply load_values_series_run; lk).
  destruct (series_rank_desc sc) as [e|rk]; [stop_here|].
  store_norm.
  rewrite bind_run, (DataFrame_setitem_run _ _ d1 _ _ rk);
    [|lk|apply load_values_series_run; lk].
  destruct (df_setitem d1 _ _) as [e|d2]; [stop_here|].
  store_norm.
  rewrite bind_run, (DataFrame_sort_values_desc_run _ _ d2) by lk.
  destruct (df_sort_values_desc d2 _) as [e|d3]; [stop_here|].
  store_norm.
  rewrite (DataFrame_reset_index_run _ _ d3) by lk.
  store_norm.
  do 2 eexists; split; [reflexivity|].
  unfold outcome. rewrite lookup_ext. reflexivity.
Qed.

(** * The engine on a table of records *)

Lemma map_nth_seq {A B} (G : A -> B) (d : A) (l : list A) :
  map (fun i => G (nth i l d)) (seq 0 (length l)) = map G l.
Proof.
  induction l as [|a l IH]; [reflexivity|].
  cbn [length seq map nth]. f_equal.
  rewrite <- seq_shift, map_map. exact IH.
Qed.

Lemma nth_scaled (col : PlayerStatRecord -> option R) rows i :
  col no_record = None ->
  nth i (scale_column (map col rows)) None
  = scaled_cell col rows (nth i rows no_record).
Proof.
  intros Hd. unfold scale_column, scaled_cell. rewrite map_map.
  set (f := fun x => transform_cell _ _ (col x)).
  change (transform_cell _ _ (col (nth i rows no_record)))
    with (f (nth i rows no_record)).
  rewrite <- (map_nth f). f_equal.
  unfold f. rewrite Hd. reflexivity.
Qed.

Lemma getitem_stats rows :
  df_getitem_list (stats_frame rows) (map fst weights)
  = inr [("PTS", FloatCol (map pts rows)); ("FG_PCT", FloatCol (map fg_pct rows));
         ("FT_PCT", FloatCol (map ft_pct rows)); ("AST", FloatCol (map ast rows));
         ("FG3_PCT", FloatCol (map fg3_pct rows)); ("TOV", FloatCol (map tov rows))].
Proof. reflexivity. Qed.

Lemma check_array_stats rows X :
  df_getitem_list (stats_frame rows) (map fst weights) = inr X ->
  check_array X =
  match rows with
  | [] => inl (ValueError "Found array with 0 sample(s) while a minimum of 1 is required by StandardScaler")
  | _ => inr (stat_matrix rows)
  end.
Proof.
  rewrite getitem_stats. intros [= <-].
  destruct rows; reflexivity.
Qed.

Lemma np_dot_stats rows :
  np_dot (transform (stat_matrix rows)) (map snd weights) = inr (scores rows).
Proof.
  unfold np_dot. 
  replace (length (transform (stat_matrix rows)) =? length (map snd weights))%nat with true by reflexivity.
  f_equal. 
  replace (n_samples (transform (stat_matrix rows))) with (length rows)
    by (cbn [n_samples transform stat_matrix map]; unfold scale_column;
        rewrite !length_map; reflexivity).
  unfold scores. rewrite <- (map_nth_seq (score_of rows) no_record).
  apply map_ext. intros i.
  unfold score_of. cbn [row transform stat_matrix map].
  rewrite !nth_scaled by reflexivity. reflexivity.
Qed.

Lemma rank_desc_scores rows :
  rank_desc (scores rows) = map (fun r => rank_of (scores rows) (score_of rows r)) rows.
Proof. unfold rank_desc, scores at 2. rewrite map_map. reflexivity. Qed.

Lemma nth_scored_name rows i :
  nth i (map name rows) None = c_name (nth i (scored rows) no_result).
Proof.
  change None with (c_name no_result) at 1.
  rewrite <- (map_nth c_name). unfold scored. rewrite map_map. reflexivity.
Qed.

Lemma nth_scored_team rows i :
  nth i (map team rows) None = c_team (nth i (scored rows) no_result).
Proof.
  change None with (c_team no_result) at 1.
  rewrite <- (map_nth c_team). unfold scored. rewrite map_map. reflexivity.
Qed.

Lemma nth_scored_score rows i :
  nth i (scores rows) None = clutch_score (nth i (scored rows) no_result).
Proof.
  change None with (clutch_score no_result) at 1.
  rewrite <- (map_nth clutch_score). unfold scored. rewrite map_map. reflexivity.
Qed.

Lemma nth_scored_rank rows i :
  nth i (rank_desc (scores rows)) None = clutch_rank (nth i (scored rows) no_result).
Proof.
  change None with (clutch_rank no_result) at 1.
  rewrite <- (map_nth clutch_rank). unfold scored. rewrite map_map.
  rewrite rank_desc_scores. reflexivity.
Qed.

Lemma df_setitem_new (df : DataFrame) name_ c :
  df <> [] -> col_length c = nrows df -> df_lookup df name_ = None ->
  df_setitem df name_ c = inr (df ++ [(name_, c)]).
Proof.
  intros Hne Hlen Hnew. unfold df_setitem.
  destruct df as [|nc df]; [congruence|].
  rewrite Hlen, Nat.eqb_refl, Hnew. reflexivity.
Qed.

Lemma length_scores rows : length (scores rows) = length rows.
Proof. apply length_map. Qed.

Lemma length_rank_desc v : length (rank_desc v) = length v.
Proof. apply length_map. Qed.

Lemma pipeline_stats_frame rows :
  clutch_pipeline (stats_frame rows) =
  match rows with
  | [] => inl (ValueError "Found array with 0 sample(s) while a minimum of 1 is required by StandardScaler")
  | _ => inr (clutch_frame (ranked_table rows))
  end.
Proof.
  unfold clutch_pipeline.
  rewrite getitem_stats, (check_array_stats rows _ (getitem_stats rows)).
  destruct rows as [|r0 rows']; [reflexivity|].
  set (rows := r0 :: rows').
  rewrite np_dot_stats.
  replace (df_getitem_list (stats_frame rows) ["PLAYER_NAME"; "TEAM_ABBREVIATION"])
    with (inr (B:=DataFrame) (A:=exn) [("PLAYER_NAME", ObjCol (map name rows));
               ("TEAM_ABBREVIATION", ObjCol (map team rows))]) by reflexivity.
  rewrite df_setitem_new;
    [|discriminate
     |cbn [col_length nrows]; rewrite length_scores, length_map; reflexivity
     |reflexivity].
  cbn [app].
  replace (df_getitem _ "CLUTCH_SCORE")
    with (inr (A:=exn) (FloatCol (scores rows))) by reflexivity.
  cbn [series_rank_desc].
  rewrite df_setitem_new;
    [|discriminate
     |cbn [col_length nrows];
      rewrite length_rank_desc, length_scores, length_map; reflexivity
     |reflexivity].
  cbn [app].
  replace (df_sort_values_desc _ "CLUTCH_SCORE")
    with (inr (A:=exn)
            (df_take (nargsort_desc (scores rows))
               [("PLAYER_NAME", ObjCol (map name rows));
                ("TEAM_ABBREVIATION", ObjCol (map team rows));
                ("CLUTCH_SCORE", FloatCol (scores rows));
                ("CLUTCH_RANK", FloatCol (rank_desc (scores rows)))]))
    by reflexivity.
  f_equal. unfold df_take, clutch_frame, ranked_table.
  cbn [map fst snd take_col].
  rewrite !map_map.
  rewrite (map_ext _ _ (nth_scored_name rows)),
          (map_ext _ _ (nth_scored_team rows)),
          (map_ext _ _ (nth_scored_score rows)),
          (map_ext _ _ (nth_scored_rank rows)).
  reflexivity.
Qed.

Lemma calcular_clutch_score_on_pipeline d :
  calcular_clutch_score_on d = clutch_pipeline d.
Proof.
  unfold calcular_clutch_score_on.
  destruct (calcular_clutch_score_run [ODataFrame d] 0%nat d eq_refl)
    as (ext & res & Hrun & Hout).
  rewrite Hrun. exact Hout.
Qed.

(** In any store, a run on a reference to the table [d] ends as the run
    in the store that holds [d] only. *)
Lemma calcular_clutch_score_any_store (s : store) r d :
  s !! r = Some (ODataFrame d) ->
  outcome (calcular_clutch_score r s) = calcular_clutch_score_on d.
Proof.
  intros H. rewrite calcular_clutch_score_on_pipeline.
  destruct (calcular_clutch_score_run s r d H) as (ext & res & Hrun & Hout).
  rewrite Hrun. exact Hout.
Qed.

Lemma calcular_on_table rows :
  rows <> [] ->
  calcular_clutch_score_on (stats_frame rows)
  = inr (clutch_frame (ranked_table rows)).
Proof.
  intros Hne. rewrite calcular_clutch_score_on_pipeline, pipeline_stats_frame.
  destruct rows; [congruence | reflexivity].
Qed.

(** * Sorting *)

Lemma insert_asc_perm a l : Permutation (insert_asc a l) (a :: l).
Proof.
  induction l as [|b l IH]; cbn [insert_asc]; [reflexivity|].
  destruct (decide (fst a <= fst b)); [reflexivity|].
  rewrite IH. apply perm_swap.
Qed.

Lemma argsort_perm l : Permutation (argsort l) l.
Proof.
  induction l as [|a l IH]; cbn [argsort fold_right]; [reflexivity|].
  fold (argsort l). rewrite insert_asc_perm, IH. reflexivity.
Qed.

Lemma insert_asc_sorted a l :
  StronglySorted le_key l -> StronglySorted le_key (insert_asc a l).
Proof.
  induction 1 as [|b l Hs IH Hb]; cbn [insert_asc].
  - repeat constructor.
  - destruct (decide (fst a <= fst b)) as [Hle|Hgt].
    + constructor; [constructor; assumption|].
      constructor; [exact Hle|].
      eapply Forall_impl; [exact Hb|].
      intros c Hc. unfold le_key in *. lra.
    + constructor; [exact IH|].
      rewrite (insert_asc_perm a l). constructor; [|exact Hb].
      unfold le_key. lra.
Qed.

Lemma argsort_sorted l : StronglySorted le_key (argsort l).
Proof.
  induction l as [|a l IH]; cbn [argsort fold_right]; [constructor|].
  apply insert_asc_sorted, IH.
Qed.

Lemma StronglySorted_rev {A} (R : A -> A -> Prop) l :
  StronglySorted R l -> StronglySorted (fun x y => R y x) (rev l).
Proof.
  induction 1 as [|a l Hs IH Ha]; cbn [rev]; [constructor|].
  apply StronglySorted_app_2; [|exact IH|repeat constructor].
  intros x1 x2 Hx1 Hx2. apply list_elem_of_singleton in Hx2 as ->.
  apply list_elem_of_In, in_rev in Hx1.
  rewrite Forall_forall in Ha. apply Ha, list_elem_of_In, Hx1.
Qed.

Lemma StronglySorted_lookup {A} (R : A -> A -> Prop) l i j x y :
  StronglySorted R l -> l !! i = Some x -> l !! j = Some y ->
  (i < j)%nat -> R x y.
Proof.
  intros Hs. revert i j. induction Hs as [|a l Hs IH Ha]; intros i j Hi Hj Hlt.
  - discriminate.
  - destruct j as [|j]; [lia|]. destruct i as [|i].
    + cbn in Hi, Hj. injection Hi as <-.
      rewrite Forall_forall in Ha. apply Ha.
      apply list_elem_of_lookup. eauto.
    + cbn in Hi, Hj. apply (IH i j); [assumption..|lia].
Qed.

(** * [nargsort_desc] *)

Lemma snd_zip_seq {A} (l : list A) k :
  map snd (zip l (seq k (length l))) = seq k (length l).
Proof.
  revert k. induction l as [|a l IH]; intros k; [reflexivity|].
  cbn. f_equal. apply IH.
Qed.

Lemma elem_of_zip_seq {A} (l : list A) k x i :
  (x, i) ∈ zip l (seq k (length l)) -> (k <= i)%nat /\ l !! (i - k)%nat = Some x.
Proof.
  revert k. induction l as [|a l IH]; intros k Hin; cbn in Hin.
  - apply elem_of_nil in Hin as [].
  - apply elem_of_cons in Hin as [[= -> ->]|Hin].
    + split; [lia|]. rewrite Nat.sub_diag. reflexivity.
    + apply IH in Hin as [Hle Hl]. split; [lia|].
      replace (i - k)%nat with (S (i - S k)) by lia. exact Hl.
Qed.

Lemma partition_items (l : list (option R * nat)) :
  Permutation (map snd (omap non_nan_item l) ++ omap nan_item l) (map snd l).
Proof.
  induction l as [|[[x|] i] l IH]; cbn; [reflexivity| |].
  - constructor. exact IH.
  - rewrite <- Permutation_middle. constructor. exact IH.
Qed.

Lemma nargsort_desc_perm items :
  Permutation (nargsort_desc items) (seq 0 (length items)).
Proof.
  unfold nargsort_desc.
  rewrite <- Permutation_rev, argsort_perm, <- Permutation_rev.
  rewrite partition_items. rewrite snd_zip_seq. reflexivity.
Qed.

Lemma non_nan_lookup items x i :
  (x, i) ∈ omap non_nan_item (zip items (seq 0 (length items))) ->
  nth i items None = Some x.
Proof.
  intros Hin. apply list_elem_of_omap in Hin as ([o j] & Hin & Hs).
  apply elem_of_zip_seq in Hin as [_ Hl]. rewrite Nat.sub_0_r in Hl.
  unfold non_nan_item in Hs. cbn in Hs. destruct o as [y|]; [|discriminate].
  injection Hs as -> ->. rewrite nth_lookup, Hl. reflexivity.
Qed.

Lemma no_nan_items (items : Vector) k n :
  Forall is_Some items -> omap nan_item (zip items (seq k n)) = [].
Proof.
  intros Hall. revert k n. induction Hall as [|o items [x ->] _ IH];
    intros k n; [reflexivity|].
  destruct n as [|n]; [reflexivity|]. cbn. apply IH.
Qed.

Lemma sorted_keys_desc items :
  StronglySorted (fun a b => fst b <= fst a) (sorted_keys items).
Proof. apply (StronglySorted_rev le_key), argsort_sorted. Qed.

Lemma nargsort_desc_keys items :
  Forall is_Some items ->
  map (fun i => nth i items None) (nargsort_desc items)
  = map (fun p => Some (fst p)) (sorted_keys items).
Proof.
  intros Hall. unfold nargsort_desc, sorted_keys.
  rewrite (no_nan_items _ _ _ Hall), app_nil_r.
  rewrite <- map_rev, map_map.
  apply map_ext_in. intros [x i] Hin. cbn.
  apply non_nan_lookup. apply list_elem_of_In.
  apply in_rev in Hin.
  apply (Permutation_in _ (argsort_perm _)) in Hin.
  apply in_rev in Hin. exact Hin.
Qed.

(** * Ranks *)

Lemma Rsum_app l1 l2 : Rsum (l1 ++ l2) = Rsum l1 + Rsum l2.
Proof.
  unfold Rsum. induction l1 as [|a l1 IH]; simpl; [lra|].
  rewrite IH. lra.
Qed.

Lemma sum_positions g k :
  Rsum (map (fun i => INR (g + i)) (seq 1 k))
  = INR k * INR g + INR k * (INR k + 1) / 2.
Proof.
  induction k as [|k IH].
  - cbn. lra.
  - rewrite seq_S, map_app, Rsum_app, IH. cbn [map Rsum fold_right].
    rewrite plus_INR, !S_INR. lra.
Qed.

Lemma average_rank_closed x vals :
  (0 < count_equal x vals)%nat ->
  average_rank x vals
  = INR (count_greater x vals) + (INR (count_equal x vals) + 1) / 2.
Proof.
  intros Hk. unfold average_rank. rewrite sum_positions.
  apply lt_INR in Hk. cbn [INR] in Hk. field. lra.
Qed.

Lemma count_equal_pos x vals : x ∈ vals -> (0 < count_equal x vals)%nat.
Proof.
  unfold count_equal. induction 1 as [x l|x y l _ IH].
  - rewrite filter_cons_True by reflexivity. cbn. lia.
  - rewrite filter_cons. destruct (decide (y = x)); cbn; lia.
Qed.

Lemma count_greater_lt x y vals :
  y < x ->
  (count_greater x vals + count_equal x vals <= count_greater y vals)%nat.
Proof.
  intros Hlt. unfold count_greater, count_equal.
  induction vals as [|z l IH]; [cbn; lia|].
  rewrite !filter_cons.
  destruct (decide (x < z)), (decide (z = x)), (decide (y < z));
    cbn [length]; try lia; lra.
Qed.

Lemma average_rank_lt x y vals :
  x ∈ vals -> y ∈ vals -> y < x ->
  average_rank x vals < average_rank y vals.
Proof.
  intros Hx Hy Hlt.
  rewrite !average_rank_closed by (apply count_equal_pos; assumption).
  pose proof (count_greater_lt x y vals Hlt) as Hc.
  apply le_INR in Hc. rewrite plus_INR in Hc.
  pose proof (count_equal_pos x vals Hx) as Hkx. apply lt_INR in Hkx.
  pose proof (count_equal_pos y vals Hy) as Hky. apply lt_INR in Hky.
  cbn [INR] in Hkx, Hky. lra.
Qed.

Lemma average_rank_le x y vals :
  x ∈ vals -> y ∈ vals -> y <= x ->
  average_rank x vals <= average_rank y vals.
Proof.
  intros Hx Hy [Hlt| ->]; [|lra].
  left. apply average_rank_lt; assumption.
Qed.

Lemma average_rank_perm x vals vals' :
  Permutation vals vals' -> average_rank x vals = average_rank x vals'.
Proof.
  intros Hp.
  assert (count_greater x vals = count_greater x vals') as Hg
    by (unfold count_greater; rewrite Hp; reflexivity).
  assert (count_equal x vals = count_equal x vals') as Hk
    by (unfold count_equal; rewrite Hp; reflexivity).
  unfold average_rank. rewrite Hg, Hk. reflexivity.
Qed.

(** * The scaler on columns without missing values *)

Section Column.
Context (col : PlayerStatRecord -> option R).

Lemma present_column rows :
  Forall (fun r => is_Some (col r)) rows ->
  present (map col rows) = map (fun r => val (col r)) rows.
Proof.
  unfold present. induction 1 as [|r l [x Hx] _ IH]; [reflexivity|].
  cbn. rewrite Hx. cbn. f_equal. exact IH.
Qed.

Context (rows : list PlayerStatRecord).
Hypothesis col_present : Forall (fun r => is_Some (col r)) rows.

Lemma nanmean_column :
  nanmean (map col rows) = column_mean (map (fun r => val (col r)) rows).
Proof. unfold nanmean. rewrite present_column by assumption. reflexivity. Qed.

Lemma nanvar_column :
  sqrt (nanvar (map col rows))
  = column_std (map (fun r => val (col r)) rows).
Proof.
  unfold nanvar, column_std.
  rewrite nanmean_column, present_column by assumption.
  do 3 f_equal. apply map_ext. intros x. ring.
Qed.
End Column.

Lemma Rsum_squares_nonneg (m : R) xs :
  0 <= Rsum (map (fun x => (x - m) ^ 2) xs).
Proof.
  induction xs as [|x xs IH]; cbn [map Rsum fold_right]; [lra|].
  fold (Rsum (map (fun x => (x - m) ^ 2) xs)).
  pose proof (pow2_ge_0 (x - m)). lra.
Qed.

Lemma Rsum_squares_zero (m : R) xs x :
  Rsum (map (fun x => (x - m) ^ 2) xs) = 0 -> x ∈ xs -> x = m.
Proof.
  intros Hz Hin. induction Hin as [x xs|x y xs _ IH];
    cbn [map Rsum fold_right] in Hz;
    fold (Rsum (map (fun x => (x - m) ^ 2) xs)) in Hz;
    pose proof (Rsum_squares_nonneg m xs) as Hn.
  - pose proof (pow2_ge_0 (x - m)) as Hp.
    assert ((x - m) ^ 2 = 0) as H0 by lra.
    cbn [pow] in H0. nra.
  - pose proof (pow2_ge_0 (y - m)) as Hp. apply IH. lra.
Qed.

Lemma column_std_zero xs x :
  column_std xs = 0 -> x ∈ xs -> x = column_mean xs.
Proof.
  unfold column_std. intros Hs Hin.
  assert (0 < INR (length xs)) as Hlen.
  { apply lt_0_INR. destruct Hin; cbn; lia. }
  pose proof (Rsum_squares_nonneg (column_mean xs) xs) as Hn.
  apply sqrt_eq_0 in Hs.
  - apply (Rsum_squares_zero (column_mean xs) xs); [|exact Hin].
    apply (Rmult_eq_compat_r (INR (length xs))) in Hs.
    unfold Rdiv in Hs. rewrite Rmult_assoc, Rinv_l, Rmult_1_r, Rmult_0_l in Hs by lra.
    exact Hs.
  - apply Rmult_le_pos; [exact Hn|]. left. apply Rinv_0_lt_compat, Hlen.
Qed.

Lemma handle_zeros_nonzero s : handle_zeros_in_scale s <> 0.
Proof. unfold handle_zeros_in_scale. destruct (decide (s = 0)); lra. Qed.

Lemma scale_of_nonzero v : scale_of v <> 0.
Proof. apply handle_zeros_nonzero. Qed.

Lemma scaled_cell_zscore col rows r :
  Forall (fun r => is_Some (col r)) rows -> r ∈ rows ->
  scaled_cell col rows r
  = Some (zscore (map (fun r => val (col r)) rows) (val (col r))).
Proof.
  intros Hall Hin. unfold scaled_cell, scale_of.
  rewrite (nanmean_column col rows Hall), (nanvar_column col rows Hall).
  rewrite Forall_forall in Hall. destruct (Hall r Hin) as [x Hx].
  rewrite Hx. cbn [transform_cell val default]. f_equal.
  unfold zscore, handle_zeros_in_scale.
  destruct (decide (column_std _ = 0)) as [Hz|Hnz]; [|reflexivity].
  assert (x = column_mean (map (fun r => val (col r)) rows)) as <-.
  { apply (column_std_zero _ x Hz). apply list_elem_of_fmap.
    exists r. rewrite Hx. split; [reflexivity|exact Hin]. }
  lra.
Qed.

Lemma complete_column (c : stat) rows :
  Forall complete rows -> Forall (fun r => is_Some (stat_cell c r)) rows.
Proof.
  intros Hall. eapply Forall_impl; [exact Hall|].
  intros r (H1 & H2 & H3 & H4 & H5 & H6). destruct c; assumption.
Qed.

Lemma scaled_cell_stat (c : stat) rows r :
  Forall complete rows -> r ∈ rows ->
  scaled_cell (stat_cell c) rows r = Some (z c rows r).
Proof.
  intros Hall Hin. apply scaled_cell_zscore; [apply complete_column, Hall|exact Hin].
Qed.

Lemma score_of_spec rows r :
  Forall complete rows -> r ∈ rows ->
  score_of rows r = Some (spec_score rows r).
Proof.
  intros Hall Hin. unfold score_of.
  pose proof (fun c => scaled_cell_stat c rows r Hall Hin) as Hz.
  pose proof (Hz PTS) as H1. pose proof (Hz FG_PCT) as H2.
  pose proof (Hz FT_PCT) as H3. pose proof (Hz AST) as H4.
  pose proof (Hz FG3_PCT) as H5. pose proof (Hz TOV) as H6.
  cbn [stat_cell] in H1, H2, H3, H4, H5, H6.
  rewrite H1, H2, H3, H4, H5, H6.
  unfold dot. cbn [weights map snd zip_with fold_left nan_mul nan_add].
  f_equal. unfold spec_score. lra.
Qed.

(** * The table the engine returns *)

Lemma length_scored rows : length (scored rows) = length rows.
Proof. apply length_map. Qed.

Lemma ranked_table_perm rows : Permutation (ranked_table rows) (scored rows).
Proof.
  unfold ranked_table.
  rewrite (Permutation_map _ (nargsort_desc_perm (scores rows))).
  rewrite length_scores, <- length_scored.
  rewrite (map_nth_seq (fun o => o)), map_id. reflexivity.
Qed.

Lemma length_ranked_table rows : length (ranked_table rows) = length rows.
Proof. rewrite (Permutation_length (ranked_table_perm rows)). apply length_scored. Qed.

(** The rows before sorting, when no value is missing. *)
Lemma scored_complete rows :
  Forall complete rows ->
  scored rows
  = map (fun r => {| c_name := name r; c_team := team r;
                     clutch_score := Some (spec_score rows r);
                     clutch_rank :=
                       Some (average_rank (spec_score rows r)
                               (map (spec_score rows) rows)) |}) rows.
Proof.
  intros Hall. unfold scored.
  assert (scores rows = map (fun r => Some (spec_score rows r)) rows) as Hs.
  { unfold scores. apply map_ext_in. intros r Hin.
    apply score_of_spec; [exact Hall|]. apply list_elem_of_In, Hin. }
  assert (present (scores rows) = map (spec_score rows) rows) as Hp.
  { rewrite Hs. unfold present. clear. generalize (spec_score rows).
    intros f. induction rows as [|r l IH]; [reflexivity|].
    cbn. f_equal. exact IH. }
  apply map_ext_in. intros r Hin.
  rewrite (score_of_spec rows r Hall) by apply list_elem_of_In, Hin.
  cbn [rank_of]. rewrite Hp. reflexivity.
Qed.

Lemma scores_complete rows :
  Forall complete rows -> Forall is_Some (scores rows).
Proof.
  intros Hall. unfold scores. apply Forall_forall. intros o Hin.
  apply list_elem_of_fmap in Hin as (r & -> & Hin).
  rewrite (score_of_spec rows r Hall Hin). eexists; reflexivity.
Qed.

Lemma lookup_map {A B} (f : A -> B) (l : list A) i :
  map f l !! i = f <$> (l !! i).
Proof. apply (list_lookup_fmap f l i). Qed.

(** A row of the result is the row of some record. *)
Lemma ranked_row_complete rows o :
  Forall complete rows -> o ∈ ranked_table rows ->
  exists r, r ∈ rows /\
    c_name o = name r /\ c_team o = team r /\
    clutch_score o = Some (spec_score rows r) /\
    clutch_rank o = Some (average_rank (spec_score rows r)
                            (map (spec_score rows) rows)).
Proof.
  intros Hall Hin.
  apply list_elem_of_In in Hin.
  apply (Permutation_in _ (ranked_table_perm rows)) in Hin.
  rewrite (scored_complete rows Hall) in Hin.
  apply in_map_iff in Hin as (r & <- & Hr).
  exists r. split; [apply list_elem_of_In, Hr|]. repeat split; reflexivity.
Qed.

(** The scores of the result are in descending order. *)
Lemma ranked_table_sorted rows i j a b :
  Forall complete rows ->
  ranked_table rows !! i = Some a -> ranked_table rows !! j = Some b ->
  (i < j)%nat ->
  exists sa sb, clutch_score a = Some sa /\ clutch_score b = Some sb /\ sb <= sa.
Proof.
  intros Hall Ha Hb Hlt.
  assert (map clutch_score (ranked_table rows)
          = map (fun p => Some (fst p)) (sorted_keys (scores rows))) as Hk.
  { unfold ranked_table. rewrite map_map.
    rewrite <- (nargsort_desc_keys _ (scores_complete rows Hall)).
    apply map_ext. intros k. symmetry. apply nth_scored_score. }
  pose proof (lookup_map clutch_score (ranked_table rows) i) as Hi.
  pose proof (lookup_map clutch_score (ranked_table rows) j) as Hj.
  rewrite Hk, lookup_map in Hi, Hj. rewrite Ha in Hi. rewrite Hb in Hj.
  destruct (sorted_keys (scores rows) !! i) as [p|] eqn:Hp; [|discriminate].
  destruct (sorted_keys (scores rows) !! j) as [q|] eqn:Hq; [|discriminate].
  cbn in Hi, Hj. injection Hi as Hi. injection Hj as Hj.
  exists (fst p), (fst q). repeat split; [congruence..|].
  exact (StronglySorted_lookup _ _ _ _ _ _ (sorted_keys_desc _) Hp Hq Hlt).
Qed.


(** * Columns of standard deviation zero *)

Lemma Rsum_constant (x : R) xs :
  Forall (fun y => y = x) xs -> Rsum xs = INR (length xs) * x.
Proof.
  induction 1 as [|y l -> _ IH].
  - cbn. lra.
  - cbn [Rsum fold_right length]. fold (Rsum l). rewrite IH, S_INR. lra.
Qed.

Lemma column_mean_constant (x : R) xs :
  xs <> [] -> Forall (fun y => y = x) xs -> column_mean xs = x.
Proof.
  intros Hne Hall. unfold column_mean. rewrite (Rsum_constant x xs Hall).
  assert (0 < INR (length xs)) by (apply lt_0_INR; destruct xs; [congruence|cbn; lia]).
  field. lra.
Qed.

Lemma column_std_constant (x : R) xs :
  xs <> [] -> Forall (fun y => y = x) xs -> column_std xs = 0.
Proof.
  intros Hne Hall. unfold column_std.
  rewrite (column_mean_constant x xs Hne Hall).
  replace (Rsum (map (fun y => (y - x) ^ 2) xs)) with 0.
  - unfold Rdiv. rewrite Rmult_0_l. apply sqrt_0.
  - clear Hne. induction Hall as [|y l -> _ IH]; [reflexivity|].
    cbn [map Rsum fold_right]. fold (Rsum (map (fun y => (y - x) ^ 2) l)).
    rewrite <- IH. ring.
Qed.

Lemma zscore_std_zero xs x : column_std xs = 0 -> zscore xs x = 0.
Proof.
  intros Hz. unfold zscore. destruct (decide (column_std xs = 0)); [reflexivity|contradiction].
Qed.

Lemma column_std_zero_constant xs :
  column_std xs = 0 -> Forall (fun y => y = column_mean xs) xs.
Proof.
  intros Hz. apply Forall_forall. intros y Hy. apply column_std_zero; assumption.
Qed.

(** The divisor the scaler uses for a column of standard deviation zero. *)
Lemma scale_of_std_zero (col : PlayerStatRecord -> option R) rows :
  Forall (fun r => is_Some (col r)) rows ->
  column_std (map (fun r => val (col r)) rows) = 0 ->
  scale_of (map col rows) = 1.
Proof.
  intros Hall Hz. unfold scale_of. rewrite (nanvar_column col rows Hall), Hz.
  unfold handle_zeros_in_scale. destruct (decide (0 = 0)); [reflexivity|contradiction].
Qed.

Lemma scale_column_std_zero (col : PlayerStatRecord -> option R) rows :
  Forall (fun r => is_Some (col r)) rows ->
  column_std (map (fun r => val (col r)) rows) = 0 ->
  scale_column (map col rows) = map (fun _ => Some 0) rows.
Proof.
  intros Hall Hz. unfold scale_column. rewrite map_map.
  apply map_ext_in. intros r Hin. apply list_elem_of_In in Hin.
  pose proof (scaled_cell_zscore col rows r Hall Hin) as Hc.
  unfold scaled_cell in Hc. rewrite Hc, (zscore_std_zero _ _ Hz). reflexivity.
Qed.

Lemma spec_score_without_column c rows r :
  z c rows r = 0 -> spec_score rows r = spec_score_without c rows r.
Proof.
  intros Hz. unfold spec_score, spec_score_without.
  destruct c; vm_compute filter; cbn [map Rsum fold_right stat_weight];
    rewrite Hz; lra.
Qed.

Lemma stat_matrix_columns rows :
  stat_matrix rows = map (fun c => map (stat_cell c) rows) all_stats.
Proof. reflexivity. Qed.

Lemma scores_spec rows :
  Forall complete rows ->
  scores rows = map (fun r => Some (spec_score rows r)) rows.
Proof.
  intros Hall. unfold scores. apply map_ext_in. intros r Hin.
  apply score_of_spec; [exact Hall|]. apply list_elem_of_In, Hin.
Qed.

(** A table in which every column is constant: every score is 0. *)
Lemma spec_score_all_constant rows r :
  (forall c, column_std (stat_values c rows) = 0) -> spec_score rows r = 0.
Proof.
  intros Hz. unfold spec_score, z.
  rewrite !zscore_std_zero by apply Hz. lra.
Qed.

Ltac eval_filter :=
  repeat (rewrite filter_cons; destruct (decide _); try lra);
  rewrite ?filter_nil.

Lemma average_rank_single : average_rank 0 [0] = 1.
Proof.
  unfold average_rank, count_greater, count_equal. eval_filter.
  cbn. lra.
Qed.

Lemma average_rank_pair : average_rank 0 [0; 0] = 1.5.
Proof.
  unfold average_rank, count_greater, count_equal. eval_filter.
  cbn. lra.
Qed.

Lemma nargsort_desc_pair : nargsort_desc [Some 0; Some 0] = [0; 1]%nat.
Proof.
  unfold nargsort_desc. cbn.
  destruct (decide (0 <= 0)); [reflexivity|lra].
Qed.


(** * Worked tables *)

Lemma complete_player n t p fg ft a fg3 tv : complete (player n t p fg ft a fg3 tv).
Proof. repeat split; eexists; reflexivity. Qed.

Lemma tied_rows_complete : Forall complete tied_rows.
Proof. repeat constructor; eexists; reflexivity. Qed.

Lemma three_players_complete : Forall complete three_players.
Proof. repeat constructor; eexists; reflexivity. Defined.

Lemma same_fg3_rows_complete : Forall complete same_fg3_rows.
Proof. repeat constructor; eexists; reflexivity. Defined.

Lemma calcular_tied_rows :
  calcular_clutch_score_on (stats_frame tied_rows) = inr (clutch_frame tied_result).
Proof.
  rewrite calcular_on_table by discriminate.
  pose proof tied_rows_complete as Hall.
  assert (forall r, spec_score tied_rows r = 0) as Hs.
  { intros r. apply spec_score_all_constant. intros c.
    destruct c;
      match goal with
      | |- column_std (stat_values ?c _) = 0 =>
          apply (column_std_constant
                   (val (stat_cell c (player "A" "LAL" 20 0.5 0.8 5 0.4 2))))
      end; try discriminate; repeat constructor. }
  assert (map (spec_score tied_rows) tied_rows = [0; 0]) as Hm
    by (rewrite (map_ext _ (fun _ => 0) Hs); reflexivity).
  assert (scores tied_rows = [Some 0; Some 0]) as Hsc.
  { rewrite (scores_spec _ Hall).
    rewrite (map_ext _ (fun _ => Some 0)); [reflexivity|].
    intros r. rewrite Hs. reflexivity. }
  do 2 f_equal. unfold ranked_table.
  rewrite Hsc, (scored_complete _ Hall), Hm, nargsort_desc_pair.
  cbn [map nth tied_rows]. rewrite !Hs, average_rank_pair. reflexivity.
Qed.


Lemma present_somes {A} (f : A -> R) l :
  present (map (fun a => Some (f a)) l) = map f l.
Proof.
  unfold present. induction l as [|a l IH]; [reflexivity|].
  cbn. f_equal. exact IH.
Qed.

(** The scores of the result are the scores of the records. *)
Lemma table_scores_ranked rows :
  Forall complete rows ->
  Permutation (table_scores (ranked_table rows)) (map (spec_score rows) rows).
Proof.
  intros Hall. unfold table_scores, present.
  rewrite (ranked_table_perm rows), (scored_complete rows Hall), map_map.
  cbn [clutch_score]. fold (present (map (fun r => Some (spec_score rows r)) rows)).
  rewrite present_somes. reflexivity.
Qed.


(** * Missing values in the scaler *)

Lemma nanmean_present v : nanmean v = column_mean (present v).
Proof. reflexivity. Qed.

Lemma nanstd_present v : sqrt (nanvar v) = column_std (present v).
Proof.
  unfold nanvar, column_std. rewrite nanmean_present.
  do 3 f_equal. apply map_ext. intros x. ring.
Qed.

Lemma transform_cell_zscore v x :
  x ∈ present v ->
  transform_cell (nanmean v) (scale_of v) (Some x)
  = Some (zscore (present v) x).
Proof.
  intros Hin. unfold scale_of. rewrite nanstd_present, nanmean_present.
  cbn [transform_cell]. f_equal. unfold zscore, handle_zeros_in_scale.
  destruct (decide (column_std _ = 0)) as [Hz|Hnz]; [|reflexivity].
  rewrite <- (column_std_zero _ x Hz Hin). lra.
Qed.

Lemma scaled_cell_is_Some col rows r :
  is_Some (scaled_cell col rows r) <-> is_Some (col r).
Proof.
  unfold scaled_cell. destruct (col r); cbn [transform_cell].
  - split; intros _; eexists; reflexivity.
  - split; intros [x Hx]; discriminate.
Qed.

Lemma nan_add_is_Some a b : is_Some (nan_add a b) <-> is_Some a /\ is_Some b.
Proof.
  destruct a, b; cbn; split; try (intros [[? ?] [? ?]]); try (intros [? ?]);
    try discriminate; try (repeat split; eexists; reflexivity).
Qed.

Lemma nan_mul_weight_is_Some a w : is_Some (nan_mul a (Some w)) <-> is_Some a.
Proof.
  destruct a; cbn; split; try (intros [? ?]); try discriminate;
    eexists; reflexivity.
Qed.

(** A record has a score exactly when its six statistics are there. *)
Lemma score_of_is_Some rows r : is_Some (score_of rows r) <-> complete r.
Proof.
  unfold score_of, dot, complete.
  cbn [weights map snd zip_with fold_left].
  rewrite !nan_add_is_Some, !nan_mul_weight_is_Some, !scaled_cell_is_Some.
  split.
  - tauto.
  - intros (H1 & H2 & H3 & H4 & H5 & H6).
    repeat split; try assumption. eexists; reflexivity.
Qed.


Lemma score_of_incomplete rows r : ~ complete r -> score_of rows r = None.
Proof.
  intros Hn. destruct (score_of rows r) as [s|] eqn:Hs; [|reflexivity].
  exfalso. apply Hn, (score_of_is_Some rows r). rewrite Hs. eexists; reflexivity.
Qed.

Lemma scaled_cell_constant (col : PlayerStatRecord -> option R) rows r x :
  col r = Some x ->
  Forall (fun y => y = x) (present (map col rows)) ->
  x ∈ present (map col rows) ->
  scaled_cell col rows r = Some 0.
Proof.
  intros Hx Hall Hin. unfold scaled_cell. rewrite Hx.
  rewrite (transform_cell_zscore _ x Hin). f_equal.
  apply zscore_std_zero, (column_std_constant x); [|exact Hall].
  intros Hnil. rewrite Hnil in Hin. apply elem_of_nil in Hin as [].
Qed.

Lemma nargsort_desc_nan_first : nargsort_desc [None; Some 0] = [1; 0]%nat.
Proof. reflexivity. Qed.

Lemma calcular_rows_with_missing :
  calcular_clutch_score_on (stats_frame rows_with_missing)
  = inr (clutch_frame result_with_missing).
Proof.
  rewrite calcular_on_table by discriminate.
  set (a := {| name := Some "A"; team := Some "LAL"; fg_pct := Some 0.5;
               fg3_pct := Some 0.4; ft_pct := Some 0.8; ast := Some 5;
               tov := Some 2; pts := None |}).
  set (b := player "B" "BOS" 20 0.5 0.8 5 0.4 2).
  assert (score_of rows_with_missing a = None) as Ha.
  { apply score_of_incomplete. intros ([x Hx] & _). discriminate. }
  assert (score_of rows_with_missing b = Some 0) as Hb.
  { unfold score_of.
    rewrite (scaled_cell_constant pts _ b 20),
            (scaled_cell_constant fg_pct _ b 0.5),
            (scaled_cell_constant ft_pct _ b 0.8),
            (scaled_cell_constant ast _ b 5),
            (scaled_cell_constant fg3_pct _ b 0.4),
            (scaled_cell_constant tov _ b 2);
      try reflexivity; try (cbn; repeat constructor).
    unfold dot. cbn [weights map snd zip_with fold_left nan_mul nan_add].
    f_equal. lra. }
  assert (scores rows_with_missing = [None; Some 0]) as Hsc.
  { change (scores rows_with_missing)
      with [score_of rows_with_missing a; score_of rows_with_missing b].
    rewrite Ha, Hb. reflexivity. }
  do 2 f_equal. unfold ranked_table, scored.
  rewrite Hsc, nargsort_desc_nan_first.
  change (map ?f rows_with_missing) with [f a; f b].
  cbn [map nth]. rewrite Ha, Hb.
  cbn [rank_of present omap list_omap].
  rewrite average_rank_single. reflexivity.
Qed.

(** * Row selection *)

Lemma where_true_from_bound (mask : list bool) k n j :
  j ∈ omap (fun bi : bool * nat => if fst bi then Some (snd bi) else None)
        (zip mask (seq k n)) ->
  (k <= j)%nat /\ mask !! (j - k)%nat = Some true.
Proof.
  revert k n. induction mask as [|b mask IH]; intros k n Hin.
  - apply elem_of_nil in Hin as [].
  - destruct n as [|n]; [apply elem_of_nil in Hin as []|].
    cbn in Hin. destruct b.
    + apply elem_of_cons in Hin as [->|Hin].
      * split; [lia|]. rewrite Nat.sub_diag. reflexivity.
      * apply IH in Hin as [Hle Hl]. split; [lia|].
        replace (j - k)%nat with (S (j - S k)) by lia. exact Hl.
    + apply IH in Hin as [Hle Hl]. split; [lia|].
      replace (j - k)%nat with (S (j - S k)) by lia. exact Hl.
Qed.

Lemma elem_of_where_true mask j :
  j ∈ where_true mask -> mask !! j = Some true.
Proof.
  intros Hin. apply where_true_from_bound in Hin as [_ Hl].
  rewrite Nat.sub_0_r in Hl. exact Hl.
Qed.

Lemma notna_at_take_col_lookup idx c i j :
  idx !! i = Some j -> notna_at i (take_col idx c) = notna_at j c.
Proof.
  intros Hj. destruct c as [v|v]; cbn [take_col notna_at];
    rewrite nth_lookup, lookup_map, Hj; reflexivity.
Qed.

Lemma col_length_take_col idx c : col_length (take_col idx c) = length idx.
Proof. destruct c; cbn; apply length_map. Qed.

Lemma nrows_df_take idx (df : DataFrame) :
  nrows (df_take idx df) = match df with [] => 0%nat | _ => length idx end.
Proof. destruct df as [|[n c] df]; [reflexivity|]. cbn. apply col_length_take_col. Qed.

Lemma df_lookup_take idx (df : DataFrame) n :
  df_lookup (df_take idx df) n = take_col idx <$> df_lookup df n.
Proof.
  induction df as [|[n0 c] df IH]; [reflexivity|].
  cbn. destruct (String.eqb n0 n); [reflexivity|exact IH].
Qed.

Lemma length_series_isin c values :
  length (series_isin c values) = col_length c.
Proof. destruct c; cbn; apply length_map. Qed.

Lemma existsb_eqb_In s values :
  existsb (String.eqb s) values = true -> In s values.
Proof.
  intros H. apply existsb_exists in H as (t & Hin & Heq).
  apply String.eqb_eq in Heq as ->. exact Hin.
Qed.

(** The rows a team mask keeps have a team code in the list. *)
Lemma series_isin_true c values j :
  series_isin c values !! j = Some true ->
  exists v t, c = ObjCol v /\ v !! j = Some (Some t) /\ In t values.
Proof.
  destruct c as [v|v]; cbn [series_isin]; rewrite lookup_map.
  - intros H. destruct (_ !! j) in H; cbn in H; discriminate H.
  - destruct (v !! j) as [[t|]|] eqn:Hv; cbn; try discriminate.
    intros [= H]. exists v, t. repeat split; [exact Hv|].
    apply existsb_eqb_In, H.
Qed.

(** The rows [dropna] keeps have no missing cell. *)
Lemma dropna_mask_true (df : DataFrame) k :
  map (fun i => forallb (notna_at i) (map snd df)) (seq 0 (nrows df)) !! k
    = Some true ->
  Forall (fun nc => notna_at k (snd nc) = true) df.
Proof.
  rewrite lookup_map. intros H.
  destruct (seq 0 (nrows df) !! k) as [k'|] eqn:Hk; [|discriminate].
  apply lookup_seq in Hk as [-> _]. cbn in H. injection H as H.
  rewrite forallb_forall in H. apply Forall_forall. intros nc Hin.
  apply H, in_map, list_elem_of_In, Hin.
Qed.

Lemma length_df_getitem_list (df : DataFrame) names sel :
  df_getitem_list df names = inr sel -> map fst sel = names.
Proof.
  revert sel. induction names as [|n names IH]; intros sel H; cbn in H.
  - injection H as <-. reflexivity.
  - destruct (df_lookup df n); [|discriminate].
    destruct (df_getitem_list df names) as [e|d]; [discriminate|].
    injection H as <-. cbn. f_equal. apply IH. reflexivity.
Qed.

Lemma map_fst_df_take idx (df : DataFrame) :
  map fst (df_take idx df) = map fst df.
Proof. unfold df_take. rewrite map_map. reflexivity. Qed.

(** The rows of the frame the fetcher returns, whatever the frame the
    request produced. *)
Lemma obtener_datos_jugadores_rows stats abreviaturas out :
  obtener_datos_jugadores_try (inr stats) abreviaturas = inr out ->
  map fst out = relevant_columns /\
  forall i, (i < nrows out)%nat ->
    Forall (fun nc => notna_at i (snd nc) = true) out /\
    exists teams t,
      df_lookup out "TEAM_ABBREVIATION" = Some (ObjCol teams) /\
      teams !! i = Some (Some t) /\ In t abreviaturas.
Proof.
  unfold obtener_datos_jugadores_try.
  destruct (df_getitem_list stats relevant_columns) as [e|sel] eqn:Hsel;
    [discriminate|].
  unfold df_getitem.
  destruct (df_lookup (df_dropna sel) "TEAM_ABBREVIATION") as [teams|] eqn:Ht;
    [|discriminate].
  intros [= <-].
  pose proof (length_df_getitem_list _ _ _ Hsel) as Hcols.
  split; [unfold df_dropna, df_mask; rewrite !map_fst_df_take; exact Hcols|].
  unfold df_mask. rewrite nrows_df_take.
  destruct (df_dropna sel) as [|nc0 rel0] eqn:Hrel; [intros i Hi; lia|].
  rewrite <- Hrel in *. clear nc0 rel0 Hrel.
  intros i Hi.
  set (m2 := series_isin teams abreviaturas) in *.
  destruct (lookup_lt_is_Some_2 (where_true m2) i Hi) as [j Hj].
  assert (m2 !! j = Some true) as Hm2
    by (apply elem_of_where_true, list_elem_of_lookup; eauto).
  (* the row [j] of the frame after [dropna] *)
  unfold df_dropna, df_mask in Ht. rewrite df_lookup_take in Ht.
  destruct (df_lookup sel "TEAM_ABBREVIATION") as [teams0|] eqn:Ht0;
    [|discriminate].
  cbn in Ht. injection Ht as Ht.
  set (m1 := map (fun i => forallb (notna_at i) (map snd sel))
                 (seq 0 (nrows sel))) in *.
  assert (j < length (where_true m1))%nat as Hjlt.
  { apply lookup_lt_Some in Hm2. unfold m2 in Hm2.
    rewrite length_series_isin, <- Ht, col_length_take_col in Hm2. exact Hm2. }
  destruct (lookup_lt_is_Some_2 (where_true m1) j Hjlt) as [k Hk].
  assert (m1 !! k = Some true) as Hm1
    by (apply elem_of_where_true, list_elem_of_lookup; eauto).
  apply dropna_mask_true in Hm1.
  split.
  - unfold df_dropna, df_mask. fold m1. unfold df_take. rewrite map_map.
    apply Forall_fmap, Forall_forall. intros nc Hin. cbn.
    rewrite (notna_at_take_col_lookup _ _ i j Hj).
    rewrite (notna_at_take_col_lookup _ _ j k Hk).
    rewrite Forall_forall in Hm1. apply Hm1, Hin.
  - apply series_isin_true in Hm2 as (v & t & -> & Hv & Hin).
    exists (map (fun i => nth i v None) (where_true m2)), t.
    split; [|split; [|exact Hin]].
    + rewrite df_lookup_take.
      unfold df_dropna, df_mask. fold m1. rewrite df_lookup_take, Ht0.
      cbn. rewrite Ht. reflexivity.
    + rewrite lookup_map, Hj. cbn. rewrite nth_lookup, Hv. reflexivity.
Qed.

(** * The fetcher on a table of records *)

Lemma df_take_stats_frame idx rows :
  df_take idx (stats_frame rows)
  = stats_frame (map (fun i => nth i rows no_record) idx).
Proof.
  unfold df_take, stats_frame. cbn [map fst snd take_col].
  rewrite !map_map.
  rewrite (map_ext _ _ (map_nth name rows no_record)),
          (map_ext _ _ (map_nth team rows no_record)),
          (map_ext _ _ (map_nth fg_pct rows no_record)),
          (map_ext _ _ (map_nth fg3_pct rows no_record)),
          (map_ext _ _ (map_nth ft_pct rows no_record)),
          (map_ext _ _ (map_nth ast rows no_record)),
          (map_ext _ _ (map_nth tov rows no_record)),
          (map_ext _ _ (map_nth pts rows no_record)).
  reflexivity.
Qed.

Lemma where_true_from_filter {A} (P : A -> bool) (d : A) l k :
  map (fun i => nth (i - k) l d)
      (omap (fun bi : bool * nat => if fst bi then Some (snd bi) else None)
            (zip (map P l) (seq k (length (map P l)))))
  = List.filter P l.
Proof.
  revert k. induction l as [|a l IH]; intros k; [reflexivity|].
  cbn [map length seq zip zip_with List.filter].
  assert (forall rest,
            Forall (fun i => S k <= i)%nat rest ->
            map (fun i => nth (i - k) (a :: l) d) rest
            = map (fun i => nth (i - S k) l d) rest) as Hshift.
  { intros rest Hrest. apply map_ext_in. intros i Hi.
    rewrite Forall_forall in Hrest.
    specialize (Hrest i (proj2 (list_elem_of_In _ _) Hi)).
    replace (i - k)%nat with (S (i - S k)) by lia. reflexivity. }
  assert (Forall (fun i => S k <= i)%nat
            (omap (fun bi : bool * nat => if fst bi then Some (snd bi) else None)
                  (zip (map P l) (seq (S k) (length (map P l)))))) as Hge.
  { apply Forall_forall. intros i Hi.
    apply where_true_from_bound in Hi as [Hle _]. exact Hle. }
  cbn [omap list_omap fst snd]. destruct (P a).
  - cbn [map]. rewrite Nat.sub_diag.
    change (nth 0 (a :: l) d) with a. f_equal.
    etransitivity; [exact (Hshift _ Hge)|apply IH].
  - etransitivity; [exact (Hshift _ Hge)|apply IH].
Qed.

Lemma where_true_filter {A} (P : A -> bool) (d : A) l :
  map (fun i => nth i l d) (where_true (map P l)) = List.filter P l.
Proof.
  rewrite <- (where_true_from_filter P d l 0). unfold where_true.
  apply map_ext. intros i. rewrite Nat.sub_0_r. reflexivity.
Qed.

Lemma df_mask_stats_frame (P : PlayerStatRecord -> bool) rows :
  df_mask (map P rows) (stats_frame rows) = stats_frame (List.filter P rows).
Proof.
  unfold df_mask. rewrite df_take_stats_frame, where_true_filter. reflexivity.
Qed.

Lemma is_some_nth {A B} (f : A -> option B) (d : A) l i :
  f d = None ->
  match nth i (map f l) None with Some _ => true | None => false end
  = is_some (f (nth i l d)).
Proof. intros Hd. rewrite <- Hd at 1. rewrite map_nth. reflexivity. Qed.

Lemma df_dropna_stats_frame rows :
  df_dropna (stats_frame rows) = stats_frame (List.filter all_present rows).
Proof.
  unfold df_dropna. rewrite <- df_mask_stats_frame. f_equal.
  replace (nrows (stats_frame rows)) with (length rows)
    by (cbn; rewrite length_map; reflexivity).
  rewrite <- (map_nth_seq all_present no_record).
  apply map_ext. intros i.
  cbn [stats_frame map snd forallb notna_at].
  rewrite !(is_some_nth _ no_record) by reflexivity.
  unfold all_present. rewrite andb_true_r, !andb_assoc. reflexivity.
Qed.

Lemma series_isin_teams rows abreviaturas :
  series_isin (ObjCol (map team rows)) abreviaturas
  = map (team_in abreviaturas) rows.
Proof. cbn [series_isin]. rewrite map_map. reflexivity. Qed.

Lemma obtener_datos_jugadores_table stats rows abreviaturas :
  df_getitem_list stats relevant_columns = inr (stats_frame rows) ->
  obtener_datos_jugadores (inr stats) abreviaturas
  = (stats_frame (List.filter (team_in abreviaturas)
                    (List.filter all_present rows)), []).
Proof.
  intros Hsel. unfold obtener_datos_jugadores, obtener_datos_jugadores_try.
  rewrite Hsel, df_dropna_stats_frame.
  change (df_getitem (stats_frame ?l) "TEAM_ABBREVIATION")
    with (inr (A:=exn) (ObjCol (map team l))).
  cbv beta iota. rewrite series_isin_teams, df_mask_stats_frame. reflexivity.
Qed.

Lemma all_present_complete r : all_present r = true -> complete r.
Proof.
  unfold all_present, complete. rewrite !andb_true_iff.
  destruct (pts r), (fg_pct r), (ft_pct r), (ast r), (fg3_pct r), (tov r);
    cbn; intros H; try (repeat split; eexists; reflexivity);
    exfalso; intuition discriminate.
Qed.

Lemma team_in_In abreviaturas r :
  team_in abreviaturas r = true ->
  exists t, team r = Some t /\ In t abreviaturas.
Proof.
  unfold team_in. destruct (team r) as [t|]; [|discriminate].
  intros H. exists t. split; [reflexivity|apply existsb_eqb_In, H].
Qed.


(** * The scenario of three players *)

Lemma sqrt_two_thirds_pos : 0 < sqrt (2 / 3).
Proof. apply sqrt_lt_R0. lra. Qed.

(** A column of three values at distance [d], [0] and [d] of their mean (in
    some order) has standard deviation [d * sqrt (2/3)]. *)
Lemma zscore_three (a b c d x : R) :
  0 < d ->
  (a - (a + b + c) / 3) ^ 2 + (b - (a + b + c) / 3) ^ 2
    + (c - (a + b + c) / 3) ^ 2 = 2 * (d * d) ->
  zscore [a; b; c] x = (x - (a + b + c) / 3) / d * / sqrt (2 / 3).
Proof.
  intros Hd Hsq.
  assert (column_mean [a; b; c] = (a + b + c) / 3) as Hm
    by (unfold column_mean; cbn; lra).
  assert (column_std [a; b; c] = d * sqrt (2 / 3)) as Hs.
  { unfold column_std. rewrite Hm. cbn [map Rsum fold_right length INR].
    replace (_ / (1 + 1 + 1)) with (d * d * (2 / 3)) by lra.
    rewrite sqrt_mult by nra. rewrite sqrt_square by lra. reflexivity. }
  pose proof sqrt_two_thirds_pos as Hq.
  unfold zscore. rewrite Hs, Hm.
  destruct (decide (d * sqrt (2 / 3) = 0)) as [H0|_]; [nra|].
  field. lra.
Qed.

Ltac three_column a b c d :=
  rewrite !(zscore_three a b c d) by (try lra; cbn [pow]; lra).

Lemma spec_score_three_players :
  map (spec_score three_players) three_players
  = [0.60 * / sqrt (2 / 3); 0.65 * / sqrt (2 / 3); -1.25 * / sqrt (2 / 3)].
Proof.
  unfold spec_score, z, three_players, player.
  cbn [map stat_values stat_cell val default from_option Datatypes.id
       pts fg_pct ft_pct ast fg3_pct tov].
  three_column 30 20 10 10. three_column 0.50 0.45 0.40 0.05.
  three_column 0.80 0.90 0.70 0.10. three_column 5 8 2 3.
  three_column 0.35 0.40 0.30 0.05. three_column 3 1 5 2.
  f_equal; [lra|]. f_equal; [lra|]. f_equal. lra.
Qed.

Lemma nargsort_desc_three (k : R) :
  0 < k ->
  nargsort_desc [Some (0.60 * k); Some (0.65 * k); Some (-1.25 * k)]
  = [1; 0; 2]%nat.
Proof.
  intros Hk. unfold nargsort_desc.
  cbn [length seq zip zip_with omap list_omap non_nan_item nan_item fst snd
       rev app argsort fold_right insert_asc].
  repeat (destruct (decide _); try lra; cbn [insert_asc fst]).
  reflexivity.
Qed.

Lemma average_rank_three (k : R) :
  0 < k ->
  let vals := [0.60 * k; 0.65 * k; -1.25 * k] in
  average_rank (0.65 * k) vals = 1 /\
  average_rank (0.60 * k) vals = 2 /\
  average_rank (-1.25 * k) vals = 3.
Proof.
  intros Hk vals. unfold vals, average_rank, count_greater, count_equal.
  repeat split; eval_filter; cbn; lra.
Qed.

(** The scenario of the specification: B is first, A second, C last, with
    ranks 1, 2 and 3. *)
Lemma calcular_three_players :
  calcular_clutch_score_on (stats_frame three_players)
  = inr (clutch_frame three_players_result).
Proof.
  rewrite calcular_on_table by discriminate.
  pose proof three_players_complete as Hall.
  pose proof spec_score_three_players as Hm.
  assert (0 < / sqrt (2 / 3)) as Hk
    by (apply Rinv_0_lt_compat, sqrt_two_thirds_pos).
  destruct (average_rank_three _ Hk) as (HrB & HrA & HrC).
  do 2 f_equal. unfold ranked_table.
  rewrite (scores_spec _ Hall), (scored_complete _ Hall).
  rewrite <- (map_map (spec_score three_players) Some), Hm.
  cbn [map]. rewrite (nargsort_desc_three _ Hk).
  injection Hm as HA HB HC.
  unfold three_players at 3. cbn [map nth].
  rewrite HA, HB, HC, HrA, HrB, HrC. reflexivity.
Qed.

(** * The claims *)

(** C1.  For a non-empty table of complete records the engine returns one
    row per record whose clutch score is the weighted sum
    [0.35 z_pts + 0.25 z_fg_pct + 0.15 z_ft_pct + 0.15 z_ast
     + 0.10 z_fg3_pct - 0.25 z_tov] of the record's standardized
    statistics: the rows returned, as (name, team, score), are those of the
    records in some order.  In a column whose (population) standard
    deviation is not zero the standardized value is
    [(value - column mean) / column standard deviation]; where it is zero
    the standardized value is 0 (see C3). *)
Theorem C1_score_is_weighted_sum (rows : list PlayerStatRecord) :
  rows <> [] -> Forall complete rows ->
  (exists out,
     calcular_clutch_score_on (stats_frame rows) = inr (clutch_frame out) /\
     Permutation (map (fun o => (c_name o, c_team o, clutch_score o)) out)
                 (map (fun r => (name r, team r, Some (spec_score rows r)))
                      rows)) /\
  (forall c r,
     column_std (stat_values c rows) <> 0 ->
     z c rows r
     = (val (stat_cell c r) - column_mean (stat_values c rows))
       / column_std (stat_values c rows)).
Proof.
  intros Hne Hall. split.
  - exists (ranked_table rows).
    split; [apply calcular_on_table, Hne|].
    rewrite (Permutation_map _ (ranked_table_perm rows)).
    rewrite (scored_complete rows Hall), map_map. reflexivity.
  - intros c r Hnz. unfold z, zscore.
    destruct (decide (column_std (stat_values c rows) = 0));
      [contradiction|reflexivity].
Qed.

(** C2, counterexample.  Two players with the same statistics both get
    score 0 and rank 1.5: the rank is not an integer, rank 1 goes to nobody,
    and it is not the count of strictly greater scores plus 1 (which is 1
    for both). *)
Lemma C2_counterexample_tied_ranks :
  calcular_clutch_score_on (stats_frame tied_rows)
    = inr (clutch_frame tied_result) /\
  ~ competition_ranked tied_result.
Proof.
  split; [exact calcular_tied_rows|].
  intros Hc. apply Forall_cons in Hc as [(s & Hs & Hr) _].
  cbn in Hs, Hr. injection Hs as <-. injection Hr as Hr.
  unfold competition_rank, table_scores, count_greater in Hr.
  cbn [tied_result map clutch_score present omap list_omap] in Hr.
  revert Hr. eval_filter. cbn. lra.
Qed.

(** C2, amended.  For a non-empty table of complete records the ranks are
    average ranks: the rank of a record is the count of records with a
    strictly greater score, plus [(k + 1) / 2] where [k] is the number of
    records with its score (itself included).  Records with equal scores get
    the same rank, a greater score gets a strictly smaller rank, and a
    record whose score no other record shares gets the count of strictly
    greater scores plus 1. *)
Theorem C2_average_ranking (rows : list PlayerStatRecord) :
  rows <> [] -> Forall complete rows ->
  exists out,
    calcular_clutch_score_on (stats_frame rows) = inr (clutch_frame out) /\
    Forall (fun o => exists s,
              clutch_score o = Some s /\
              clutch_rank o = Some (tie_average_rank out s) /\
              (count_equal s (table_scores out) = 1%nat ->
               clutch_rank o = Some (competition_rank out s))) out /\
    (forall a b, a ∈ out -> b ∈ out ->
       clutch_score a = clutch_score b -> clutch_rank a = clutch_rank b) /\
    (forall a b sa sb ra rb, a ∈ out -> b ∈ out ->
       clutch_score a = Some sa -> clutch_score b = Some sb ->
       clutch_rank a = Some ra -> clutch_rank b = Some rb ->
       sb < sa -> ra < rb).
Proof.
  intros Hne Hall. exists (ranked_table rows).
  split; [apply calcular_on_table, Hne|].
  pose proof (table_scores_ranked rows Hall) as Hp.
  assert (forall o, o ∈ ranked_table rows ->
            exists s, clutch_score o = Some s /\
                      s ∈ table_scores (ranked_table rows) /\
                      clutch_rank o
                      = Some (average_rank s (table_scores (ranked_table rows))))
    as Hrow.
  { intros o Ho.
    destruct (ranked_row_complete rows o Hall Ho) as (r & Hr & _ & _ & Hs & Hk).
    exists (spec_score rows r). split; [exact Hs|]. split.
    - rewrite Hp. apply list_elem_of_fmap. exists r. split; [reflexivity|exact Hr].
    - rewrite Hk. f_equal. symmetry. apply average_rank_perm, Hp. }
  split; [|split].
  - apply Forall_forall. intros o Ho.
    destruct (Hrow o Ho) as (s & Hs & Hin & Hk).
    exists s. split; [exact Hs|].
    rewrite Hk, (average_rank_closed s _ (count_equal_pos s _ Hin)).
    split; [reflexivity|].
    intros H1. unfold competition_rank. rewrite H1. cbn [INR]. f_equal. lra.
  - intros a b Ha Hb Heq.
    destruct (Hrow a Ha) as (sa & Hsa & _ & Hka).
    destruct (Hrow b Hb) as (sb & Hsb & _ & Hkb).
    rewrite Hka, Hkb. rewrite Hsa, Hsb in Heq. injection Heq as ->. reflexivity.
  - intros a b sa sb ra rb Ha Hb Hsa Hsb Hra Hrb Hlt.
    destruct (Hrow a Ha) as (sa' & Hsa' & Hina & Hka).
    destruct (Hrow b Hb) as (sb' & Hsb' & Hinb & Hkb).
    rewrite Hsa in Hsa'. rewrite Hsb in Hsb'.
    injection Hsa' as <-. injection Hsb' as <-.
    rewrite Hra in Hka. rewrite Hrb in Hkb.
    injection Hka as ->. injection Hkb as ->.
    apply average_rank_lt; assumption.
Qed.

(** C3, counterexample.  Three players who all make 40% of their
    three-point shots, in binary64 as the program computes: the scaler
    finds the variance 0 and divides the column by 1, so nothing is divided
    by zero; but the mean of the three values is 0.4000000000000001, and
    the standardized value of every record is [-2^-54] (about -5.55e-17),
    not 0; the term of the column in the score, that value times the weight
    0.10, is not 0 either. *)
Lemma C3_counterexample_float64_residue :
  Float64.var_ Float64.same_fg3 = PrimFloat.zero /\
  Float64.scale_ Float64.same_fg3 = PrimFloat.one /\
  Float64.fit_transform Float64.same_fg3
  = [Float64.residue; Float64.residue; Float64.residue] /\
  PrimFloat.eqb Float64.residue PrimFloat.zero = false /\
  PrimFloat.eqb (Float64.term Float64.residue Float64.w_fg3_pct)
                PrimFloat.zero = false.
Proof. repeat split; reflexivity. Qed.

(** C3 (amended).  In exact arithmetic, for a non-empty table of complete
    records in which the column [c] has standard deviation zero: no column
    is divided by zero, the scaler divides the column [c] by 1, the
    standardized value of every record in it, its value minus the column
    mean, is 0, and the column adds nothing to any score: the scores
    returned are the weighted sums of the other five standardized
    statistics. *)
Theorem C3_zero_std_column (c : stat) (rows : list PlayerStatRecord) :
  rows <> [] -> Forall complete rows ->
  column_std (stat_values c rows) = 0 ->
  Forall (fun v => scale_of v <> 0) (stat_matrix rows) /\
  scale_of (map (stat_cell c) rows) = 1 /\
  scale_column (map (stat_cell c) rows) = map (fun _ => Some 0) rows /\
  (forall r, stat_weight c * z c rows r = 0) /\
  exists out,
    calcular_clutch_score_on (stats_frame rows) = inr (clutch_frame out) /\
    Permutation (map (fun o => (c_name o, c_team o, clutch_score o)) out)
                (map (fun r => (name r, team r,
                                Some (spec_score_without c rows r))) rows).
Proof.
  intros Hne Hall Hz.
  pose proof (complete_column c rows Hall) as Hcol.
  assert (forall r, z c rows r = 0) as Hz0
    by (intros r; apply zscore_std_zero, Hz).
  split; [apply Forall_forall; intros v _; apply scale_of_nonzero|].
  split; [apply scale_of_std_zero; assumption|].
  split; [apply scale_column_std_zero; assumption|].
  split; [intros r; rewrite Hz0; lra|].
  exists (ranked_table rows).
  split; [apply calcular_on_table, Hne|].
  rewrite (Permutation_map _ (ranked_table_perm rows)).
  rewrite (scored_complete rows Hall), map_map. cbn [c_name c_team clutch_score].
  rewrite (map_ext _ (fun r => (name r, team r, Some (spec_score_without c rows r))));
    [reflexivity|].
  intros r. rewrite (spec_score_without_column c rows r (Hz0 r)). reflexivity.
Qed.

(** C4.  For a non-empty table of complete records the engine returns as
    many rows as records, with the scores of the records, in descending
    order of clutch score, and the ranks follow that order: for rows [i]
    before [j] (adjacent or not), [score i >= score j] and
    [rank i <= rank j]; a greater score has a smaller rank and equal
    scores have equal ranks. *)
Theorem C4_sorted_descending (rows : list PlayerStatRecord) :
  rows <> [] -> Forall complete rows ->
  exists out,
    calcular_clutch_score_on (stats_frame rows) = inr (clutch_frame out) /\
    length out = length rows /\
    Permutation (table_scores out) (map (spec_score rows) rows) /\
    forall i j a b,
      (i < j)%nat -> out !! i = Some a -> out !! j = Some b ->
      exists sa sb ra rb,
        clutch_score a = Some sa /\ clutch_score b = Some sb /\
        clutch_rank a = Some ra /\ clutch_rank b = Some rb /\
        sa >= sb /\ ra <= rb /\
        (sb < sa -> ra < rb) /\ (sa = sb -> ra = rb).
Proof.
  intros Hne Hall. exists (ranked_table rows).
  split; [apply calcular_on_table, Hne|].
  split; [apply length_ranked_table|].
  split; [apply table_scores_ranked, Hall|].
  intros i j a b Hij Ha Hb.
  destruct (ranked_table_sorted rows i j a b Hall Ha Hb Hij)
    as (sa & sb & Hsa & Hsb & Hle).
  destruct (ranked_row_complete rows a Hall) as (ra & Hra & _ & _ & Hsa' & Hka).
  { apply list_elem_of_lookup. eauto. }
  destruct (ranked_row_complete rows b Hall) as (rb & Hrb & _ & _ & Hsb' & Hkb).
  { apply list_elem_of_lookup. eauto. }
  exists sa, sb. do 2 eexists.
  split; [exact Hsa|]. split; [exact Hsb|].
  split; [exact Hka|]. split; [exact Hkb|].
  split; [lra|].
  rewrite Hsa in Hsa'. rewrite Hsb in Hsb'.
  injection Hsa' as ->. injection Hsb' as ->.
  assert (spec_score rows ra ∈ map (spec_score rows) rows) as Hina
    by (apply list_elem_of_fmap; eexists; (split; [reflexivity|eassumption])).
  assert (spec_score rows rb ∈ map (spec_score rows) rows) as Hinb
    by (apply list_elem_of_fmap; eexists; (split; [reflexivity|eassumption])).
  split; [apply average_rank_le; assumption|].
  split; [intros Hlt; apply average_rank_lt; assumption|].
  intros ->. reflexivity.
Qed.

(** C5.  On a table without records the engine fails and returns nothing:
    the scaler's input validation raises [ValueError] for an array of 0
    samples.  On [pd.DataFrame()], the frame without columns, the column
    selection raises [KeyError]. *)
Theorem C5_empty_input_fails :
  calcular_clutch_score_on (stats_frame [])
  = inl (ValueError "Found array with 0 sample(s) while a minimum of 1 is required by StandardScaler")
  /\ calcular_clutch_score_on [] = inl (KeyError "PTS").
Proof.
  rewrite !calcular_clutch_score_on_pipeline. split; reflexivity.
Qed.

(** C6, counterexample.  A table whose first record has no points: the
    engine raises nothing and returns a table in which the other record is
    scored and ranked, and the incomplete one has NaN for both. *)
Lemma C6_counterexample_missing_value :
  (exists r, r ∈ rows_with_missing /\ ~ complete r) /\
  calcular_clutch_score_on (stats_frame rows_with_missing)
  = inr (clutch_frame result_with_missing).
Proof.
  split; [|exact calcular_rows_with_missing].
  eexists. split; [apply list_elem_of_here|].
  intros ([x Hx] & _). discriminate.
Qed.

(** C6, amended.  The engine does not check for missing values: on every
    non-empty table, with or without them, it raises nothing and returns
    one row per record.  A record has a clutch score exactly when its six
    statistics are present, and a row has a rank exactly when it has a
    score. *)
Theorem C6_missing_values_not_checked (rows : list PlayerStatRecord) :
  rows <> [] ->
  exists out,
    calcular_clutch_score_on (stats_frame rows) = inr (clutch_frame out) /\
    length out = length rows /\
    Permutation (map (fun o => (c_name o, c_team o, clutch_score o)) out)
                (map (fun r => (name r, team r, score_of rows r)) rows) /\
    (forall r, is_Some (score_of rows r) <-> complete r) /\
    Forall (fun o => is_Some (clutch_rank o) <-> is_Some (clutch_score o)) out.
Proof.
  intros Hne. exists (ranked_table rows).
  split; [apply calcular_on_table, Hne|].
  split; [apply length_ranked_table|].
  split; [|split].
  - rewrite (Permutation_map _ (ranked_table_perm rows)).
    unfold scored. rewrite map_map. reflexivity.
  - apply score_of_is_Some.
  - rewrite (ranked_table_perm rows). unfold scored.
    apply Forall_forall. intros o Ho.
    apply list_elem_of_fmap in Ho as (r & -> & _).
    cbn [clutch_rank clutch_score].
    destruct (score_of rows r); cbn [rank_of]; split; intros [x Hx];
      try discriminate; eexists; reflexivity.
Qed.

(** C7.  For a non-empty table the engine returns exactly one row per
    record: as many rows as records, and the (name, team) pairs of the rows
    are those of the records, none dropped and none duplicated.  This holds
    whether or not all six statistics are present. *)
Theorem C7_one_result_per_record (rows : list PlayerStatRecord) :
  rows <> [] ->
  exists out,
    calcular_clutch_score_on (stats_frame rows) = inr (clutch_frame out) /\
    length out = length rows /\
    Permutation (map (fun o => (c_name o, c_team o)) out)
                (map (fun r => (name r, team r)) rows).
Proof.
  intros Hne. exists (ranked_table rows).
  split; [apply calcular_on_table, Hne|].
  split; [apply length_ranked_table|].
  rewrite (Permutation_map _ (ranked_table_perm rows)).
  unfold scored. rewrite map_map. reflexivity.
Qed.

(** C8.  The engine is a function of the table it is given and changes
    nothing its caller can reach: a run only adds objects to the store (so
    the input frame, like every object that was there, is as it was), two
    runs on the same table, in whatever stores, end the same way (the same
    exception, or equal frames), and so does a second run after the
    first. *)
Theorem C8_deterministic_no_side_effect
    (s1 s2 : store) (r1 r2 : ref) (d : DataFrame) :
  s1 !! r1 = Some (ODataFrame d) ->
  s2 !! r2 = Some (ODataFrame d) ->
  (exists ext, snd (calcular_clutch_score r1 s1) = s1 ++ ext) /\
  snd (calcular_clutch_score r1 s1) !! r1 = Some (ODataFrame d) /\
  outcome (calcular_clutch_score r1 s1) = outcome (calcular_clutch_score r2 s2) /\
  outcome (calcular_clutch_score r1 (snd (calcular_clutch_score r1 s1)))
  = outcome (calcular_clutch_score r1 s1).
Proof.
  intros H1 H2.
  destruct (calcular_clutch_score_run s1 r1 d H1) as (ext1 & res1 & Hrun1 & Hout1).
  destruct (calcular_clutch_score_run s2 r2 d H2) as (ext2 & res2 & Hrun2 & Hout2).
  rewrite Hrun1, Hrun2. cbn [snd].
  assert ((s1 ++ ext1) !! r1 = Some (ODataFrame d)) as H1'
    by (apply lookup_app_l_Some, H1).
  split; [exists ext1; reflexivity|].
  split; [exact H1'|].
  split; [congruence|].
  destruct (calcular_clutch_score_run _ r1 d H1') as (ext3 & res3 & Hrun3 & Hout3).
  rewrite Hrun3. congruence.
Qed.

(** C9.  For a table of exactly one complete record the engine succeeds:
    every column has standard deviation zero, every standardized value is
    0, the clutch score is 0 and the rank is 1. *)
Theorem C9_single_record (r : PlayerStatRecord) :
  complete r ->
  (forall c, column_std (stat_values c [r]) = 0 /\
             scaled_cell (stat_cell c) [r] r = Some 0) /\
  calcular_clutch_score_on (stats_frame [r])
  = inr (clutch_frame [{| c_name := name r; c_team := team r;
                          clutch_score := Some 0; clutch_rank := Some 1 |}]).
Proof.
  intros Hc.
  assert (Forall complete [r]) as Hall by (constructor; [exact Hc|constructor]).
  assert (forall c, column_std (stat_values c [r]) = 0) as Hstd.
  { intros c.
    apply (column_std_constant (val (stat_cell c r))); [discriminate|].
    repeat constructor. }
  split.
  { intros c. split; [apply Hstd|].
    rewrite (scaled_cell_stat c [r] r Hall) by apply list_elem_of_here.
    f_equal. apply zscore_std_zero, Hstd. }
  rewrite calcular_on_table by discriminate.
  assert (spec_score [r] r = 0) as Hs
    by (apply spec_score_all_constant, Hstd).
  do 2 f_equal. unfold ranked_table.
  rewrite (scores_spec _ Hall), (scored_complete _ Hall).
  cbn [map]. rewrite Hs.
  change (nargsort_desc [Some 0]) with [0%nat]. cbn [map nth].
  rewrite average_rank_single. reflexivity.
Qed.

(** C10.  Whatever the request for the statistics produced and whatever
    team codes are asked for: if the request raised, the fetcher returns
    the empty frame and shows the error; otherwise every row of the frame
    it returns has no missing cell in the eight selected columns and a team
    code among those asked for.  On a table of records the result is the
    table of the records without a missing cell (dropped first) whose team
    is asked for (filtered next), all of them complete. *)
Theorem C10_fetcher_filters (response : exn + DataFrame)
    (abreviaturas : list string) :
  (forall e, response = inl e ->
     obtener_datos_jugadores response abreviaturas
     = ([], ["Error en datos de jugadores: " ++ exn_str e]%string)) /\
  (let out := fst (obtener_datos_jugadores response abreviaturas) in
   (out = [] \/ map fst out = relevant_columns) /\
   forall i, (i < nrows out)%nat ->
     Forall (fun nc => notna_at i (snd nc) = true) out /\
     exists teams t,
       df_lookup out "TEAM_ABBREVIATION" = Some (ObjCol teams) /\
       teams !! i = Some (Some t) /\ In t abreviaturas) /\
  (forall stats rows,
     response = inr stats ->
     df_getitem_list stats relevant_columns = inr (stats_frame rows) ->
     let kept := List.filter (team_in abreviaturas)
                   (List.filter all_present rows) in
     obtener_datos_jugadores response abreviaturas = (stats_frame kept, []) /\
     Forall complete kept /\
     Forall (fun r => exists t, team r = Some t /\ In t abreviaturas) kept).
Proof.
  split; [|split].
  - intros e ->. reflexivity.
  - unfold obtener_datos_jugadores.
    destruct (obtener_datos_jugadores_try response abreviaturas)
      as [e|out] eqn:Htry; cbn [fst].
    + split; [left; reflexivity|]. intros i Hi. cbn in Hi. lia.
    + destruct response as [e|stats]; [discriminate|].
      destruct (obtener_datos_jugadores_rows _ _ _ Htry) as [Hcols Hrows].
      split; [right; exact Hcols|exact Hrows].
  - intros stats rows -> Hsel kept.
    split; [apply obtener_datos_jugadores_table, Hsel|].
    split; apply Forall_forall; intros r Hr;
      apply list_elem_of_In, filter_In in Hr as [Hr Hteam].
    + apply filter_In in Hr as [_ Hp]. apply all_present_complete, Hp.
    + apply team_in_In, Hteam.
Qed.

(** The fetcher on [league_response], asked for the teams LAL and BOS. *)
Example obtener_datos_jugadores_league :
  obtener_datos_jugadores (inr league_response) ["LAL"; "BOS"]
  = (stats_frame [player "A" "LAL" 20 0.5 0.8 5 0.4 2], []).
Proof.
  rewrite (obtener_datos_jugadores_table _ league_rows) by reflexivity.
  reflexivity.
Qed.

(** * The claims at given tables *)

(** C1 at the three players of the scenario. *)
Lemma C1_witness :
  three_players <> [] /\ Forall complete three_players /\
  (exists out,
     calcular_clutch_score_on (stats_frame three_players)
       = inr (clutch_frame out) /\
     Permutation (map (fun o => (c_name o, c_team o, clutch_score o)) out)
                 (map (fun r => (name r, team r,
                                 Some (spec_score three_players r)))
                      three_players)) /\
  (forall c r,
     column_std (stat_values c three_players) <> 0 ->
     z c three_players r
     = (val (stat_cell c r) - column_mean (stat_values c three_players))
       / column_std (stat_values c three_players)).
Proof.
  split; [discriminate|]. split; [exact three_players_complete|].
  apply (C1_score_is_weighted_sum three_players);
    [discriminate|exact three_players_complete].
Defined.

(** C2 (amended) at the three players of the scenario. *)
Lemma C2_witness :
  three_players <> [] /\ Forall complete three_players /\
  exists out,
    calcular_clutch_score_on (stats_frame three_players)
      = inr (clutch_frame out) /\
    Forall (fun o => exists s,
              clutch_score o = Some s /\
              clutch_rank o = Some (tie_average_rank out s) /\
              (count_equal s (table_scores out) = 1%nat ->
               clutch_rank o = Some (competition_rank out s))) out /\
    (forall a b, a ∈ out -> b ∈ out ->
       clutch_score a = clutch_score b -> clutch_rank a = clutch_rank b) /\
    (forall a b sa sb ra rb, a ∈ out -> b ∈ out ->
       clutch_score a = Some sa -> clutch_score b = Some sb ->
       clutch_rank a = Some ra -> clutch_rank b = Some rb ->
       sb < sa -> ra < rb).
Proof.
  split; [discriminate|]. split; [exact three_players_complete|].
  apply (C2_average_ranking three_players);
    [discriminate|exact three_players_complete].
Defined.

Lemma same_fg3_std_zero : column_std (stat_values FG3_PCT same_fg3_rows) = 0.
Proof.
  apply (column_std_constant 0.40); [discriminate|repeat constructor].
Defined.

(** C3 (amended) at three players with the same three-point percentage. *)
Lemma C3_witness :
  same_fg3_rows <> [] /\ Forall complete same_fg3_rows /\
  column_std (stat_values FG3_PCT same_fg3_rows) = 0 /\
  Forall (fun v => scale_of v <> 0) (stat_matrix same_fg3_rows) /\
  scale_of (map (stat_cell FG3_PCT) same_fg3_rows) = 1 /\
  scale_column (map (stat_cell FG3_PCT) same_fg3_rows)
    = map (fun _ => Some 0) same_fg3_rows /\
  (forall r, stat_weight FG3_PCT * z FG3_PCT same_fg3_rows r = 0) /\
  exists out,
    calcular_clutch_score_on (stats_frame same_fg3_rows)
      = inr (clutch_frame out) /\
    Permutation (map (fun o => (c_name o, c_team o, clutch_score o)) out)
                (map (fun r => (name r, team r,
                                Some (spec_score_without FG3_PCT same_fg3_rows r)))
                     same_fg3_rows).
Proof.
  split; [discriminate|]. split; [exact same_fg3_rows_complete|].
  split; [exact same_fg3_std_zero|].
  apply (C3_zero_std_column FG3_PCT same_fg3_rows);
    [discriminate|exact same_fg3_rows_complete|exact same_fg3_std_zero].
Defined.

(** C4 at the three players of the scenario. *)
Lemma C4_witness :
  three_players <> [] /\ Forall complete three_players /\
  exists out,
    calcular_clutch_score_on (stats_frame three_players)
      = inr (clutch_frame out) /\
    length out = length three_players /\
    Permutation (table_scores out)
                (map (spec_score three_players) three_players) /\
    forall i j a b,
      (i < j)%nat -> out !! i = Some a -> out !! j = Some b ->
      exists sa sb ra rb,
        clutch_score a = Some sa /\ clutch_score b = Some sb /\
        clutch_rank a = Some ra /\ clutch_rank b = Some rb /\
        sa >= sb /\ ra <= rb /\
        (sb < sa -> ra < rb) /\ (sa = sb -> ra = rb).
Proof.
  split; [discriminate|]. split; [exact three_players_complete|].
  apply (C4_sorted_descending three_players);
    [discriminate|exact three_players_complete].
Defined.

(** C6 (amended) at a table with a missing value. *)
Lemma C6_witness :
  rows_with_missing <> [] /\
  exists out,
    calcular_clutch_score_on (stats_frame rows_with_missing)
      = inr (clutch_frame out) /\
    length out = length rows_with_missing /\
    Permutation (map (fun o => (c_name o, c_team o, clutch_score o)) out)
                (map (fun r => (name r, team r, score_of rows_with_missing r))
                     rows_with_missing) /\
    (forall r, is_Some (score_of rows_with_missing r) <-> complete r) /\
    Forall (fun o => is_Some (clutch_rank o) <-> is_Some (clutch_score o)) out.
Proof.
  split; [discriminate|].
  apply (C6_missing_values_not_checked rows_with_missing). discriminate.
Defined.

(** C7 at the three players of the scenario. *)
Lemma C7_witness :
  three_players <> [] /\
  exists out,
    calcular_clutch_score_on (stats_frame three_players)
      = inr (clutch_frame out) /\
    length out = length three_players /\
    Permutation (map (fun o => (c_name o, c_team o)) out)
                (map (fun r => (name r, team r)) three_players).
Proof.
  split; [discriminate|].
  apply (C7_one_result_per_record three_players). discriminate.
Defined.

(** C8 at two stores that hold the table of the three players. *)
Lemma C8_witness :
  let d := stats_frame three_players in
  let s1 := [ODataFrame d] in
  let s2 := [ONdarray1 [Some 1]; ODataFrame d] in
  s1 !! 0%nat = Some (ODataFrame d) /\
  s2 !! 1%nat = Some (ODataFrame d) /\
  (exists ext, snd (calcular_clutch_score 0%nat s1) = s1 ++ ext) /\
  snd (calcular_clutch_score 0%nat s1) !! 0%nat = Some (ODataFrame d) /\
  outcome (calcular_clutch_score 0%nat s1)
    = outcome (calcular_clutch_score 1%nat s2) /\
  outcome (calcular_clutch_score 0%nat (snd (calcular_clutch_score 0%nat s1)))
    = outcome (calcular_clutch_score 0%nat s1).
Proof.
  intros d s1 s2.
  split; [reflexivity|]. split; [reflexivity|].
  apply (C8_deterministic_no_side_effect s1 s2 0%nat 1%nat d); reflexivity.
Defined.

(** C9 at a table with player A alone. *)
Lemma C9_witness :
  let a := player "A" "LAL" 30 0.50 0.80 5 0.35 3 in
  complete a /\
  (forall c, column_std (stat_values c [a]) = 0 /\
             scaled_cell (stat_cell c) [a] a = Some 0) /\
  calcular_clutch_score_on (stats_frame [a])
  = inr (clutch_frame [{| c_name := Some "A"; c_team := Some "LAL";
                          clutch_score := Some 0; clutch_rank := Some 1 |}]).
Proof.
  intros a. split; [apply complete_player|].
  apply (C9_single_record a), complete_player.
Defined.

(** * The dict of the games of the day *)

Section Dict.
Context {V : Type}.
Implicit Types (d : list (string * V)) (k : string) (v : V).

Lemma dict_get_set_eq d k v : dict_get (dict_set d k v) k = Some v.
Proof.
  induction d as [|[k' v'] d IH]; cbn.
  - rewrite String.eqb_refl. reflexivity.
  - destruct (String.eqb k' k) eqn:E; cbn; rewrite E; [reflexivity|exact IH].
Qed.

Lemma dict_get_set_ne d k k' v :
  k <> k' -> dict_get (dict_set d k v) k' = dict_get d k'.
Proof.
  intros Hne. induction d as [|[k0 v0] d IH]; cbn.
  - apply String.eqb_neq in Hne. rewrite Hne. reflexivity.
  - destruct (String.eqb k0 k) eqn:E; cbn.
    + apply String.eqb_eq in E as ->.
      apply String.eqb_neq in Hne. rewrite Hne. reflexivity.
    + destruct (String.eqb k0 k'); [reflexivity|exact IH].
Qed.

Lemma dict_keys_set_old d k v :
  k ∈ dict_keys d -> dict_keys (dict_set d k v) = dict_keys d.
Proof.
  unfold dict_keys. induction d as [|[k' v'] d IH]; cbn; intros Hin.
  - apply elem_of_nil in Hin as [].
  - destruct (String.eqb k' k) eqn:E; cbn; [reflexivity|].
    apply String.eqb_neq in E. f_equal. apply IH.
    apply elem_of_cons in Hin as [->|Hin]; [congruence|exact Hin].
Qed.

Lemma dict_keys_set_new d k v :
  k ∉ dict_keys d -> dict_keys (dict_set d k v) = dict_keys d ++ [k].
Proof.
  unfold dict_keys. induction d as [|[k' v'] d IH]; cbn; intros Hin.
  - reflexivity.
  - destruct (String.eqb k' k) eqn:E; cbn.
    + apply String.eqb_eq in E as ->. exfalso. apply Hin, list_elem_of_here.
    + f_equal. apply IH. intros H. apply Hin, list_elem_of_further, H.
Qed.

Lemma elem_of_dec_string k (l : list string) : k ∈ l \/ k ∉ l.
Proof.
  induction l as [|x l IH].
  - right. apply not_elem_of_nil.
  - destruct (String.eqb x k) eqn:E.
    + apply String.eqb_eq in E as ->. left. apply list_elem_of_here.
    + apply String.eqb_neq in E. destruct IH as [H|H].
      * left. apply list_elem_of_further, H.
      * right. intros H'. apply elem_of_cons in H' as [->|H']; [congruence|contradiction].
Qed.

Lemma dict_keys_set_NoDup d k v :
  NoDup (dict_keys d) -> NoDup (dict_keys (dict_set d k v)).
Proof.
  intros Hnd. destruct (elem_of_dec_string k (dict_keys d)) as [H|H].
  - rewrite dict_keys_set_old by exact H. exact Hnd.
  - rewrite dict_keys_set_new by exact H.
    apply NoDup_app. split; [exact Hnd|]. split; [|apply NoDup_singleton].
    intros x Hx Hx'. apply list_elem_of_singleton in Hx' as ->. contradiction.
Qed.

Lemma length_dict_set d k v :
  (length (dict_set d k v) <= S (length d))%nat.
Proof.
  induction d as [|[k' v'] d IH]; cbn; [lia|].
  destruct (String.eqb k' k); cbn; lia.
Qed.

Lemma elem_of_dict_set d k v k' v' :
  (k', v') ∈ dict_set d k v -> (k', v') ∈ d \/ (k' = k /\ v' = v).
Proof.
  induction d as [|[k0 v0] d IH]; cbn; intros Hin.
  - apply list_elem_of_singleton in Hin as [= -> ->]. right. split; reflexivity.
  - destruct (String.eqb k0 k) eqn:E.
    + apply String.eqb_eq in E as ->.
      apply elem_of_cons in Hin as [[= -> ->]|Hin].
      * right. split; reflexivity.
      * left. apply list_elem_of_further, Hin.
    + apply elem_of_cons in Hin as [[= -> ->]|Hin].
      * left. apply list_elem_of_here.
      * apply IH in Hin as [Hin|Hin]; [left; apply list_elem_of_further, Hin|right; exact Hin].
Qed.

Lemma dict_set_not_nil d k v : dict_set d k v <> [].
Proof. destruct d as [|[k' v'] d]; cbn; [discriminate|]. destruct (String.eqb k' k); discriminate. Qed.

Lemma head_dict_set d k v :
  d <> [] -> head (dict_keys (dict_set d k v)) = head (dict_keys d).
Proof.
  destruct d as [|[k' v'] d]; [congruence|]. intros _. cbn.
  destruct (String.eqb k' k); reflexivity.
Qed.
End Dict.

(** * [obtener_partidos] *)

Section PartidosFacts.
Context (find : Z -> option Team).

Lemma partido_de_known game h a :
  find (HOME_TEAM_ID game) = Some h ->
  find (VISITOR_TEAM_ID game) = Some a ->
  partido_de find game
  = inr ((nickname h ++ " vs " ++ nickname a)%string,
         {| home_abbrev := abbreviation h; away_abbrev := abbreviation a;
            status := GAME_STATUS_TEXT game |}).
Proof. intros Hh Ha. unfold partido_de. rewrite Hh, Ha. reflexivity. Qed.

Lemma partido_de_inv game k v :
  partido_de find game = inr (k, v) ->
  exists h a,
    find (HOME_TEAM_ID game) = Some h /\
    find (VISITOR_TEAM_ID game) = Some a /\
    k = (nickname h ++ " vs " ++ nickname a)%string /\
    v = {| home_abbrev := abbreviation h; away_abbrev := abbreviation a;
           status := GAME_STATUS_TEXT game |}.
Proof.
  unfold partido_de.
  destruct (find (HOME_TEAM_ID game)) as [h|]; [|discriminate].
  destruct (find (VISITOR_TEAM_ID game)) as [a|]; [|discriminate].
  cbn. intros [= <- <-]. exists h, a. repeat split; reflexivity.
Qed.

Lemma partido_de_unknown game :
  find (HOME_TEAM_ID game) = None \/ find (VISITOR_TEAM_ID game) = None ->
  partido_de find game
  = inl (TypeError "'NoneType' object is not subscriptable").
Proof.
  unfold partido_de. intros [H|H].
  - rewrite H. reflexivity.
  - rewrite H. destruct (find (HOME_TEAM_ID game)); reflexivity.
Qed.

Lemma partido_de_conocido game :
  conocido find game <-> exists kv, partido_de find game = inr kv.
Proof.
  split.
  - intros [[h Hh] [a Ha]]. eexists. apply (partido_de_known _ h a); assumption.
  - intros [[k v] H]. apply partido_de_inv in H as (h & a & Hh & Ha & _).
    split; eexists; eassumption.
Qed.

Lemma llenar_partidos_app l1 l2 d :
  llenar_partidos find (l1 ++ l2) d
  = match llenar_partidos find l1 d with
    | inl e => inl e
    | inr d1 => llenar_partidos find l2 d1
    end.
Proof.
  revert d. induction l1 as [|g l1 IH]; intros d; cbn; [reflexivity|].
  destruct (partido_de find g) as [e|[k v]]; [reflexivity|apply IH].
Qed.

Lemma llenar_partidos_fail games d :
  Exists (fun g => find (HOME_TEAM_ID g) = None \/
                   find (VISITOR_TEAM_ID g) = None) games ->
  llenar_partidos find games d
  = inl (TypeError "'NoneType' object is not subscriptable").
Proof.
  intros Hex. revert d. induction games as [|g games IH]; intros d.
  - apply Exists_nil in Hex as [].
  - cbn. destruct (partido_de find g) as [e|[k v]] eqn:Hg.
    + destruct (proj1 (Exists_cons _ _ _) Hex) as [H|H].
      * rewrite (partido_de_unknown g H) in Hg. congruence.
      * specialize (IH H d). clear Hex H.
        unfold partido_de in Hg.
        destruct (find (HOME_TEAM_ID g)); cbn in Hg;
          [destruct (find (VISITOR_TEAM_ID g)); cbn in Hg|]; congruence.
    + destruct (proj1 (Exists_cons _ _ _) Hex) as [H|H].
      * rewrite (partido_de_unknown g H) in Hg. discriminate.
      * apply IH, H.
Qed.

Lemma llenar_partidos_ok games d :
  Forall (conocido find) games ->
  exists p, llenar_partidos find games d = inr p.
Proof.
  intros Hall. revert d. induction Hall as [|g games Hg _ IH]; intros d; cbn.
  - eexists; reflexivity.
  - apply partido_de_conocido in Hg as [[k v] ->]. apply IH.
Qed.

Lemma llenar_partidos_conocidos games d p :
  llenar_partidos find games d = inr p -> Forall (conocido find) games.
Proof.
  revert d. induction games as [|g games IH]; intros d H; [constructor|].
  cbn in H. destruct (partido_de find g) as [e|[k v]] eqn:Hg; [discriminate|].
  constructor; [apply partido_de_conocido; eauto|eapply IH, H].
Qed.

Lemma llenar_partidos_entries games d p kv :
  llenar_partidos find games d = inr p -> kv ∈ p ->
  kv ∈ d \/ exists g, g ∈ games /\ partido_de find g = inr kv.
Proof.
  revert d. induction games as [|g games IH]; intros d H Hin; cbn in H.
  - injection H as <-. left. exact Hin.
  - destruct (partido_de find g) as [e|[k v]] eqn:Hg; [discriminate|].
    destruct (IH _ H Hin) as [Hd|(g' & Hg' & Hkv)].
    + destruct kv as [k' v'].
      apply elem_of_dict_set in Hd as [Hd|[-> ->]]; [left; exact Hd|].
      right. exists g. split; [apply list_elem_of_here|exact Hg].
    + right. exists g'. split; [apply list_elem_of_further, Hg'|exact Hkv].
Qed.

Lemma llenar_partidos_NoDup games d p :
  llenar_partidos find games d = inr p ->
  NoDup (dict_keys d) -> NoDup (dict_keys p).
Proof.
  revert d. induction games as [|g games IH]; intros d H Hnd; cbn in H.
  - injection H as <-. exact Hnd.
  - destruct (partido_de find g) as [e|[k v]]; [discriminate|].
    eapply IH; [exact H|]. apply dict_keys_set_NoDup, Hnd.
Qed.

Lemma llenar_partidos_length games d p :
  llenar_partidos find games d = inr p ->
  (length p <= length d + length games)%nat.
Proof.
  revert d. induction games as [|g games IH]; intros d H; cbn in H.
  - injection H as <-. lia.
  - destruct (partido_de find g) as [e|[k v]]; [discriminate|].
    apply IH in H. pose proof (length_dict_set d k v). cbn. lia.
Qed.

Lemma llenar_partidos_head games d p :
  llenar_partidos find games d = inr p -> d <> [] ->
  p <> [] /\ head (dict_keys p) = head (dict_keys d).
Proof.
  revert d. induction games as [|g games IH]; intros d H Hne; cbn in H.
  - injection H as <-. split; [exact Hne|reflexivity].
  - destruct (partido_de find g) as [e|[k v]]; [discriminate|].
    destruct (IH _ H (dict_set_not_nil d k v)) as [Hp Hh].
    split; [exact Hp|]. rewrite Hh. apply head_dict_set, Hne.
Qed.

Lemma llenar_partidos_get_other games d p k :
  llenar_partidos find games d = inr p ->
  (forall g k' v', g ∈ games -> partido_de find g = inr (k', v') -> k' <> k) ->
  dict_get p k = dict_get d k.
Proof.
  revert d. induction games as [|g games IH]; intros d H Hother; cbn in H.
  - injection H as <-. reflexivity.
  - destruct (partido_de find g) as [e|[k' v']] eqn:Hg; [discriminate|].
    rewrite (IH _ H).
    + apply dict_get_set_ne. eapply Hother; [apply list_elem_of_here|exact Hg].
    + intros g0 k0 v0 Hin. apply Hother, list_elem_of_further, Hin.
Qed.

End PartidosFacts.

(** * Sums of scores and of ranks *)

Lemma Rsum_perm l l' : Permutation l l' -> Rsum l = Rsum l'.
Proof.
  unfold Rsum. induction 1 as [|x l l' _ IH|x y l|l l' l'' _ IH1 _ IH2];
    cbn; lra.
Qed.

Lemma Rsum_map_const_zero {A} (l : list A) : Rsum (map (fun _ => 0) l) = 0.
Proof. unfold Rsum. induction l as [|a l IH]; cbn; lra. Qed.

Lemma Rsum_map_centered (m s : R) xs :
  Rsum (map (fun x => (x - m) / s) xs)
  = (Rsum xs - INR (length xs) * m) / s.
Proof.
  unfold Rsum. induction xs as [|x xs IH].
  - cbn. unfold Rdiv. lra.
  - cbn [map fold_right length]. rewrite IH, S_INR. unfold Rdiv. lra.
Qed.

(** The standardized values of a column sum to zero. *)
Lemma Rsum_zscore xs : Rsum (map (zscore xs) xs) = 0.
Proof.
  unfold zscore. destruct (decide (column_std xs = 0)) as [Hz|Hnz].
  - apply Rsum_map_const_zero.
  - rewrite Rsum_map_centered. unfold column_mean.
    destruct xs as [|x xs].
    + cbn. unfold Rdiv. lra.
    + assert (0 < INR (length (x :: xs))) by (apply lt_0_INR; cbn; lia).
      replace (Rsum (x :: xs) - INR (length (x :: xs))
                                * (Rsum (x :: xs) / INR (length (x :: xs))))
        with 0 by (field; lra).
      unfold Rdiv. lra.
Qed.

Lemma Rsum_z c rows : Rsum (map (z c rows) rows) = 0.
Proof.
  unfold z. rewrite <- (map_map (fun r => val (stat_cell c r))
                                (zscore (stat_values c rows))).
  apply Rsum_zscore.
Qed.

Lemma Rsum_spec_score rows : Rsum (map (spec_score rows) rows) = 0.
Proof.
  assert (forall l,
    Rsum (map (spec_score rows) l)
    = 0.35 * Rsum (map (z PTS rows) l) + 0.25 * Rsum (map (z FG_PCT rows) l)
      + 0.15 * Rsum (map (z FT_PCT rows) l) + 0.15 * Rsum (map (z AST rows) l)
      + 0.10 * Rsum (map (z FG3_PCT rows) l) - 0.25 * Rsum (map (z TOV rows) l))
    as Hlin.
  { unfold Rsum. induction l as [|r l IH]; cbn [map fold_right]; [lra|].
    rewrite IH. unfold spec_score. lra. }
  rewrite Hlin, !Rsum_z. lra.
Qed.

(** Counting pairs: twice the pairs in strict order plus the pairs of equal
    values make all the pairs. *)
Lemma count_pairs (l : list R) :
  (2 * sum_list (map (fun x => count_greater x l) l)
   + sum_list (map (fun x => count_equal x l) l)
   = length l * length l)%nat.
Proof.
  induction l as [|a l IH]; [reflexivity|].
  assert (forall (f g : R -> nat) (k : list R),
            sum_list (map (fun x => f x + g x)%nat k)
            = (sum_list (map f k) + sum_list (map g k))%nat) as Hplus.
  { intros f g k. induction k as [|x k IHk]; cbn; [reflexivity|].
    rewrite IHk. lia. }
  assert (forall (P : R -> Prop) `{!forall x, Decision (P x)} (k : list R),
            sum_list (map (fun x => if decide (P x) then 1 else 0)%nat k)
            = length (filter P k)) as Hind.
  { intros P HP k. induction k as [|x k IHk]; [reflexivity|].
    cbn [map sum_list]. rewrite filter_cons, IHk.
    destruct (decide (P x)); reflexivity. }
  assert (forall x, count_greater x (a :: l)
                    = ((if decide (x < a)%R then 1 else 0) + count_greater x l)%nat)
    as Hg.
  { intros x. unfold count_greater. rewrite filter_cons.
    destruct (decide (x < a)); reflexivity. }
  assert (forall x, count_equal x (a :: l)
                    = ((if decide (a = x) then 1 else 0) + count_equal x l)%nat)
    as He.
  { intros x. unfold count_equal. rewrite filter_cons.
    destruct (decide (a = x)); reflexivity. }
  cbn [map sum_list length].
  rewrite (map_ext _ _ Hg), (map_ext _ _ He), !Hplus, !Hind.
  rewrite Hg, He.
  destruct (decide (a < a)) as [H|_]; [lra|].
  destruct (decide (a = a)) as [_|H]; [|congruence].
  assert ((count_greater a l + length (filter (fun x => (x < a)%R) l)
           + count_equal a l)%nat = length l) as Htri.
  { unfold count_greater, count_equal. clear. induction l as [|x l IH]; [reflexivity|].
    rewrite !filter_cons.
    destruct (decide (a < x)), (decide (x < a)), (decide (x = a));
      cbn [length]; try lia; lra. }
  assert (length (filter (eq a) l) = count_equal a l) as Hsym.
  { unfold count_equal. clear. induction l as [|x l IH]; [reflexivity|].
    rewrite !filter_cons.
    destruct (decide (a = x)), (decide (x = a)); cbn [length]; congruence. }
  set (G := sum_list (map (fun x => count_greater x l) l)) in *.
  set (E := sum_list (map (fun x => count_equal x l) l)) in *.
  unfold Datatypes.id.
  rewrite Hsym. lia.
Qed.

Lemma Rsum_INR (l : list nat) : Rsum (map INR l) = INR (sum_list l).
Proof.
  unfold Rsum. induction l as [|n l IH]; cbn [map fold_right sum_list]; [reflexivity|].
  rewrite IH, plus_INR. reflexivity.
Qed.

(** Average ranks sum to [n (n + 1) / 2], like the ranks [1 .. n]. *)
Lemma Rsum_average_rank (vals : list R) :
  Rsum (map (fun x => average_rank x vals) vals)
  = INR (length vals) * (INR (length vals) + 1) / 2.
Proof.
  assert (forall l, Forall (fun x => x ∈ vals) l ->
            Rsum (map (fun x => average_rank x vals) l)
            = INR (sum_list (map (fun x => count_greater x vals) l))
              + INR (sum_list (map (fun x => count_equal x vals) l)) / 2
              + INR (length l) / 2) as Hsum.
  { unfold Rsum. induction 1 as [|x l Hx _ IH].
    - cbn. lra.
    - cbn [map fold_right sum_list length]. rewrite IH.
      rewrite (average_rank_closed x vals (count_equal_pos x vals Hx)).
      rewrite !plus_INR, S_INR.
      change (Datatypes.id (count_greater x vals)) with (count_greater x vals).
      change (Datatypes.id (count_equal x vals)) with (count_equal x vals).
      lra. }
  rewrite Hsum by (apply Forall_forall; auto).
  pose proof (count_pairs vals) as Hp. apply (f_equal INR) in Hp.
  rewrite plus_INR, !mult_INR in Hp. cbn [INR] in Hp. nra.
Qed.

Lemma table_ranks_ranked rows :
  Forall complete rows ->
  Permutation (table_ranks (ranked_table rows))
    (map (fun s => average_rank s (map (spec_score rows) rows))
         (map (spec_score rows) rows)).
Proof.
  intros Hall. unfold table_ranks, present.
  rewrite (ranked_table_perm rows), (scored_complete rows Hall), !map_map.
  cbn [clutch_rank].
  fold (present (map (fun r => Some (average_rank (spec_score rows r)
                                       (map (spec_score rows) rows))) rows)).
  rewrite present_somes. reflexivity.
Qed.

Lemma count_greater_equal_le x vals :
  (count_greater x vals + count_equal x vals <= length vals)%nat.
Proof.
  unfold count_greater, count_equal. induction vals as [|y l IH]; [cbn; lia|].
  rewrite !filter_cons.
  destruct (decide (x < y)), (decide (y = x)); cbn [length]; try lia; lra.
Qed.

Lemma average_rank_bounds x vals :
  x ∈ vals -> 1 <= average_rank x vals <= INR (length vals).
Proof.
  intros Hx. rewrite (average_rank_closed x vals (count_equal_pos x vals Hx)).
  pose proof (count_equal_pos x vals Hx) as Hk. apply le_INR in Hk.
  pose proof (count_greater_equal_le x vals) as Hle. apply le_INR in Hle.
  rewrite plus_INR in Hle. cbn [INR] in Hk.
  pose proof (pos_INR (count_greater x vals)). lra.
Qed.

Lemma average_rank_one x vals :
  x ∈ vals ->
  average_rank x vals = 1 <->
  count_greater x vals = 0%nat /\ count_equal x vals = 1%nat.
Proof.
  intros Hx. rewrite (average_rank_closed x vals (count_equal_pos x vals Hx)).
  pose proof (count_equal_pos x vals Hx) as Hk. apply le_INR in Hk.
  cbn [INR] in Hk.
  pose proof (pos_INR (count_greater x vals)) as Hg.
  split.
  - intros H.
    split; apply INR_eq; cbn [INR]; lra.
  - intros [-> ->]. cbn [INR]. lra.
Qed.


(** * The order of the records does not matter *)

Lemma present_perm (v v' : Vector) :
  Permutation v v' -> Permutation (present v) (present v').
Proof. intros H. unfold present. rewrite H. reflexivity. Qed.

Lemma nanmean_perm (v v' : Vector) : Permutation v v' -> nanmean v = nanmean v'.
Proof.
  intros H. apply present_perm in H. unfold nanmean.
  rewrite (Rsum_perm _ _ H), (Permutation_length H). reflexivity.
Qed.

Lemma nanvar_perm (v v' : Vector) : Permutation v v' -> nanvar v = nanvar v'.
Proof.
  intros H. unfold nanvar. rewrite (nanmean_perm _ _ H).
  apply present_perm in H.
  rewrite (Rsum_perm _ _ (Permutation_map _ H)), (Permutation_length H).
  reflexivity.
Qed.

Lemma scaled_cell_perm (col : PlayerStatRecord -> option R) rows rows' r :
  Permutation rows rows' -> scaled_cell col rows r = scaled_cell col rows' r.
Proof.
  intros H. unfold scaled_cell, scale_of.
  rewrite (nanmean_perm _ _ (Permutation_map col H)),
          (nanvar_perm _ _ (Permutation_map col H)). reflexivity.
Qed.

Lemma score_of_perm rows rows' r :
  Permutation rows rows' -> score_of rows r = score_of rows' r.
Proof.
  intros H. unfold score_of.
  rewrite (scaled_cell_perm pts _ _ r H), (scaled_cell_perm fg_pct _ _ r H),
          (scaled_cell_perm ft_pct _ _ r H), (scaled_cell_perm ast _ _ r H),
          (scaled_cell_perm fg3_pct _ _ r H), (scaled_cell_perm tov _ _ r H).
  reflexivity.
Qed.

Lemma scores_perm rows rows' :
  Permutation rows rows' -> Permutation (scores rows) (scores rows').
Proof.
  intros H. unfold scores.
  rewrite (map_ext _ _ (fun r => score_of_perm rows rows' r H)).
  apply Permutation_map, H.
Qed.

Lemma rank_of_perm (s s' : Vector) c :
  Permutation s s' -> rank_of s c = rank_of s' c.
Proof.
  intros H. destruct c as [x|]; [|reflexivity]. cbn. f_equal.
  apply average_rank_perm, present_perm, H.
Qed.

Lemma scored_perm rows rows' :
  Permutation rows rows' -> Permutation (scored rows) (scored rows').
Proof.
  intros H. unfold scored.
  rewrite (map_ext _
             (fun r => {| c_name := name r; c_team := team r;
                          clutch_score := score_of rows' r;
                          clutch_rank := rank_of (scores rows') (score_of rows' r) |})).
  - apply Permutation_map, H.
  - intros r. rewrite (score_of_perm rows rows' r H).
    rewrite (rank_of_perm _ _ _ (scores_perm rows rows' H)). reflexivity.
Qed.


(** * A statistic in another unit *)

Lemma present_option_map (f : R -> R) (v : Vector) :
  present (map (option_map f) v) = map f (present v).
Proof.
  unfold present. induction v as [|[x|] v IH]; cbn; [reflexivity| |exact IH].
  f_equal. exact IH.
Qed.

Lemma Rsum_map_affine (a b : R) xs :
  Rsum (map (fun x => a * x + b) xs) = a * Rsum xs + INR (length xs) * b.
Proof.
  unfold Rsum. induction xs as [|x xs IH]; [cbn; lra|].
  cbn [map fold_right length]. rewrite IH, S_INR. lra.
Qed.

Lemma column_mean_affine (a b : R) xs :
  xs <> [] ->
  column_mean (map (fun x => a * x + b) xs) = a * column_mean xs + b.
Proof.
  intros Hne. unfold column_mean. rewrite Rsum_map_affine, length_map.
  assert (0 < INR (length xs))
    by (apply lt_0_INR; destruct xs; [congruence|cbn; lia]).
  field. lra.
Qed.

Lemma Rsum_squares_affine (a b m : R) xs :
  Rsum (map (fun x => (a * x + b - (a * m + b)) ^ 2) xs)
  = a * a * Rsum (map (fun x => (x - m) ^ 2) xs).
Proof.
  unfold Rsum. induction xs as [|x xs IH]; cbn [map fold_right]; [lra|].
  rewrite IH. ring.
Qed.

Lemma column_std_affine (a b : R) xs :
  0 < a -> xs <> [] ->
  column_std (map (fun x => a * x + b) xs) = a * column_std xs.
Proof.
  intros Ha Hne. unfold column_std.
  rewrite (column_mean_affine a b xs Hne), map_map, length_map.
  rewrite Rsum_squares_affine.
  assert (0 < INR (length xs))
    by (apply lt_0_INR; destruct xs; [congruence|cbn; lia]).
  pose proof (Rsum_squares_nonneg (column_mean xs) xs) as Hn.
  set (q := Rsum (map (fun x => (x - column_mean xs) ^ 2) xs)) in *.
  replace (a * a * q / INR (length xs))
    with (a * a * (q / INR (length xs))) by (field; lra).
  rewrite sqrt_mult; [|nra|].
  - rewrite sqrt_square by lra. reflexivity.
  - apply Rmult_le_pos; [exact Hn|]. left. apply Rinv_0_lt_compat. lra.
Qed.

(** The standardized value of a cell does not depend on the unit of its
    column. *)
Lemma zscore_affine (a b : R) xs x :
  0 < a -> x ∈ xs ->
  zscore (map (fun x => a * x + b) xs) (a * x + b) = zscore xs x.
Proof.
  intros Ha Hin.
  assert (xs <> []) as Hne by (intros ->; apply elem_of_nil in Hin as []).
  unfold zscore.
  rewrite (column_std_affine a b xs Ha Hne), (column_mean_affine a b xs Hne).
  destruct (decide (column_std xs = 0)) as [Hz|Hnz].
  - rewrite Hz, Rmult_0_r.
    destruct (decide (0 = 0)); [reflexivity|contradiction].
  - destruct (decide (a * column_std xs = 0)) as [H0|_]; [nra|].
    field. split; lra.
Qed.

Lemma scaled_cell_present (col : PlayerStatRecord -> option R) rows r :
  r ∈ rows ->
  scaled_cell col rows r
  = option_map (zscore (present (map col rows))) (col r).
Proof.
  intros Hin. unfold scaled_cell.
  destruct (col r) as [x|] eqn:Hx; [|reflexivity].
  cbn [option_map]. apply transform_cell_zscore.
  unfold present. apply list_elem_of_omap. exists (Some x).
  split; [|reflexivity]. rewrite <- Hx. apply list_elem_of_fmap.
  exists r. split; [reflexivity|exact Hin].
Qed.

Lemma stat_cell_set_stat_eq c x r : stat_cell c (set_stat c x r) = x.
Proof. destruct c; reflexivity. Qed.

Lemma stat_cell_set_stat_ne c c' x r :
  c' <> c -> stat_cell c' (set_stat c x r) = stat_cell c' r.
Proof. destruct c, c'; intros H; try reflexivity; congruence. Qed.

Lemma scaled_cell_rescale c c' a b rows r :
  0 < a -> r ∈ rows ->
  scaled_cell (stat_cell c') (map (rescale c a b) rows) (rescale c a b r)
  = scaled_cell (stat_cell c') rows r.
Proof.
  intros Ha Hin.
  assert (rescale c a b r ∈ map (rescale c a b) rows) as Hin'
    by (apply list_elem_of_fmap; exists r; split; [reflexivity|exact Hin]).
  rewrite (scaled_cell_present _ _ _ Hin'), (scaled_cell_present _ _ _ Hin).
  rewrite map_map. unfold rescale.
  destruct (decide (c' = c)) as [->|Hne].
  - rewrite stat_cell_set_stat_eq.
    rewrite (map_ext _ (fun r => option_map (fun x => a * x + b) (stat_cell c r)))
      by (intros r0; apply stat_cell_set_stat_eq).
    rewrite <- (map_map (stat_cell c) (option_map (fun x => a * x + b))).
    rewrite present_option_map.
    destruct (stat_cell c r) as [x|] eqn:Hx; [|reflexivity].
    cbn [option_map]. f_equal. apply zscore_affine; [exact Ha|].
    unfold present. apply list_elem_of_omap. exists (Some x).
    split; [|reflexivity]. rewrite <- Hx. apply list_elem_of_fmap.
    exists r. split; [reflexivity|exact Hin].
  - rewrite (stat_cell_set_stat_ne c c' _ r Hne).
    rewrite (map_ext _ (stat_cell c'))
      by (intros r0; apply stat_cell_set_stat_ne, Hne).
    reflexivity.
Qed.

Lemma score_of_rescale c a b rows r :
  0 < a -> r ∈ rows ->
  score_of (map (rescale c a b) rows) (rescale c a b r) = score_of rows r.
Proof.
  intros Ha Hin. unfold score_of.
  pose proof (fun c' => scaled_cell_rescale c c' a b rows r Ha Hin) as Hc.
  pose proof (Hc PTS) as H1. pose proof (Hc FG_PCT) as H2.
  pose proof (Hc FT_PCT) as H3. pose proof (Hc AST) as H4.
  pose proof (Hc FG3_PCT) as H5. pose proof (Hc TOV) as H6.
  cbn [stat_cell] in H1, H2, H3, H4, H5, H6.
  rewrite H1, H2, H3, H4, H5, H6. reflexivity.
Qed.

Lemma scored_rescale c a b rows :
  0 < a -> scored (map (rescale c a b) rows) = scored rows.
Proof.
  intros Ha.
  assert (scores (map (rescale c a b) rows) = scores rows) as Hs.
  { unfold scores. rewrite map_map. apply map_ext_in. intros r Hin.
    apply score_of_rescale; [exact Ha|apply list_elem_of_In, Hin]. }
  unfold scored. rewrite Hs, map_map. apply map_ext_in. intros r Hin.
  rewrite (score_of_rescale c a b rows r Ha) by apply list_elem_of_In, Hin.
  reflexivity.
Qed.


(** * Rows without a score *)

Lemma nan_lookup (items : Vector) i :
  i ∈ omap nan_item (zip items (seq 0 (length items))) ->
  nth i items None = None.
Proof.
  intros Hin. apply list_elem_of_omap in Hin as ([o j] & Hin & Hs).
  apply elem_of_zip_seq in Hin as [_ Hl]. rewrite Nat.sub_0_r in Hl.
  unfold nan_item in Hs. cbn in Hs. destruct o as [y|]; [discriminate|].
  injection Hs as ->. rewrite nth_lookup, Hl. reflexivity.
Qed.

(** The keys along [nargsort_desc]: the sorted ones, then NaN. *)
Lemma nargsort_desc_keys_nan (items : Vector) :
  map (fun i => nth i items None) (nargsort_desc items)
  = map (fun p => Some (fst p)) (sorted_keys items)
    ++ map (fun _ => None)
           (omap nan_item (zip items (seq 0 (length items)))).
Proof.
  unfold nargsort_desc, sorted_keys. rewrite map_app. f_equal.
  - rewrite <- map_rev, map_map.
    apply map_ext_in. intros [x i] Hin. cbn.
    apply non_nan_lookup. apply list_elem_of_In.
    apply in_rev in Hin.
    apply (Permutation_in _ (argsort_perm _)) in Hin.
    apply in_rev in Hin. exact Hin.
  - apply map_ext_in. intros i Hin. apply nan_lookup, list_elem_of_In, Hin.
Qed.

Lemma scored_rank_iff rows o :
  o ∈ scored rows -> clutch_score o = None -> clutch_rank o = None.
Proof.
  unfold scored. intros Hin Hs.
  apply list_elem_of_fmap in Hin as (r & -> & _). cbn in *.
  rewrite Hs. reflexivity.
Qed.


(** * The engine on any frame *)

Lemma length_nargsort_desc items :
  length (nargsort_desc items) = length items.
Proof.
  rewrite (Permutation_length (nargsort_desc_perm items)). apply length_seq.
Qed.

Lemma as_float_inv c v : as_float c = inr v -> c = FloatCol v.
Proof. destruct c; cbn; congruence. Qed.


(** * The first rows of the result *)

Lemma take_map {A B} (f : A -> B) n (l : list A) :
  take n (map f l) = map f (take n l).
Proof.
  revert n. induction l as [|a l IH]; intros [|n]; cbn; try reflexivity.
  f_equal. apply IH.
Qed.

Lemma df_head_clutch_frame n out :
  df_head n (clutch_frame out) = clutch_frame (take n out).
Proof.
  unfold df_head, clutch_frame. cbn [map fst snd head_col].
  rewrite !take_map. reflexivity.
Qed.

Lemma nrows_clutch_frame out : nrows (clutch_frame out) = length out.
Proof. cbn. apply length_map. Qed.

Lemma nrows_stats_frame rows : nrows (stats_frame rows) = length rows.
Proof. cbn. apply length_map. Qed.

Lemma df_empty_stats_frame rows :
  df_empty (stats_frame rows) = match rows with [] => true | _ => false end.
Proof. unfold df_empty. rewrite nrows_stats_frame. destruct rows; reflexivity. Qed.

Lemma df_getitem_list_missing (d : DataFrame) names k :
  In k names -> df_lookup d k = None ->
  exists k', df_getitem_list d names = inl (KeyError k').
Proof.
  intros Hin Hk. induction names as [|n names IH]; [destruct Hin|].
  cbn. destruct (df_lookup d n) eqn:Hn; [|eexists; reflexivity].
  destruct Hin as [->|Hin]; [congruence|].
  destruct (IH Hin) as [k' ->]. eexists; reflexivity.
Qed.


(** * The record ranked first *)

Lemma count_cons x y l :
  count_greater x (y :: l)
  = ((if decide (x < y)%R then 1 else 0) + count_greater x l)%nat /\
  count_equal x (y :: l)
  = ((if decide (y = x) then 1 else 0) + count_equal x l)%nat.
Proof.
  unfold count_greater, count_equal. rewrite !filter_cons.
  split; [destruct (decide (x < y))|destruct (decide (y = x))]; reflexivity.
Qed.

Lemma count_none_iff x l :
  count_greater x l = 0%nat /\ count_equal x l = 0%nat
  <-> Forall (fun y => y < x) l.
Proof.
  induction l as [|y l IH].
  - split; [constructor|]. intros _. split; reflexivity.
  - destruct (count_cons x y l) as [-> ->]. rewrite Forall_cons, <- IH.
    destruct (decide (x < y)) as [Hxy|Hxy], (decide (y = x)) as [Hyx|Hyx];
      (split; [intros [H1 H2]|intros [Hy [H1 H2]]]);
      try (exfalso; cbn in *; lia); try (exfalso; lra).
    + split; [lra|]. cbn in H1, H2. split; assumption.
    + cbn. split; assumption.
Qed.

(** A value of a list has no value above it and no equal beside it exactly
    when every other position holds a smaller one. *)
Lemma rank_one_strict l i x :
  l !! i = Some x ->
  count_greater x l = 0%nat /\ count_equal x l = 1%nat
  <-> forall j y, j <> i -> l !! j = Some y -> y < x.
Proof.
  revert i. induction l as [|y l IH]; intros i Hi; [discriminate|].
  destruct (count_cons x y l) as [-> ->].
  destruct i as [|i]; cbn in Hi.
  - injection Hi as ->.
    destruct (decide (x < x)) as [H|_]; [lra|].
    destruct (decide (x = x)) as [_|H]; [|congruence].
    cbn [Nat.add].
    assert (count_greater x l = 0%nat /\ S (count_equal x l) = 1%nat
            <-> count_greater x l = 0%nat /\ count_equal x l = 0%nat) as ->
      by lia.
    rewrite count_none_iff, Forall_lookup. split.
    + intros H [|j] y Hj Hy; [congruence|]. exact (H j y Hy).
    + intros H j y Hy. apply (H (S j) y); [discriminate|exact Hy].
  - specialize (IH i Hi).
    assert (x ∈ l) as Hin by (eapply list_elem_of_lookup_2, Hi).
    pose proof (count_equal_pos x l Hin) as Hpos.
    destruct (decide (x < y)) as [Hxy|Hxy].
    { split; [intros [H _]; discriminate H|].
      intros H. specialize (H 0%nat y ltac:(discriminate) eq_refl). lra. }
    destruct (decide (y = x)) as [Hyx|Hyx].
    { split; [intros [_ H]; cbn in H; lia|].
      intros H. specialize (H 0%nat y ltac:(discriminate) eq_refl). lra. }
    cbn [Nat.add]. rewrite IH. split.
    + intros H [|j] z Hj Hz; cbn in Hz.
      * injection Hz as <-. lra.
      * apply (H j z); [congruence|exact Hz].
    + intros H j z Hj Hz. apply (H (S j) z); [congruence|exact Hz].
Qed.

Lemma color_del_rank_green x :
  (color_del_rank x = "color: green" \/ color_del_rank x = "") /\
  (color_del_rank x = "color: green" <-> x = Some 1).
Proof.
  unfold color_del_rank. destruct x as [r|]; [destruct (decide (r = 1))|].
  - subst. split; [left; reflexivity|]. split; reflexivity.
  - split; [right; reflexivity|]. split; [discriminate|]. intros [= H]. contradiction.
  - split; [right; reflexivity|]. split; discriminate.
Qed.

(** The scores of the result for complete records, position by position. *)
Lemma scores_ranked_table rows :
  Forall complete rows ->
  map clutch_score (ranked_table rows) = map Some (table_scores (ranked_table rows)).
Proof.
  intros Hall. unfold table_scores.
  assert (Forall (fun o => is_Some (clutch_score o)) (ranked_table rows)) as H.
  { apply Forall_forall. intros o Ho.
    destruct (ranked_row_complete rows o Hall Ho) as (r & _ & _ & _ & Hs & _).
    rewrite Hs. eexists; reflexivity. }
  induction H as [|o l [s Hs] _ IH]; [reflexivity|].
  cbn. rewrite Hs. cbn. f_equal. exact IH.
Qed.

Lemma table_scores_lookup rows i s :
  Forall complete rows ->
  table_scores (ranked_table rows) !! i = Some s
  <-> exists o, ranked_table rows !! i = Some o /\ clutch_score o = Some s.
Proof.
  intros Hall.
  pose proof (lookup_map clutch_score (ranked_table rows) i) as H1.
  rewrite (scores_ranked_table rows Hall), lookup_map in H1.
  split.
  - intros Hs. rewrite Hs in H1. cbn in H1.
    destruct (ranked_table rows !! i) as [o|]; [|discriminate].
    exists o. split; [reflexivity|]. cbn in H1. congruence.
  - intros (o & Ho & Hs). rewrite Ho in H1. cbn in H1. rewrite Hs in H1.
    destruct (table_scores (ranked_table rows) !! i); cbn in H1; congruence.
Qed.

Lemma length_table_scores rows :
  Forall complete rows ->
  length (table_scores (ranked_table rows)) = length rows.
Proof.
  intros Hall. rewrite <- (length_map Some), <- scores_ranked_table by exact Hall.
  rewrite length_map. apply length_ranked_table.
Qed.

Lemma table_scores_sorted rows i j x y :
  Forall complete rows ->
  table_scores (ranked_table rows) !! i = Some x ->
  table_scores (ranked_table rows) !! j = Some y ->
  (i < j)%nat -> y <= x.
Proof.
  intros Hall Hi Hj Hlt.
  apply (table_scores_lookup rows i x Hall) in Hi as (a & Ha & Hsa).
  apply (table_scores_lookup rows j y Hall) in Hj as (b & Hb & Hsb).
  destruct (ranked_table_sorted rows i j a b Hall Ha Hb Hlt)
    as (sa & sb & Hsa' & Hsb' & Hle).
  congruence.
Qed.

Lemma applymap_rank_head n out :
  applymap_rank (df_head n (clutch_frame out)) "CLUTCH_RANK"
  = map (fun o => color_del_rank (clutch_rank o)) (take n out).
Proof.
  unfold applymap_rank, df_head, clutch_frame. cbn.
  rewrite <- fmap_take. rewrite map_map. reflexivity.
Qed.

(** The rank of a row of the result is 1 exactly when its score is greater
    than the score at every other position. *)
Lemma ranked_row_rank_one rows i o :
  Forall complete rows -> ranked_table rows !! i = Some o ->
  exists s, table_scores (ranked_table rows) !! i = Some s /\
    (clutch_rank o = Some 1 <->
     forall j y, j <> i -> table_scores (ranked_table rows) !! j = Some y ->
                 y < s).
Proof.
  intros Hall Ho.
  assert (o ∈ ranked_table rows) as Hin by (eapply list_elem_of_lookup_2, Ho).
  destruct (ranked_row_complete rows o Hall Hin) as (r & Hr & _ & _ & Hs & Hk).
  exists (spec_score rows r).
  assert (table_scores (ranked_table rows) !! i = Some (spec_score rows r)) as Hi
    by (apply table_scores_lookup; eauto).
  split; [exact Hi|].
  rewrite Hk, <- (rank_one_strict _ _ _ Hi).
  assert (spec_score rows r ∈ map (spec_score rows) rows) as Hin'
    by (apply list_elem_of_fmap; exists r; split; [reflexivity|exact Hr]).
  pose proof (table_scores_ranked rows Hall) as Hp.
  pose proof (average_rank_one _ _ Hin') as Hone.
  unfold count_greater, count_equal in Hone |- *. rewrite Hp, <- Hone.
  split; [intros [= H]; exact H|intros ->; reflexivity].
Qed.

(** * The page *)

Lemma dict_get_Some_elem {V} (d : list (string * V)) k v :
  dict_get d k = Some v -> (k, v) ∈ d.
Proof.
  induction d as [|[k' v'] d IH]; cbn; [discriminate|].
  destruct (String.eqb k' k) eqn:E.
  - apply String.eqb_eq in E as ->. intros [= ->]. apply list_elem_of_here.
  - intros H. apply list_elem_of_further, IH, H.
Qed.

Lemma dict_get_key {V} (d : list (string * V)) k :
  k ∈ dict_keys d -> is_Some (dict_get d k).
Proof.
  unfold dict_keys. induction d as [|[k' v'] d IH]; cbn; intros Hin.
  - apply elem_of_nil in Hin as [].
  - destruct (String.eqb k' k) eqn:E; [eexists; reflexivity|].
    apply String.eqb_neq in E.
    apply elem_of_cons in Hin as [Hin|Hin]; [congruence|]. apply IH, Hin.
Qed.

(** The messages of [obtener_partidos]: one when the dict is empty, none
    otherwise. *)
Lemma obtener_partidos_avisos find response :
  match fst (obtener_partidos find response) with
  | [] => snd (obtener_partidos find response)
          = [StWarning "No hay partidos programados para hoy."] \/
          exists t, snd (obtener_partidos find response)
                    = [StError ("Error al obtener partidos: " ++ t)]
  | _ => snd (obtener_partidos find response) = []
  end.
Proof.
  unfold obtener_partidos.
  destruct response as [e|[|g games]]; cbn [fst snd].
  - right. eexists; reflexivity.
  - left. reflexivity.
  - destruct (llenar_partidos find (g :: games) []) as [e|p] eqn:Hp; cbn [fst snd].
    + right. eexists; reflexivity.
    + destruct p; [|reflexivity]. exfalso.
      cbn in Hp. destruct (partido_de find g) as [e|[k v]]; [discriminate|].
      destruct games as [|g' games'].
      * cbn in Hp. discriminate.
      * apply (llenar_partidos_head find _ _ _ Hp); [discriminate|reflexivity].
Qed.

Lemma obtener_partidos_item find response k v :
  (k, v) ∈ fst (obtener_partidos find response) ->
  exists games g h a,
    response = inr games /\ g ∈ games /\
    find (HOME_TEAM_ID g) = Some h /\ find (VISITOR_TEAM_ID g) = Some a /\
    k = (nickname h ++ " vs " ++ nickname a)%string /\
    v = {| home_abbrev := abbreviation h; away_abbrev := abbreviation a;
           status := GAME_STATUS_TEXT g |}.
Proof.
  unfold obtener_partidos.
  destruct response as [e|[|g0 games]]; cbn [fst];
    try (intros H; apply elem_of_nil in H as []).
  destruct (llenar_partidos find (g0 :: games) []) as [e|p] eqn:Hp; cbn [fst];
    [intros H; apply elem_of_nil in H as []|].
  intros Hin.
  destruct (llenar_partidos_entries find _ _ _ _ Hp Hin) as [H|(g & Hg & Hkv)];
    [apply elem_of_nil in H as []|].
  apply partido_de_inv in Hkv as (h & a & Hh & Ha & -> & ->).
  exists (g0 :: games), g, h, a. repeat split; assumption.
Qed.

(** The first tab for a typed response of the statistics service. *)
Lemma analisis_del_partido_table env partidos abreviaturas stats rows :
  partidos <> [] ->
  player_stats env = inr stats ->
  df_getitem_list stats relevant_columns = inr (stats_frame rows) ->
  analisis_del_partido env partidos abreviaturas
  = (match List.filter (team_in abreviaturas) (List.filter all_present rows) with
     | [] => []
     | kept =>
         eventos_antes_del_clutch ++
         eventos_del_clutch (stats_frame kept)
           (clutch_frame (take 5 (ranked_table kept)))
     end, None).
Proof.
  intros Hne Hstats Hsel. unfold analisis_del_partido.
  destruct partidos as [|p partidos]; [congruence|].
  rewrite Hstats, (obtener_datos_jugadores_table _ _ _ Hsel).
  rewrite df_empty_stats_frame.
  destruct (List.filter _ _) as [|r kept] eqn:Hk; [reflexivity|].
  rewrite calcular_on_table by discriminate.
  rewrite df_head_clutch_frame. reflexivity.
Qed.

Lemma obtener_partidos_conocidos find games :
  games <> [] -> Forall (conocido find) games ->
  exists p, p <> [] /\ obtener_partidos find (inr games) = (p, []).
Proof.
  intros Hne Hall.
  destruct (llenar_partidos_ok find games [] Hall) as [p Hp].
  pose proof (obtener_partidos_avisos find (inr games)) as Ha.
  unfold obtener_partidos in *.
  destruct games as [|g games]; [congruence|]. rewrite Hp in *.
  cbn [fst snd] in Ha. exists p. split; [|reflexivity].
  destruct p; [|discriminate]. destruct Ha as [Ha|[t Ha]]; discriminate.
Qed.

Lemma sin_error_final_app l1 l2 :
  sin_error_final l1 -> sin_error_final l2 -> sin_error_final (l1 ++ l2).
Proof. intros H1 H2. apply Forall_app. split; assumption. Qed.

Lemma sin_error_final_cons ev l :
  snd ev <> error "No hay partidos programados para hoy" ->
  sin_error_final l -> sin_error_final (ev :: l).
Proof. intros H1 H2. apply Forall_cons. split; assumption. Qed.

Lemma sin_error_final_analisis env partidos abreviaturas :
  sin_error_final (fst (analisis_del_partido env partidos abreviaturas)).
Proof.
  unfold analisis_del_partido.
  destruct partidos as [|p partidos]; [constructor|].
  assert (sin_error_final
            (mostrar_errores [Tab 0%nat]
               (snd (obtener_datos_jugadores (player_stats env) abreviaturas))))
    as Herr.
  { unfold obtener_datos_jugadores.
    destruct (obtener_datos_jugadores_try _ _); cbn [snd mostrar_errores map];
      repeat constructor. cbn. discriminate. }
  destruct (obtener_datos_jugadores (player_stats env) abreviaturas)
    as [jugadores errores].
  cbn [snd] in Herr.
  assert (sin_error_final eventos_antes_del_clutch) as Hantes
    by (repeat constructor; discriminate).
  destruct (df_empty jugadores); [exact Herr|].
  destruct (calcular_clutch_score_on jugadores) as [e|df_clutch]; cbn [fst].
  - apply sin_error_final_app; assumption.
  - repeat apply sin_error_final_app; try assumption.
    repeat constructor; discriminate.
Qed.

Lemma sin_error_final_script env : sin_error_final (script env).
Proof.
  unfold script.
  pose proof (obtener_partidos_avisos (find_team env) (scoreboard env)) as Ha.
  destruct (obtener_partidos (find_team env) (scoreboard env))
    as [partidos avisos].
  cbn [fst snd] in Ha.
  apply sin_error_final_app; [repeat constructor; discriminate|].
  destruct partidos as [|p partidos].
  - destruct Ha as [->|[t ->]]; repeat constructor; cbn; discriminate.
  - rewrite Ha. cbn [mostrar_avisos map app].
    apply sin_error_final_cons; [discriminate|].
    destruct (dict_get _ _) as [info|];
      [|repeat constructor; discriminate].
    apply sin_error_final_cons; [discriminate|].
    pose proof (sin_error_final_analisis env (p :: partidos)
                  [home_abbrev info; away_abbrev info]) as Han.
    destruct (analisis_del_partido _ _ _) as [eventos [e|]]; cbn [fst] in Han.
    + apply sin_error_final_app; [exact Han|]. repeat constructor; discriminate.
    + apply sin_error_final_app; [exact Han|].
      rewrite app_nil_r. repeat constructor; discriminate.
Qed.


(** * Properties of [obtener_partidos] *)

(** X1.  All or nothing: when a team of some game of the day is not in the
    team table, subscripting [None] raises inside the loop, the games
    already entered are lost, and the function returns the empty dict with
    one error message. *)
Theorem X1_partidos_unknown_team_loses_all
    (find : Z -> option Team) (games : list Game) :
  Exists (fun g => find (HOME_TEAM_ID g) = None \/
                   find (VISITOR_TEAM_ID g) = None) games ->
  obtener_partidos find (inr games)
  = ([], [StError "Error al obtener partidos: 'NoneType' object is not subscriptable"]).
Proof.
  intros Hex. unfold obtener_partidos.
  destruct games as [|g games]; [apply Exists_nil in Hex as []|].
  rewrite (llenar_partidos_fail find _ _ Hex). reflexivity.
Qed.

(** X2.  The dict returned is not empty exactly when the request succeeded
    with at least one game and every team of every game is in the team
    table; then nothing is shown.  Otherwise the dict is empty and exactly
    one message is shown, which is the warning exactly when the day has no
    game, and an error that starts with ["Error al obtener partidos: "] in
    the other cases. *)
Theorem X2_partidos_nonempty_iff
    (find : Z -> option Team) (response : exn + list Game) :
  (fst (obtener_partidos find response) <> [] <->
   exists games, response = inr games /\ games <> [] /\
                 Forall (conocido find) games) /\
  (fst (obtener_partidos find response) <> [] ->
   snd (obtener_partidos find response) = []) /\
  (fst (obtener_partidos find response) = [] ->
   exists m, snd (obtener_partidos find response) = [m] /\
     (m = StWarning "No hay partidos programados para hoy." <->
      response = inr []) /\
     (response <> inr [] ->
      exists t, m = StError ("Error al obtener partidos: " ++ t))).
Proof.
  unfold obtener_partidos.
  destruct response as [e|[|g games]]; cbn [fst snd].
  - split; [|split].
    + split; [congruence|]. intros (games & H & _). discriminate.
    + congruence.
    + intros _. eexists. split; [reflexivity|].
      split; [split; discriminate|]. intros _. eexists. reflexivity.
  - split; [|split].
    + split; [congruence|]. intros (games & [= <-] & H & _). congruence.
    + congruence.
    + intros _. eexists. split; [reflexivity|].
      split; [split; reflexivity|]. intros H. congruence.
  - destruct (llenar_partidos find (g :: games) []) as [e|p] eqn:Hp; cbn [fst snd].
    + split; [|split].
      * split; [congruence|]. intros (games' & [= <-] & _ & Hall).
        destruct (llenar_partidos_ok find _ [] Hall) as [p Hp']. congruence.
      * congruence.
      * intros _. eexists. split; [reflexivity|].
        split; [split; discriminate|]. intros _. eexists. reflexivity.
    + assert (p <> []) as Hne.
      { cbn in Hp. destruct (partido_de find g) as [e|[k v]]; [discriminate|].
        destruct games as [|g' games'].
        - cbn in Hp. injection Hp as <-. discriminate.
        - apply (llenar_partidos_head find _ _ _ Hp). discriminate. }
      split; [|split].
      * split; [|intros _; exact Hne].
        intros _. exists (g :: games). split; [reflexivity|].
        split; [discriminate|]. eapply llenar_partidos_conocidos, Hp.
      * reflexivity.
      * congruence.
Qed.

(** X3.  Every item of the dict returned is the item of a game of the day:
    its key is the nickname of the home team, [" vs "] and the nickname of
    the visiting team; its value holds the abbreviations of the two teams,
    as the team table gives them, and the status text of that game. *)
Theorem X3_partidos_items_from_games
    (find : Z -> option Team) (response : exn + list Game)
    (k : string) (v : Partido) :
  (k, v) ∈ fst (obtener_partidos find response) ->
  exists games g h a,
    response = inr games /\ g ∈ games /\
    find (HOME_TEAM_ID g) = Some h /\ find (VISITOR_TEAM_ID g) = Some a /\
    k = (nickname h ++ " vs " ++ nickname a)%string /\
    v = {| home_abbrev := abbreviation h; away_abbrev := abbreviation a;
           status := GAME_STATUS_TEXT g |}.
Proof.
  unfold obtener_partidos.
  destruct response as [e|[|g0 games]]; cbn [fst];
    try (intros H; apply elem_of_nil in H as []).
  destruct (llenar_partidos find (g0 :: games) []) as [e|p] eqn:Hp; cbn [fst];
    [intros H; apply elem_of_nil in H as []|].
  intros Hin.
  destruct (llenar_partidos_entries find _ _ _ _ Hp Hin) as [H|(g & Hg & Hkv)];
    [apply elem_of_nil in H as []|].
  apply partido_de_inv in Hkv as (h & a & Hh & Ha & -> & ->).
  exists (g0 :: games), g, h, a. repeat split; assumption.
Qed.

(** X4.  Looking a game up: when every team is known, the key of a game of
    the day is in the dict, and its value is that of the last game of the
    day with this key (a later game with the same two nicknames replaces
    an earlier one). *)
Theorem X4_partidos_lookup_last_wins
    (find : Z -> option Team) (before after : list Game) (g : Game)
    (k : string) (v : Partido) :
  Forall (conocido find) (before ++ g :: after) ->
  partido_de find g = inr (k, v) ->
  (forall g' k' v', g' ∈ after -> partido_de find g' = inr (k', v') -> k' <> k) ->
  dict_get (fst (obtener_partidos find (inr (before ++ g :: after)))) k = Some v.
Proof.
  intros Hall Hg Hlast. unfold obtener_partidos.
  destruct (llenar_partidos_ok find _ [] Hall) as [p Hp].
  destruct (before ++ g :: after) as [|g0 rest] eqn:Hl;
    [destruct before; discriminate|].
  rewrite <- Hl in *. rewrite Hp. cbn [fst].
  rewrite llenar_partidos_app in Hp.
  destruct (llenar_partidos find before []) as [e|d1]; [discriminate|].
  cbn in Hp. rewrite Hg in Hp.
  rewrite (llenar_partidos_get_other find _ _ _ k Hp Hlast).
  apply dict_get_set_eq.
Qed.

(** X5.  The keys of the dict returned are distinct, there are at most as
    many as games of the day, and when every team is known the first key,
    which the select box offers first, is that of the first game. *)
Theorem X5_partidos_keys
    (find : Z -> option Team) (response : exn + list Game) :
  NoDup (dict_keys (fst (obtener_partidos find response))) /\
  (forall games, response = inr games ->
     (length (fst (obtener_partidos find response)) <= length games)%nat) /\
  (forall g rest k v,
     response = inr (g :: rest) -> Forall (conocido find) (g :: rest) ->
     partido_de find g = inr (k, v) ->
     head (dict_keys (fst (obtener_partidos find response))) = Some k).
Proof.
  unfold obtener_partidos. split; [|split].
  - destruct response as [e|[|g games]]; cbn [fst]; try apply NoDup_nil_2.
    destruct (llenar_partidos find (g :: games) []) as [e|p] eqn:Hp; cbn [fst];
      [apply NoDup_nil_2|].
    eapply llenar_partidos_NoDup; [exact Hp|apply NoDup_nil_2].
  - intros games ->. destruct games as [|g games]; cbn [fst]; [cbn; lia|].
    destruct (llenar_partidos find (g :: games) []) as [e|p] eqn:Hp; cbn [fst];
      [cbn; lia|].
    apply llenar_partidos_length in Hp. cbn in Hp. cbn. lia.
  - intros g rest k v -> Hall Hg.
    destruct (llenar_partidos_ok find _ [] Hall) as [p Hp]. rewrite Hp.
    cbn [fst]. cbn in Hp. rewrite Hg in Hp.
    destruct rest as [|g' rest'].
    + cbn in Hp. injection Hp as <-. reflexivity.
    + apply llenar_partidos_head in Hp as [_ ->]; [reflexivity|discriminate].
Qed.

(** * The properties at a day with one game *)

Lemma un_partido_conocido : Forall (conocido dos_equipos) un_partido.
Proof. repeat constructor; eexists; reflexivity. Defined.

(** X1 at a game against a team that is not in the table. *)
Lemma X1_witness :
  let games := [{| HOME_TEAM_ID := 1; VISITOR_TEAM_ID := 3;
                   GAME_STATUS_TEXT := "Final" |}] in
  Exists (fun g => dos_equipos (HOME_TEAM_ID g) = None \/
                   dos_equipos (VISITOR_TEAM_ID g) = None) games /\
  obtener_partidos dos_equipos (inr games)
  = ([], [StError "Error al obtener partidos: 'NoneType' object is not subscriptable"]).
Proof.
  intros games.
  assert (Exists (fun g => dos_equipos (HOME_TEAM_ID g) = None \/
                           dos_equipos (VISITOR_TEAM_ID g) = None) games) as H
    by (apply Exists_cons_hd; right; reflexivity).
  split; [exact H|].
  apply (X1_partidos_unknown_team_loses_all dos_equipos games H).
Defined.

(** X3 at the game Lakers against Celtics. *)
Lemma X3_witness :
  let v := {| home_abbrev := "LAL"; away_abbrev := "BOS";
              status := "7:30 pm ET" |} in
  ("Lakers vs Celtics", v) ∈ fst (obtener_partidos dos_equipos (inr un_partido)) /\
  exists games g h a,
    (inr un_partido : exn + list Game) = inr games /\ g ∈ games /\
    dos_equipos (HOME_TEAM_ID g) = Some h /\
    dos_equipos (VISITOR_TEAM_ID g) = Some a /\
    "Lakers vs Celtics" = (nickname h ++ " vs " ++ nickname a)%string /\
    v = {| home_abbrev := abbreviation h; away_abbrev := abbreviation a;
           status := GAME_STATUS_TEXT g |}.
Proof.
  intros v.
  assert (("Lakers vs Celtics", v)
            ∈ fst (obtener_partidos dos_equipos (inr un_partido))) as H
    by apply list_elem_of_here.
  split; [exact H|].
  apply (X3_partidos_items_from_games dos_equipos (inr un_partido) _ v H).
Defined.

(** X4 at a day on which the game Lakers against Celtics is listed twice:
    the status of the second listing is the one kept. *)
Lemma X4_witness :
  let g1 := {| HOME_TEAM_ID := 1; VISITOR_TEAM_ID := 2;
               GAME_STATUS_TEXT := "7:30 pm ET" |} in
  let g2 := {| HOME_TEAM_ID := 1; VISITOR_TEAM_ID := 2;
               GAME_STATUS_TEXT := "Final" |} in
  let v := {| home_abbrev := "LAL"; away_abbrev := "BOS";
              status := "Final" |} in
  Forall (conocido dos_equipos) ([g1] ++ g2 :: []) /\
  partido_de dos_equipos g2 = inr ("Lakers vs Celtics", v) /\
  (forall g' k' v', g' ∈ [] -> partido_de dos_equipos g' = inr (k', v') ->
                    k' <> "Lakers vs Celtics") /\
  dict_get (fst (obtener_partidos dos_equipos (inr ([g1] ++ g2 :: []))))
           "Lakers vs Celtics" = Some v.
Proof.
  intros g1 g2 v.
  assert (forall g' k' v', g' ∈ @nil Game ->
            partido_de dos_equipos g' = inr (k', v') ->
            k' <> "Lakers vs Celtics") as Hlast
    by (intros g' k' v' Hin; apply elem_of_nil in Hin as []).
  assert (Forall (conocido dos_equipos) ([g1] ++ g2 :: [])) as Hall
    by (repeat constructor; eexists; reflexivity).
  split; [exact Hall|]. split; [reflexivity|].
  split; [exact Hlast|].
  apply (X4_partidos_lookup_last_wins dos_equipos [g1] [] g2 _ v
           Hall eq_refl Hlast).
Defined.

(** * More properties of [calcular_clutch_score] *)

(** X6.  The clutch scores of a non-empty table of complete records sum to
    zero: the scaler centres every column, so a score only says where a
    player stands among the players scored with him. *)
Theorem X6_scores_sum_to_zero (rows : list PlayerStatRecord) :
  rows <> [] -> Forall complete rows ->
  exists out,
    calcular_clutch_score_on (stats_frame rows) = inr (clutch_frame out) /\
    Rsum (table_scores out) = 0.
Proof.
  intros Hne Hall. exists (ranked_table rows).
  split; [apply calcular_on_table, Hne|].
  rewrite (Rsum_perm _ _ (table_scores_ranked rows Hall)).
  apply Rsum_spec_score.
Qed.

(** X7.  The ranks of a non-empty table of [n] complete records sum to
    [n (n + 1) / 2], ties or not: tied records share the positions they
    occupy. *)
Theorem X7_ranks_sum (rows : list PlayerStatRecord) :
  rows <> [] -> Forall complete rows ->
  exists out,
    calcular_clutch_score_on (stats_frame rows) = inr (clutch_frame out) /\
    Rsum (table_ranks out)
    = INR (length rows) * (INR (length rows) + 1) / 2.
Proof.
  intros Hne Hall. exists (ranked_table rows).
  split; [apply calcular_on_table, Hne|].
  rewrite (Rsum_perm _ _ (table_ranks_ranked rows Hall)).
  rewrite Rsum_average_rank, length_map. reflexivity.
Qed.

(** X8.  In the result for [n] complete records every rank lies between 1
    and [n], and a record has rank 1 exactly when no record has a greater
    score and no other record has its score. *)
Theorem X8_rank_bounds_and_rank_one (rows : list PlayerStatRecord) :
  rows <> [] -> Forall complete rows ->
  exists out,
    calcular_clutch_score_on (stats_frame rows) = inr (clutch_frame out) /\
    Forall (fun o => exists s rk,
              clutch_score o = Some s /\ clutch_rank o = Some rk /\
              1 <= rk <= INR (length rows) /\
              (rk = 1 <->
               count_greater s (table_scores out) = 0%nat /\
               count_equal s (table_scores out) = 1%nat)) out.
Proof.
  intros Hne Hall. exists (ranked_table rows).
  split; [apply calcular_on_table, Hne|].
  pose proof (table_scores_ranked rows Hall) as Hp.
  apply Forall_forall. intros o Ho.
  destruct (ranked_row_complete rows o Hall Ho) as (r & Hr & _ & _ & Hs & Hk).
  assert (spec_score rows r ∈ map (spec_score rows) rows) as Hin
    by (apply list_elem_of_fmap; exists r; split; [reflexivity|exact Hr]).
  exists (spec_score rows r). eexists. split; [exact Hs|]. split; [exact Hk|].
  split.
  - rewrite <- (length_map (spec_score rows) rows).
    apply average_rank_bounds, Hin.
  - rewrite (average_rank_one _ _ Hin).
    unfold count_greater, count_equal. rewrite Hp. reflexivity.
Qed.

(** X6 at the three players of the scenario. *)
Lemma X6_witness :
  three_players <> [] /\ Forall complete three_players /\
  exists out,
    calcular_clutch_score_on (stats_frame three_players)
      = inr (clutch_frame out) /\
    Rsum (table_scores out) = 0.
Proof.
  split; [discriminate|]. split; [exact three_players_complete|].
  apply (X6_scores_sum_to_zero three_players);
    [discriminate|exact three_players_complete].
Defined.

(** X7 at two players with the same statistics. *)
Lemma X7_witness :
  tied_rows <> [] /\ Forall complete tied_rows /\
  exists out,
    calcular_clutch_score_on (stats_frame tied_rows) = inr (clutch_frame out) /\
    Rsum (table_ranks out)
    = INR (length tied_rows) * (INR (length tied_rows) + 1) / 2.
Proof.
  split; [discriminate|]. split; [exact tied_rows_complete|].
  apply (X7_ranks_sum tied_rows); [discriminate|exact tied_rows_complete].
Defined.

(** X8 at the three players of the scenario. *)
Lemma X8_witness :
  three_players <> [] /\ Forall complete three_players /\
  exists out,
    calcular_clutch_score_on (stats_frame three_players)
      = inr (clutch_frame out) /\
    Forall (fun o => exists s rk,
              clutch_score o = Some s /\ clutch_rank o = Some rk /\
              1 <= rk <= INR (length three_players) /\
              (rk = 1 <->
               count_greater s (table_scores out) = 0%nat /\
               count_equal s (table_scores out) = 1%nat)) out.
Proof.
  split; [discriminate|]. split; [exact three_players_complete|].
  apply (X8_rank_bounds_and_rank_one three_players);
    [discriminate|exact three_players_complete].
Defined.

(** X9.  In exact arithmetic the order of the records in the table does
    not matter: given the same records in another order, the engine returns
    the same rows (name, team, score and rank), possibly in another order
    where scores are equal or missing.  (In binary64 the sum of a column
    depends on the order of its cells, so the last bits of the scores, and
    with them the order and the ranks of records that are nearly tied, can
    change with the order of the input; that is outside this statement.) *)
Theorem X9_input_order_irrelevant (rows rows' : list PlayerStatRecord) :
  rows <> [] -> Permutation rows rows' ->
  exists out out',
    calcular_clutch_score_on (stats_frame rows) = inr (clutch_frame out) /\
    calcular_clutch_score_on (stats_frame rows') = inr (clutch_frame out') /\
    Permutation out out'.
Proof.
  intros Hne Hp. exists (ranked_table rows), (ranked_table rows').
  split; [apply calcular_on_table, Hne|].
  split.
  - apply calcular_on_table. intros ->. apply Permutation_nil_r in Hp. contradiction.
  - rewrite !ranked_table_perm. apply scored_perm, Hp.
Qed.

(** X9 at the three players, the last one first. *)
Lemma X9_witness :
  let rows' := [player "C" "BOS" 10 0.40 0.70 2 0.30 5;
                player "A" "LAL" 30 0.50 0.80 5 0.35 3;
                player "B" "LAL" 20 0.45 0.90 8 0.40 1] in
  three_players <> [] /\ Permutation three_players rows' /\
  exists out out',
    calcular_clutch_score_on (stats_frame three_players)
      = inr (clutch_frame out) /\
    calcular_clutch_score_on (stats_frame rows') = inr (clutch_frame out') /\
    Permutation out out'.
Proof.
  intros rows'.
  assert (Permutation three_players rows') as Hp.
  { unfold three_players, rows'.
    eapply perm_trans; [apply perm_skip, perm_swap|apply perm_swap]. }
  split; [discriminate|]. split; [exact Hp|].
  apply (X9_input_order_irrelevant three_players rows'); [discriminate|exact Hp].
Defined.

(** X10.  The unit of a statistic does not matter: with a column replaced
    by [a * x + b], [a > 0] (a percentage in percent instead of a fraction,
    say), the engine returns the same frame. *)
Theorem X10_unit_of_a_statistic_irrelevant
    (c : stat) (a b : R) (rows : list PlayerStatRecord) :
  0 < a ->
  calcular_clutch_score_on (stats_frame (map (rescale c a b) rows))
  = calcular_clutch_score_on (stats_frame rows).
Proof.
  intros Ha. destruct rows as [|r0 rows']; [reflexivity|].
  rewrite !calcular_on_table by discriminate.
  do 2 f_equal. unfold ranked_table.
  assert (scores (map (rescale c a b) (r0 :: rows')) = scores (r0 :: rows')) as Hs.
  { unfold scores. rewrite map_map. apply map_ext_in. intros r Hin.
    apply score_of_rescale; [exact Ha|apply list_elem_of_In, Hin]. }
  rewrite Hs, (scored_rescale c a b _ Ha). reflexivity.
Qed.

(** X10 with the field-goal percentage of the three players in percent. *)
Lemma X10_witness :
  0 < 100 /\
  calcular_clutch_score_on
    (stats_frame (map (rescale FG_PCT 100 0) three_players))
  = calcular_clutch_score_on (stats_frame three_players).
Proof.
  assert (0 < 100) as H by lra.
  split; [exact H|].
  apply (X10_unit_of_a_statistic_irrelevant FG_PCT 100 0 three_players H).
Defined.

(** X11.  In the frame returned for any non-empty table, the [n] rows with
    a score come first, in descending order of score, and the rows without
    one (records with a missing statistic) come last, without a rank. *)
Theorem X11_rows_without_score_last (rows : list PlayerStatRecord) :
  rows <> [] ->
  exists out n,
    calcular_clutch_score_on (stats_frame rows) = inr (clutch_frame out) /\
    n = length (table_scores out) /\
    (forall i o, out !! i = Some o ->
       ((i < n)%nat -> is_Some (clutch_score o)) /\
       ((n <= i)%nat -> clutch_score o = None /\ clutch_rank o = None)) /\
    (forall i j a b, (i < j)%nat -> (j < n)%nat ->
       out !! i = Some a -> out !! j = Some b ->
       exists sa sb,
         clutch_score a = Some sa /\ clutch_score b = Some sb /\ sb <= sa).
Proof.
  intros Hne.
  exists (ranked_table rows), (length (sorted_keys (scores rows))).
  split; [apply calcular_on_table, Hne|].
  assert (map clutch_score (ranked_table rows)
          = map (fun p => Some (fst p)) (sorted_keys (scores rows))
            ++ map (fun _ => None)
                   (omap nan_item (zip (scores rows)
                                       (seq 0 (length (scores rows)))))) as Hk.
  { unfold ranked_table. rewrite map_map.
    rewrite <- nargsort_desc_keys_nan.
    apply map_ext. intros k. symmetry. apply nth_scored_score. }
  assert (forall i o, ranked_table rows !! i = Some o ->
            (map (fun p => Some (fst p)) (sorted_keys (scores rows))
             ++ map (fun _ => None)
                  (omap nan_item (zip (scores rows)
                                      (seq 0 (length (scores rows)))))) !! i
            = Some (clutch_score o)) as Hlook.
  { intros i o Ho. rewrite <- Hk, lookup_map, Ho. reflexivity. }
  split.
  { unfold table_scores. rewrite Hk. unfold present.
    rewrite omap_app.
    fold (present (map (fun p => Some (fst p)) (sorted_keys (scores rows)))).
    rewrite present_somes.
    replace (omap _ (map (fun _ => None) _)) with (@nil R).
    - rewrite app_nil_r, length_map. reflexivity.
    - generalize (omap nan_item (zip (scores rows) (seq 0 (length (scores rows))))).
      intros l. induction l as [|x l IH]; [reflexivity|exact IH]. }
  split.
  - intros i o Ho. pose proof (Hlook i o Ho) as Hi. split; intros Hlt.
    + rewrite lookup_app_l in Hi by (rewrite length_map; exact Hlt).
      rewrite lookup_map in Hi.
      destruct (sorted_keys (scores rows) !! i) as [p|]; [|discriminate].
      cbn in Hi. injection Hi as <-. eexists; reflexivity.
    + rewrite lookup_app_r in Hi by (rewrite length_map; exact Hlt).
      rewrite lookup_map in Hi.
      destruct (_ !! (i - _)%nat) as [p|] in Hi; [|discriminate].
      cbn in Hi. injection Hi as Hi. split; [congruence|].
      apply (scored_rank_iff rows); [|congruence].
      apply list_elem_of_In.
      apply (Permutation_in _ (ranked_table_perm rows)).
      apply list_elem_of_In, list_elem_of_lookup. eauto.
  - intros i j a b Hij Hjn Ha Hb.
    pose proof (Hlook i a Ha) as Hi. pose proof (Hlook j b Hb) as Hj.
    rewrite lookup_app_l in Hi by (rewrite length_map; lia).
    rewrite lookup_app_l in Hj by (rewrite length_map; lia).
    rewrite lookup_map in Hi, Hj.
    destruct (sorted_keys (scores rows) !! i) as [p|] eqn:Hp; [|discriminate].
    destruct (sorted_keys (scores rows) !! j) as [q|] eqn:Hq; [|discriminate].
    cbn in Hi, Hj. injection Hi as Hi. injection Hj as Hj.
    exists (fst p), (fst q). repeat split; [congruence..|].
    exact (StronglySorted_lookup _ _ _ _ _ _ (sorted_keys_desc _) Hp Hq Hij).
Qed.

(** X11 at a table with a missing value. *)
Lemma X11_witness :
  rows_with_missing <> [] /\
  exists out n,
    calcular_clutch_score_on (stats_frame rows_with_missing)
      = inr (clutch_frame out) /\
    n = length (table_scores out) /\
    (forall i o, out !! i = Some o ->
       ((i < n)%nat -> is_Some (clutch_score o)) /\
       ((n <= i)%nat -> clutch_score o = None /\ clutch_rank o = None)) /\
    (forall i j a b, (i < j)%nat -> (j < n)%nat ->
       out !! i = Some a -> out !! j = Some b ->
       exists sa sb,
         clutch_score a = Some sa /\ clutch_score b = Some sb /\ sb <= sa).
Proof.
  split; [discriminate|].
  apply (X11_rows_without_score_last rows_with_missing). discriminate.
Defined.

(** X12.  On any frame, the engine returns a frame only if the six
    statistics, the name and the team are columns of the frame and it has
    at least one row; the frame returned then has the four columns
    PLAYER_NAME, TEAM_ABBREVIATION, CLUTCH_SCORE and CLUTCH_RANK, in this
    order, and as many rows as the PTS column has: every other column of
    the input is left out. *)
Theorem X12_success_conditions_and_schema (d out : DataFrame) :
  calcular_clutch_score_on d = inr out ->
  (forall k, In k (map fst weights) -> is_Some (df_lookup d k)) /\
  (exists c, df_lookup d "PTS" = Some c /\ col_length c <> 0%nat /\
             nrows out = col_length c) /\
  is_Some (df_lookup d "PLAYER_NAME") /\
  is_Some (df_lookup d "TEAM_ABBREVIATION") /\
  map fst out
  = ["PLAYER_NAME"; "TEAM_ABBREVIATION"; "CLUTCH_SCORE"; "CLUTCH_RANK"].
Proof.
  rewrite calcular_clutch_score_on_pipeline. unfold clutch_pipeline.
  cbn [weights map fst snd df_getitem_list].
  destruct (df_lookup d "PTS") as [c1|] eqn:H1; [|discriminate].
  destruct (df_lookup d "FG_PCT") as [c2|] eqn:H2; [|discriminate].
  destruct (df_lookup d "FT_PCT") as [c3|] eqn:H3; [|discriminate].
  destruct (df_lookup d "AST") as [c4|] eqn:H4; [|discriminate].
  destruct (df_lookup d "FG3_PCT") as [c5|] eqn:H5; [|discriminate].
  destruct (df_lookup d "TOV") as [c6|] eqn:H6; [|discriminate].
  unfold check_array. cbn [map snd as_floats].
  destruct (as_float c1) as [e|v1] eqn:E1; [discriminate|].
  destruct (as_float c2) as [e|v2] eqn:E2; [discriminate|].
  destruct (as_float c3) as [e|v3] eqn:E3; [discriminate|].
  destruct (as_float c4) as [e|v4] eqn:E4; [discriminate|].
  destruct (as_float c5) as [e|v5] eqn:E5; [discriminate|].
  destruct (as_float c6) as [e|v6] eqn:E6; [discriminate|].
  apply as_float_inv in E1 as ->, E2 as ->, E3 as ->, E4 as ->, E5 as ->, E6 as ->.
  cbn [n_samples].
  destruct (Nat.eqb_spec (length v1) 0) as [Hz|Hnz]; [discriminate|].
  unfold np_dot.
  match goal with
  | |- context [Nat.eqb (length (transform ?A)) ?n] =>
      change (Nat.eqb (length (transform A)) n) with true
  end.
  cbv iota.
  set (clutch_scores := map _ (seq 0 (n_samples (transform [v1; v2; v3; v4; v5; v6])))).
  assert (length clutch_scores = length v1) as Hlen.
  { unfold clutch_scores. rewrite length_map, length_seq.
    cbn [transform map n_samples]. unfold scale_column. apply length_map. }
  destruct (df_lookup d "PLAYER_NAME") as [cn|] eqn:Hn; [|discriminate].
  destruct (df_lookup d "TEAM_ABBREVIATION") as [ct|] eqn:Ht;
    cbv beta iota; [|discriminate].
  unfold df_setitem at 1. cbn [nrows col_length].
  destruct (length clutch_scores =? col_length cn)%nat eqn:El;
    cbv beta iota; [|discriminate].
  apply Nat.eqb_eq in El.
  replace (df_lookup [("PLAYER_NAME", cn); ("TEAM_ABBREVIATION", ct)] "CLUTCH_SCORE")
    with (@None column) by reflexivity.
  cbn [app].
  replace (df_getitem _ "CLUTCH_SCORE")
    with (inr (A:=exn) (FloatCol clutch_scores)) by reflexivity.
  cbn [series_rank_desc]. unfold df_setitem. cbn [nrows col_length].
  rewrite length_rank_desc, El, Nat.eqb_refl.
  replace (df_lookup _ "CLUTCH_RANK") with (@None column) by reflexivity.
  cbn [app].
  replace (df_sort_values_desc _ "CLUTCH_SCORE")
    with (inr (A:=exn)
            (df_take (nargsort_desc clutch_scores)
               [("PLAYER_NAME", cn); ("TEAM_ABBREVIATION", ct);
                ("CLUTCH_SCORE", FloatCol clutch_scores);
                ("CLUTCH_RANK", FloatCol (rank_desc clutch_scores))]))
    by reflexivity.
  intros [= <-].
  split.
  { intros k Hk. cbn in Hk.
    destruct Hk as [<-|[<-|[<-|[<-|[<-|[<-|[]]]]]]]; eexists; eassumption. }
  split.
  { exists (FloatCol v1). split; [reflexivity|]. split; [exact Hnz|].
    cbn [nrows df_take map fst snd].
      rewrite col_length_take_col, length_nargsort_desc. exact Hlen. }
  split; [eexists; reflexivity|]. split; [eexists; reflexivity|].
  reflexivity.
Qed.

(** X12 at two players with the same statistics. *)
Lemma X12_witness :
  calcular_clutch_score_on (stats_frame tied_rows)
    = inr (clutch_frame tied_result) /\
  (forall k, In k (map fst weights) ->
     is_Some (df_lookup (stats_frame tied_rows) k)) /\
  (exists c, df_lookup (stats_frame tied_rows) "PTS" = Some c /\
             col_length c <> 0%nat /\
             nrows (clutch_frame tied_result) = col_length c) /\
  is_Some (df_lookup (stats_frame tied_rows) "PLAYER_NAME") /\
  is_Some (df_lookup (stats_frame tied_rows) "TEAM_ABBREVIATION") /\
  map fst (clutch_frame tied_result)
  = ["PLAYER_NAME"; "TEAM_ABBREVIATION"; "CLUTCH_SCORE"; "CLUTCH_RANK"].
Proof.
  split; [exact calcular_tied_rows|].
  apply (X12_success_conditions_and_schema _ _ calcular_tied_rows).
Defined.

(** * Properties of the fetcher, the first rows and the page *)

(** X13.  When the frame of the statistics service lacks one of the eight
    columns, the fetcher returns the empty frame and shows one error,
    whatever teams are asked for. *)
Theorem X13_fetcher_missing_column
    (stats : DataFrame) (abreviaturas : list string) (k : string) :
  In k relevant_columns -> df_lookup stats k = None ->
  exists m, obtener_datos_jugadores (inr stats) abreviaturas = ([], [m]).
Proof.
  intros Hin Hk. unfold obtener_datos_jugadores, obtener_datos_jugadores_try.
  destruct (df_getitem_list_missing stats _ k Hin Hk) as [k' ->].
  eexists; reflexivity.
Qed.


(** X14.  The first [n] rows of the engine's result for complete records,
    which is what [head] keeps ([n] is 5 on the page): they are
    [min n (length rows)] rows, and no row left out has a greater score
    than a row kept. *)
Theorem X14_head_keeps_the_best (rows : list PlayerStatRecord) (n : nat) :
  rows <> [] -> Forall complete rows ->
  exists out,
    calcular_clutch_score_on (stats_frame rows) = inr (clutch_frame out) /\
    df_head n (clutch_frame out) = clutch_frame (take n out) /\
    nrows (df_head n (clutch_frame out)) = Nat.min n (length rows) /\
    forall a b, a ∈ take n out -> b ∈ drop n out ->
      exists sa sb,
        clutch_score a = Some sa /\ clutch_score b = Some sb /\ sb <= sa.
Proof.
  intros Hne Hall. exists (ranked_table rows).
  split; [apply calcular_on_table, Hne|].
  split; [apply df_head_clutch_frame|].
  split.
  - rewrite df_head_clutch_frame, nrows_clutch_frame, length_take,
      length_ranked_table. reflexivity.
  - intros a b Ha Hb.
    apply list_elem_of_lookup_1 in Ha as [i Hi].
    apply list_elem_of_lookup_1 in Hb as [j Hj].
    apply lookup_take_Some in Hi as [Hi Hlt].
    rewrite lookup_drop in Hj.
    apply (ranked_table_sorted rows i (n + j) a b Hall Hi Hj). lia.
Qed.

(** X15.  The style of the rank column of the ranking table, for complete
    records: a cell is green or has no style, and it is green exactly when
    it is the first one and the score of the first row is greater than the
    score of every other row of the whole result, shown or not.  So with a
    tie at the top no cell is green. *)
Theorem X15_green_only_for_a_sole_leader (rows : list PlayerStatRecord) :
  rows <> [] -> Forall complete rows ->
  exists out,
    calcular_clutch_score_on (stats_frame rows) = inr (clutch_frame out) /\
    length (table_scores out) = length out /\
    let css := applymap_rank (df_head 5 (clutch_frame out)) "CLUTCH_RANK" in
    length css = Nat.min 5 (length rows) /\
    forall i c, css !! i = Some c ->
      (c = "color: green" \/ c = "") /\
      (c = "color: green" <->
       i = 0%nat /\
       forall s0 j s, table_scores out !! 0%nat = Some s0 -> (0 < j)%nat ->
                      table_scores out !! j = Some s -> s < s0).
Proof.
  intros Hne Hall. exists (ranked_table rows).
  split; [apply calcular_on_table, Hne|].
  split; [rewrite length_table_scores, length_ranked_table by exact Hall;
          reflexivity|].
  cbv zeta. rewrite applymap_rank_head.
  split; [rewrite length_map, length_take, length_ranked_table; reflexivity|].
  intros i c Hc. rewrite lookup_map in Hc.
  destruct (take 5 (ranked_table rows) !! i) as [o|] eqn:Ho; [|discriminate].
  cbn in Hc. injection Hc as <-.
  apply lookup_take_Some in Ho as [Ho _].
  destruct (color_del_rank_green (clutch_rank o)) as [Hcases Hgreen].
  split; [exact Hcases|]. rewrite Hgreen.
  destruct (ranked_row_rank_one rows i o Hall Ho) as (s & Hs & ->).
  split.
  - intros H.
    assert (i = 0%nat) as ->.
    { destruct i as [|i]; [reflexivity|]. exfalso.
      destruct (lookup_lt_is_Some_2 (table_scores (ranked_table rows)) 0%nat)
        as [y Hy]; [apply lookup_lt_Some in Hs; lia|].
      pose proof (H 0%nat y ltac:(discriminate) Hy) as Hlt.
      pose proof (table_scores_sorted rows 0 (S i) y s Hall Hy Hs ltac:(lia)).
      lra. }
    split; [reflexivity|]. intros s0 j y Hs0 Hj Hy.
    assert (s0 = s) as -> by congruence.
    apply (H j y); [lia|exact Hy].
  - intros [-> H] j y Hj Hy. apply (H s j y Hs); [lia|exact Hy].
Qed.

(** X16.  The first tab, when the statistics service answered with a table
    of records: the engine is called on the complete records of the two
    teams and does not raise; when there is no such record the tab stays
    blank, without a message; otherwise the chart and the ranking table
    hold the first five rows of the engine's result, at most five, and the
    detailed table holds the records themselves. *)
Theorem X16_analysis_of_a_table
    (env : Entorno) (partidos : list (string * Partido))
    (abreviaturas : list string) (stats : DataFrame)
    (rows : list PlayerStatRecord) :
  partidos <> [] ->
  player_stats env = inr stats ->
  df_getitem_list stats relevant_columns = inr (stats_frame rows) ->
  let kept := List.filter (team_in abreviaturas)
                (List.filter all_present rows) in
  (kept = [] -> analisis_del_partido env partidos abreviaturas = ([], None)) /\
  (kept <> [] ->
   exists top,
     calcular_clutch_score_on (stats_frame kept)
     = inr (clutch_frame (ranked_table kept)) /\
     top = clutch_frame (take 5 (ranked_table kept)) /\
     nrows top = Nat.min 5 (length kept) /\
     nrows (stats_frame kept) = length kept /\
     analisis_del_partido env partidos abreviaturas
     = (eventos_antes_del_clutch ++
        eventos_del_clutch (stats_frame kept) top, None)).
Proof.
  intros Hne Hstats Hsel kept.
  pose proof (analisis_del_partido_table env partidos abreviaturas stats rows
                Hne Hstats Hsel) as H.
  fold kept in H. split.
  - intros Hk. rewrite Hk in H. exact H.
  - intros Hk. exists (clutch_frame (take 5 (ranked_table kept))).
    split; [apply calcular_on_table, Hk|]. split; [reflexivity|].
    split; [rewrite nrows_clutch_frame, length_take, length_ranked_table;
            reflexivity|].
    split; [apply nrows_stats_frame|].
    destruct kept; [congruence|exact H].
Qed.

(** X17.  The first tab, when the request for the statistics raised or its
    frame lacks one of the eight columns: the only thing shown is the
    error of the fetcher; the engine is not called and the run goes on. *)
Theorem X17_analysis_without_statistics
    (env : Entorno) (partidos : list (string * Partido))
    (abreviaturas : list string) :
  partidos <> [] ->
  (exists e, player_stats env = inl e) \/
  (exists stats k, player_stats env = inr stats /\
                   In k relevant_columns /\ df_lookup stats k = None) ->
  exists t,
    analisis_del_partido env partidos abreviaturas
    = ([([Tab 0%nat], error ("Error en datos de jugadores: " ++ t))], None).
Proof.
  intros Hne H. unfold analisis_del_partido.
  destruct partidos as [|p partidos]; [congruence|].
  destruct H as [[e He]|(stats & k & Hs & Hin & Hk)].
  - rewrite He. eexists. reflexivity.
  - rewrite Hs. unfold obtener_datos_jugadores, obtener_datos_jugadores_try.
    destruct (df_getitem_list_missing stats _ k Hin Hk) as [k' ->].
    eexists. reflexivity.
Qed.

(** X18.  When [obtener_partidos] returns the empty dict, the page is the
    header, the one message of [obtener_partidos] in the sidebar, and the
    stop: no select box, no tab.  The statistics service and the select
    box play no part. *)
Theorem X18_no_games_stops_the_page (env : Entorno) :
  fst (obtener_partidos (find_team env) (scoreboard env)) = [] ->
  (exists m,
     script env = cabecera ++ [([Sidebar], m); ([Sidebar], stop)] /\
     (m = warning "No hay partidos programados para hoy." \/
      exists t, m = error ("Error al obtener partidos: " ++ t))) /\
  forall env',
    scoreboard env' = scoreboard env -> find_team env' = find_team env ->
    script env' = script env.
Proof.
  intros Hp.
  assert (forall env0,
            scoreboard env0 = scoreboard env -> find_team env0 = find_team env ->
            script env0
            = cabecera ++
              mostrar_avisos [Sidebar]
                (snd (obtener_partidos (find_team env) (scoreboard env))) ++
              [([Sidebar], stop)]) as Hscript.
  { intros env0 Hs Hf. unfold script. rewrite Hs, Hf.
    destruct (obtener_partidos (find_team env) (scoreboard env)) as [p a].
    cbn [fst snd] in *. rewrite Hp. reflexivity. }
  split.
  - rewrite (Hscript env eq_refl eq_refl).
    pose proof (obtener_partidos_avisos (find_team env) (scoreboard env)) as Ha.
    rewrite Hp in Ha. destruct Ha as [->|[t ->]].
    + eexists. split; [reflexivity|]. left. reflexivity.
    + eexists. split; [reflexivity|]. right. eexists. reflexivity.
  - intros env' Hs Hf.
    rewrite (Hscript env' Hs Hf), (Hscript env eq_refl eq_refl). reflexivity.
Qed.

(** X19.  The error of the last two lines of the script is never shown,
    in no container and in no run: when the dict is empty the run has
    stopped in the sidebar, and no other message has this text (the
    warning of [obtener_partidos] ends with a full stop and is a
    warning). *)
Theorem X19_final_error_never_shown (env : Entorno) (donde : list contenedor) :
  (donde, error "No hay partidos programados para hoy") ∉ script env.
Proof.
  intros Hin.
  pose proof (sin_error_final_script env) as H.
  unfold sin_error_final in H. rewrite Forall_forall in H.
  apply (H _ Hin). reflexivity.
Qed.


(** X20.  A visit on a day with games whose teams are all known, when the
    select box returns one of its options and the statistics service
    answers with a table of records: the game chosen is a game of the day,
    the statistics are asked for its two teams, and the page is the
    header, the select box, the two tabs, the analysis of the complete
    records of the two teams (nothing when there is none) and the
    technical information; nothing is shown in the sidebar besides the
    select box and the run is not stopped. *)
Theorem X20_page_for_a_game
    (env : Entorno) (games : list Game) (stats : DataFrame)
    (rows : list PlayerStatRecord) :
  scoreboard env = inr games ->
  games <> [] ->
  Forall (conocido (find_team env)) games ->
  eleccion env "Selecciona un partido:"
    (dict_keys (fst (obtener_partidos (find_team env) (inr games))))
  ∈ dict_keys (fst (obtener_partidos (find_team env) (inr games))) ->
  player_stats env = inr stats ->
  df_getitem_list stats relevant_columns = inr (stats_frame rows) ->
  exists g h a,
    g ∈ games /\
    find_team env (HOME_TEAM_ID g) = Some h /\
    find_team env (VISITOR_TEAM_ID g) = Some a /\
    eleccion env "Selecciona un partido:"
      (dict_keys (fst (obtener_partidos (find_team env) (inr games))))
    = (nickname h ++ " vs " ++ nickname a)%string /\
    script env
    = cabecera ++
      [([Sidebar],
        selectbox "Selecciona un partido:"
          (dict_keys (fst (obtener_partidos (find_team env) (inr games)))));
       ([], tabs ["📈 Análisis del Partido"; "📚 Información Técnica"])] ++
      match List.filter (team_in [abbreviation h; abbreviation a])
              (List.filter all_present rows) with
      | [] => []
      | kept =>
          eventos_antes_del_clutch ++
          eventos_del_clutch (stats_frame kept)
            (clutch_frame (take 5 (ranked_table kept)))
      end ++ informacion_tecnica.
Proof.
  intros Hsb Hne Hall Hsel Hstats Hcols.
  destruct (obtener_partidos_conocidos (find_team env) games Hne Hall)
    as (p & Hp & Hop).
  pose proof (obtener_partidos_item (find_team env) (inr games)) as Hitem.
  rewrite Hop in Hsel, Hitem |- *. cbn [fst] in *.
  destruct (dict_get_key p _ Hsel) as [info Hinfo].
  destruct (Hitem _ _ (dict_get_Some_elem _ _ _ Hinfo))
    as (games' & g & h & a & [= <-] & Hg & Hh & Ha & Hk & Hv).
  exists g, h, a. repeat (split; [assumption|]).
  unfold script. rewrite Hsb, Hop.
  destruct p as [|p0 p]; [congruence|].
  cbn [mostrar_avisos map]. rewrite Hinfo.
  rewrite (analisis_del_partido_table env _ _ stats rows Hp Hstats Hcols).
  rewrite Hv. cbn [home_abbrev away_abbrev].
  rewrite app_nil_r. reflexivity.
Qed.

(** * The properties at a visit with one game *)

(** X13 at a frame of the statistics service that has the two text columns
    only. *)
Lemma X13_witness :
  let stats := [("PLAYER_NAME", ObjCol [Some "A"]);
                ("TEAM_ABBREVIATION", ObjCol [Some "LAL"])] in
  In "PTS" relevant_columns /\ df_lookup stats "PTS" = None /\
  exists m, obtener_datos_jugadores (inr stats) ["LAL"] = ([], [m]).
Proof.
  intros stats.
  assert (In "PTS" relevant_columns) as Hin by (cbn; tauto).
  split; [exact Hin|]. split; [reflexivity|].
  apply (X13_fetcher_missing_column stats ["LAL"] "PTS" Hin eq_refl).
Defined.

(** X14 at the three players, keeping two rows. *)
Lemma X14_witness :
  three_players <> [] /\ Forall complete three_players /\
  exists out,
    calcular_clutch_score_on (stats_frame three_players)
    = inr (clutch_frame out) /\
    df_head 2 (clutch_frame out) = clutch_frame (take 2 out) /\
    nrows (df_head 2 (clutch_frame out)) = Nat.min 2 (length three_players) /\
    forall a b, a ∈ take 2 out -> b ∈ drop 2 out ->
      exists sa sb,
        clutch_score a = Some sa /\ clutch_score b = Some sb /\ sb <= sa.
Proof.
  assert (three_players <> []) as Hne by discriminate.
  split; [exact Hne|]. split; [exact three_players_complete|].
  apply (X14_head_keeps_the_best three_players 2 Hne three_players_complete).
Defined.

(** X15 at the two players with the same statistics. *)
Lemma X15_witness :
  tied_rows <> [] /\ Forall complete tied_rows /\
  exists out,
    calcular_clutch_score_on (stats_frame tied_rows) = inr (clutch_frame out) /\
    length (table_scores out) = length out /\
    let css := applymap_rank (df_head 5 (clutch_frame out)) "CLUTCH_RANK" in
    length css = Nat.min 5 (length tied_rows) /\
    forall i c, css !! i = Some c ->
      (c = "color: green" \/ c = "") /\
      (c = "color: green" <->
       i = 0%nat /\
       forall s0 j s, table_scores out !! 0%nat = Some s0 -> (0 < j)%nat ->
                      table_scores out !! j = Some s -> s < s0).
Proof.
  assert (tied_rows <> []) as Hne by discriminate.
  split; [exact Hne|]. split; [exact tied_rows_complete|].
  apply (X15_green_only_for_a_sole_leader tied_rows Hne tied_rows_complete).
Defined.

(** X16 at the visit with one game, for the two teams of the game. *)
Lemma X16_witness :
  let partidos := fst (obtener_partidos dos_equipos (inr un_partido)) in
  let kept := List.filter (team_in ["LAL"; "BOS"])
                (List.filter all_present three_players) in
  partidos <> [] /\
  player_stats una_visita = inr (stats_frame three_players) /\
  df_getitem_list (stats_frame three_players) relevant_columns
  = inr (stats_frame three_players) /\
  (kept = [] ->
   analisis_del_partido una_visita partidos ["LAL"; "BOS"] = ([], None)) /\
  (kept <> [] ->
   exists top,
     calcular_clutch_score_on (stats_frame kept)
     = inr (clutch_frame (ranked_table kept)) /\
     top = clutch_frame (take 5 (ranked_table kept)) /\
     nrows top = Nat.min 5 (length kept) /\
     nrows (stats_frame kept) = length kept /\
     analisis_del_partido una_visita partidos ["LAL"; "BOS"]
     = (eventos_antes_del_clutch ++
        eventos_del_clutch (stats_frame kept) top, None)).
Proof.
  intros partidos kept.
  assert (partidos <> []) as Hne by discriminate.
  split; [exact Hne|]. split; [reflexivity|]. split; [reflexivity|].
  apply (X16_analysis_of_a_table una_visita partidos ["LAL"; "BOS"]
           (stats_frame three_players) three_players Hne eq_refl eq_refl).
Defined.

(** X17 at a visit on which the request for the statistics timed out. *)
Lemma X17_witness :
  let env := {| scoreboard := inr un_partido; find_team := dos_equipos;
                eleccion := primera_opcion;
                player_stats := inl (RuntimeError "Read timed out.") |} in
  let partidos := fst (obtener_partidos dos_equipos (inr un_partido)) in
  partidos <> [] /\
  ((exists e, player_stats env = inl e) \/
   (exists stats k, player_stats env = inr stats /\
                    In k relevant_columns /\ df_lookup stats k = None)) /\
  exists t,
    analisis_del_partido env partidos ["LAL"; "BOS"]
    = ([([Tab 0%nat], error ("Error en datos de jugadores: " ++ t))], None).
Proof.
  intros env partidos.
  assert (partidos <> []) as Hne by discriminate.
  assert ((exists e, player_stats env = inl e) \/
          (exists stats k, player_stats env = inr stats /\
                           In k relevant_columns /\ df_lookup stats k = None))
    as H by (left; eexists; reflexivity).
  split; [exact Hne|]. split; [exact H|].
  apply (X17_analysis_without_statistics env partidos ["LAL"; "BOS"] Hne H).
Defined.

(** X18 at a day without games. *)
Lemma X18_witness :
  let env := {| scoreboard := inr []; find_team := dos_equipos;
                eleccion := primera_opcion;
                player_stats := inr (stats_frame three_players) |} in
  fst (obtener_partidos (find_team env) (scoreboard env)) = [] /\
  (exists m,
     script env = cabecera ++ [([Sidebar], m); ([Sidebar], stop)] /\
     (m = warning "No hay partidos programados para hoy." \/
      exists t, m = error ("Error al obtener partidos: " ++ t))) /\
  forall env',
    scoreboard env' = scoreboard env -> find_team env' = find_team env ->
    script env' = script env.
Proof.
  intros env. split; [reflexivity|].
  apply (X18_no_games_stops_the_page env eq_refl).
Defined.

(** X20 at the visit with one game: the game chosen is Lakers against
    Celtics. *)
Lemma X20_witness :
  scoreboard una_visita = inr un_partido /\
  un_partido <> [] /\
  Forall (conocido (find_team una_visita)) un_partido /\
  eleccion una_visita "Selecciona un partido:"
    (dict_keys (fst (obtener_partidos (find_team una_visita) (inr un_partido))))
  ∈ dict_keys (fst (obtener_partidos (find_team una_visita) (inr un_partido))) /\
  player_stats una_visita = inr (stats_frame three_players) /\
  df_getitem_list (stats_frame three_players) relevant_columns
  = inr (stats_frame three_players) /\
  exists g h a,
    g ∈ un_partido /\
    find_team una_visita (HOME_TEAM_ID g) = Some h /\
    find_team una_visita (VISITOR_TEAM_ID g) = Some a /\
    eleccion una_visita "Selecciona un partido:"
      (dict_keys (fst (obtener_partidos (find_team una_visita) (inr un_partido))))
    = (nickname h ++ " vs " ++ nickname a)%string /\
    script una_visita
    = cabecera ++
      [([Sidebar],
        selectbox "Selecciona un partido:"
          (dict_keys (fst (obtener_partidos (find_team una_visita)
                             (inr un_partido)))));
       ([], tabs ["📈 Análisis del Partido"; "📚 Información Técnica"])] ++
      match List.filter (team_in [abbreviation h; abbreviation a])
              (List.filter all_present three_players) with
      | [] => []
      | kept =>
          eventos_antes_del_clutch ++
          eventos_del_clutch (stats_frame kept)
            (clutch_frame (take 5 (ranked_table kept)))
      end ++ informacion_tecnica.
Proof.
  assert (un_partido <> []) as Hne by discriminate.
  assert (eleccion una_visita "Selecciona un partido:"
            (dict_keys (fst (obtener_partidos (find_team una_visita)
                               (inr un_partido))))
          ∈ dict_keys (fst (obtener_partidos (find_team una_visita)
                              (inr un_partido)))) as Hsel
    by apply list_elem_of_here.
  split; [reflexivity|]. split; [exact Hne|].
  split; [exact un_partido_conocido|]. split; [exact Hsel|].
  split; [reflexivity|]. split; [reflexivity|].
  apply (X20_page_for_a_game una_visita un_partido (stats_frame three_players)
           three_players eq_refl Hne un_partido_conocido Hsel eq_refl eq_refl).
Defined.
